(** * VB-to-C# migrator: rule-rewrite engine, routing and project graph

    A shallow embedding of the TypeScript sources
      - src/migration/rules-engine.ts   (MigrationRulesEngine, EnhancedMigrationEngine)
      - src/generators/csharp-generator.ts (CSharpGenerator)
      - src/analyzers/module-migrator.ts (ModuleMigrator, ModernArchitectureGenerator)
      - src/parsers/vb-parser.ts (VBParser)
    together with the part of the ECMAScript semantics the sources rely on:
    strings, [String.prototype.replace] with a [RegExp], the backtracking
    regular-expression matcher and the stable [Array.prototype.sort].

    Text is modelled over 8-bit code units (the Latin-1 range of UTF-16). *)

From Stdlib Require Import String Ascii List ZArith Lia Bool Arith.
From Stdlib Require Import Sorted Permutation.
Import ListNotations.
Local Open Scope list_scope.
Local Open Scope string_scope.

(* ===================================================================== *)
(** ** ECMAScript values, exceptions and strings                          *)
(* ===================================================================== *)

Module JS.

(** Exceptions the modelled code can raise. *)
Inductive error : Type :=
| TypeError (msg : string)
| RangeError (msg : string)
| Error (msg : string).

(** A computation either returns normally or throws. *)
Inductive result (A : Type) : Type :=
| Ok (a : A)
| Throw (e : error).
Arguments Ok {A} a.
Arguments Throw {A} e.

Definition bind {A B : Type} (m : result A) (f : A -> result B) : result B :=
  match m with
  | Ok a => f a
  | Throw e => Throw e
  end.

(** What a JavaScript engine throws when the call stack is used up. *)
Definition stackExhausted : error := RangeError "Maximum call stack size exceeded".

(** [refines a b]: whenever [a] returns, [b] returns the same. *)
Definition refines {A : Type} (a b : result A) : Prop :=
  forall v, a = Ok v -> b = Ok v.

Definition isOk {A : Type} (m : result A) : bool :=
  match m with Ok _ => true | Throw _ => false end.

(** The values that reach a replacement callback: captures are strings or
    [undefined], the match offset is a number. *)
Inductive value : Type :=
| VUndefined
| VString (s : string)
| VNumber (n : nat).

(** [ToBoolean]. *)
Definition truthy (v : value) : bool :=
  match v with
  | VUndefined => false
  | VString s => negb (String.eqb s "")
  | VNumber n => negb (Nat.eqb n 0)
  end.

(** Array destructuring / indexing: a hole or a missing index is [undefined]. *)
Definition nth_value (i : nat) (vs : list value) : value := nth i vs VUndefined.

Definition digit_char (n : nat) : ascii := ascii_of_nat (48 + n).

Fixpoint decimal_aux (fuel n : nat) (acc : string) : string :=
  match fuel with
  | O => acc
  | S fuel' =>
      let acc' := String (digit_char (n mod 10)) acc in
      if (n / 10 =? 0)%nat then acc' else decimal_aux fuel' (n / 10) acc'
  end.

(** [Number::toString] on a non-negative integer. *)
Definition decimal (n : nat) : string := decimal_aux (S n) n "".

(** [ToString], as performed by a template literal. *)
Definition toStr (v : value) : string :=
  match v with
  | VUndefined => "undefined"
  | VString s => s
  | VNumber n => decimal n
  end.

Definition LF : ascii := ascii_of_nat 10.
Definition CR : ascii := ascii_of_nat 13.
Definition TAB : ascii := ascii_of_nat 9.
Definition DQ : ascii := ascii_of_nat 34.
Definition nl : string := String LF EmptyString.
Definition dq : string := String DQ EmptyString.

(** WhiteSpace and LineTerminator code units below 256. *)
Definition is_space (c : ascii) : bool :=
  let n := nat_of_ascii c in
  (((9 <=? n) && (n <=? 13)) || (n =? 32) || (n =? 160))%nat.

Definition is_line_terminator (c : ascii) : bool :=
  let n := nat_of_ascii c in ((n =? 10) || (n =? 13))%nat.

Definition is_digit (c : ascii) : bool :=
  let n := nat_of_ascii c in ((48 <=? n) && (n <=? 57))%nat.

Definition is_upper (c : ascii) : bool :=
  let n := nat_of_ascii c in ((65 <=? n) && (n <=? 90))%nat.

Definition is_lower (c : ascii) : bool :=
  let n := nat_of_ascii c in ((97 <=? n) && (n <=? 122))%nat.

(** The class [\w]. *)
Definition is_word (c : ascii) : bool :=
  is_upper c || is_lower c || is_digit c || (nat_of_ascii c =? 95)%nat.

Definition lower_char (c : ascii) : ascii :=
  let n := nat_of_ascii c in
  if is_upper c then ascii_of_nat (n + 32)
  else if ((192 <=? n) && (n <=? 222) && negb (n =? 215))%nat then ascii_of_nat (n + 32)
  else c.

Fixpoint toLowerCase (s : string) : string :=
  match s with
  | EmptyString => EmptyString
  | String c s' => String (lower_char c) (toLowerCase s')
  end.

Fixpoint startsWith (s p : string) : bool :=
  match p with
  | EmptyString => true
  | String b p' =>
      match s with
      | EmptyString => false
      | String a s' => Ascii.eqb a b && startsWith s' p'
      end
  end.

(** [String.prototype.includes]. *)
Fixpoint includes (s needle : string) : bool :=
  startsWith s needle ||
  match s with
  | EmptyString => false
  | String _ s' => includes s' needle
  end.

Fixpoint drop (n : nat) (s : string) : string :=
  match n with
  | O => s
  | S n' => match s with EmptyString => EmptyString | String _ s' => drop n' s' end
  end.

Fixpoint take (n : nat) (s : string) : string :=
  match n with
  | O => EmptyString
  | S n' => match s with EmptyString => EmptyString | String c s' => String c (take n' s') end
  end.

(** [String.prototype.endsWith]. *)
Definition endsWith (s suffix : string) : bool :=
  (String.length suffix <=? String.length s)%nat &&
  String.eqb (drop (String.length s - String.length suffix) s) suffix.

Fixpoint trimStart (s : string) : string :=
  match s with
  | EmptyString => EmptyString
  | String c s' => if is_space c then trimStart s' else s
  end.

Fixpoint rev_onto (s acc : string) : string :=
  match s with
  | EmptyString => acc
  | String c s' => rev_onto s' (String c acc)
  end.

Definition rev (s : string) : string := rev_onto s EmptyString.

Definition trimEnd (s : string) : string := rev (trimStart (rev s)).

(** [String.prototype.trim]. *)
Definition trim (s : string) : string := trimEnd (trimStart s).

(** [String.prototype.split] on a one-character separator. *)
Fixpoint split_aux (sep : ascii) (s : string) (cur : string) : list string :=
  match s with
  | EmptyString => [rev cur]
  | String c s' =>
      if Ascii.eqb c sep then rev cur :: split_aux sep s' EmptyString
      else split_aux sep s' (String c cur)
  end.

Definition split (sep : ascii) (s : string) : list string := split_aux sep s EmptyString.

(** [Array.prototype.join]. *)
Fixpoint join (sep : string) (l : list string) : string :=
  match l with
  | [] => EmptyString
  | [x] => x
  | x :: rest => x ++ sep ++ join sep rest
  end.

Definition last_char (s : string) (d : option ascii) : option ascii :=
  match rev s with
  | EmptyString => d
  | String c _ => Some c
  end.

End JS.

(* ===================================================================== *)
(** ** Regular expressions (ECMAScript backtracking semantics)            *)
(* ===================================================================== *)

Module RegExp.
Import JS.

(** Members of a character class [[...]]. *)
Inductive citem : Type :=
| CChar (c : ascii)
| CRange (lo hi : ascii)
| CSpace        (* \s *)
| CNotSpace     (* \S *)
| CWord         (* \w *)
| CDigit.       (* \d *)

(** Pattern syntax; capture groups are numbered by their opening
    parenthesis, left to right, as the matcher walks the pattern. *)
Inductive regex : Type :=
| Empty
| Char (c : ascii)
| Dot
| Class (negated : bool) (items : list citem)
| Seq (r1 r2 : regex)
| Alt (r1 r2 : regex)
| Repeat (min : nat) (max : option nat) (greedy : bool) (r : regex)
| Group (r : regex)
| Lookahead (r : regex)
| WordBoundary
| LineStart
| LineEnd.

Definition citem_matches (i : citem) (c : ascii) : bool :=
  match i with
  | CChar a => Ascii.eqb a c
  | CRange lo hi => ((nat_of_ascii lo <=? nat_of_ascii c) && (nat_of_ascii c <=? nat_of_ascii hi))%nat
  | CSpace => is_space c
  | CNotSpace => negb (is_space c)
  | CWord => is_word c
  | CDigit => is_digit c
  end.

Definition class_matches (negated : bool) (items : list citem) (c : ascii) : bool :=
  xorb negated (existsb (fun i => citem_matches i c) items).

(** Number of capturing parentheses in a pattern. *)
Fixpoint count_groups (r : regex) : nat :=
  match r with
  | Seq r1 r2 | Alt r1 r2 => count_groups r1 + count_groups r2
  | Repeat _ _ _ r1 | Lookahead r1 => count_groups r1
  | Group r1 => S (count_groups r1)
  | _ => 0
  end.

(** Matcher state: the code unit before the current position, the text
    from the current position on, and the captures (index 0 is group 1). *)
Record mstate : Type := MState {
  prev : option ascii;
  rest : string;
  caps : list (option string)
}.

Fixpoint set_cap (i : nat) (v : option string) (cs : list (option string)) : list (option string) :=
  match cs with
  | [] => []
  | c :: cs' => match i with O => v :: cs' | S i' => c :: set_cap i' v cs' end
  end.

Fixpoint clear_caps (from count : nat) (cs : list (option string)) : list (option string) :=
  match count with
  | O => cs
  | S count' => clear_caps (S from) count' (set_cap from None cs)
  end.

Definition consumed (x y : mstate) : nat := String.length (rest x) - String.length (rest y).

Definition step_char (x : mstate) (ok : ascii -> bool) (k : mstate -> option mstate) : option mstate :=
  match rest x with
  | EmptyString => None
  | String a s' => if ok a then k (MState (Some a) s' (caps x)) else None
  end.

Definition at_word (o : option ascii) : bool :=
  match o with Some c => is_word c | None => false end.

Definition next_char (x : mstate) : option ascii :=
  match rest x with EmptyString => None | String a _ => Some a end.

(** RepeatMatcher for a body matcher [m]: captures inside the body are
    cleared before every iteration ([clear]) and an iteration that consumes
    nothing once the minimum is reached is rejected.  Every unfolding either
    lowers [min] or moves on in the text, so a [budget] above
    [min + length] is never used up. *)
Fixpoint repeatMatcher (m : mstate -> (mstate -> option mstate) -> option mstate)
         (clear : mstate -> mstate) (greedy : bool) (k : mstate -> option mstate)
         (budget min : nat) (max : option nat) (x : mstate) {struct budget}
  : option mstate :=
  match max with
  | Some O => k x
  | _ =>
      match budget with
      | O => None
      | S budget' =>
          let d := fun y : mstate =>
            if Nat.eqb min 0 && Nat.eqb (String.length (rest y)) (String.length (rest x))
            then None
            else repeatMatcher m clear greedy k budget' (Nat.pred min)
                   (option_map Nat.pred max) y in
          if negb (Nat.eqb min 0) then m (clear x) d
          else if greedy then
            match m (clear x) d with
            | Some z => Some z
            | None => k x
            end
          else
            match k x with
            | Some z => Some z
            | None => m (clear x) d
            end
      end
  end.

Definition clear_body (pi count : nat) (x : mstate) : mstate :=
  MState (prev x) (rest x) (clear_caps pi count (caps x)).

Definition repeat_budget (min : nat) (x : mstate) : nat :=
  S (min + String.length (rest x)).

(** The matcher in continuation-passing style: [matcher ml r pi x k] tries
    [r] at state [x] and hands every way of matching it to [k] in priority
    order, returning the first overall success.  [pi] is the number of
    capturing parentheses to the left of [r]; [ml] is the [m] flag. *)
Fixpoint matcher (ml : bool) (r : regex) (pi : nat) (x : mstate)
         (k : mstate -> option mstate) {struct r} : option mstate :=
  match r with
  | Empty => k x
  | Char c => step_char x (Ascii.eqb c) k
  | Dot => step_char x (fun a => negb (is_line_terminator a)) k
  | Class negated items => step_char x (class_matches negated items) k
  | Seq r1 r2 =>
      matcher ml r1 pi x (fun y => matcher ml r2 (pi + count_groups r1) y k)
  | Alt r1 r2 =>
      match matcher ml r1 pi x k with
      | Some z => Some z
      | None => matcher ml r2 (pi + count_groups r1) x k
      end
  | Group r1 =>
      matcher ml r1 (S pi) x
        (fun y => k (MState (prev y) (rest y)
                       (set_cap pi (Some (take (consumed x y) (rest x))) (caps y))))
  | Lookahead r1 =>
      match matcher ml r1 pi x (fun y => Some y) with
      | None => None
      | Some y => k (MState (prev x) (rest x) (caps y))
      end
  | WordBoundary =>
      if xorb (at_word (prev x)) (at_word (next_char x)) then k x else None
  | LineStart =>
      match prev x with
      | None => k x
      | Some c => if ml && is_line_terminator c then k x else None
      end
  | LineEnd =>
      match next_char x with
      | None => k x
      | Some c => if ml && is_line_terminator c then k x else None
      end
  | Repeat min max greedy r1 =>
      repeatMatcher (matcher ml r1 pi) (clear_body pi (count_groups r1)) greedy k
        (repeat_budget min x) min max x
  end.

(** A matcher is forward when it hands only positions at or after its own
    to the continuation: two continuations that agree there give the same
    result. *)
Definition forward (m : mstate -> (mstate -> option mstate) -> option mstate) : Prop :=
  forall x k1 k2,
    (forall y, String.length (rest y) <= String.length (rest x) -> k1 y = k2 y) ->
    m x k1 = m x k2.

(** Zero or more rounds of a step relation. *)
Inductive rounds (step : mstate -> mstate -> Prop) : mstate -> mstate -> Prop :=
| rounds_done (x : mstate) : rounds step x x
| rounds_more (x m y : mstate) : step x m -> rounds step m y -> rounds step x y.

(** [reaches ml r pi x y]: a match of [r] that starts in state [x] can end
    in state [y].  This is the matcher read as a relation, without the
    choice among the ways of matching (and without the bounds of a
    repetition). *)
Fixpoint reaches (ml : bool) (r : regex) (pi : nat) (x y : mstate) {struct r} : Prop :=
  match r with
  | Empty => y = x
  | Char c =>
      exists s', rest x = String c s' /\ y = MState (Some c) s' (caps x)
  | Dot =>
      exists a s', rest x = String a s' /\ is_line_terminator a = false /\
                   y = MState (Some a) s' (caps x)
  | Class negated items =>
      exists a s', rest x = String a s' /\ class_matches negated items a = true /\
                   y = MState (Some a) s' (caps x)
  | Seq r1 r2 =>
      exists m, reaches ml r1 pi x m /\ reaches ml r2 (pi + count_groups r1) m y
  | Alt r1 r2 =>
      reaches ml r1 pi x y \/ reaches ml r2 (pi + count_groups r1) x y
  | Group r1 =>
      exists m, reaches ml r1 (S pi) x m /\
                y = MState (prev m) (rest m)
                      (set_cap pi (Some (take (consumed x m) (rest x))) (caps m))
  | Lookahead r1 =>
      exists m, reaches ml r1 pi x m /\ y = MState (prev x) (rest x) (caps m)
  | WordBoundary | LineStart | LineEnd => y = x
  | Repeat _ _ _ r1 =>
      rounds (fun a b => reaches ml r1 pi (clear_body pi (count_groups r1) a) b) x y
  end.

(** Whether every match of [r] leaves capture [i] defined: the group is
    on the path of every match, not inside an alternative or a repetition. *)
Fixpoint always_sets (r : regex) (pi i : nat) {struct r} : bool :=
  match r with
  | Seq r1 r2 => always_sets r1 pi i || always_sets r2 (pi + count_groups r1) i
  | Group r1 => Nat.eqb i pi || always_sets r1 (S pi) i
  | Lookahead r1 => always_sets r1 pi i
  | _ => false
  end.

(** A [RegExp] object: pattern and the two flags the sources use.
    [String.prototype.replace] never reads [lastIndex] of a global pattern
    (it is reset before the first match) nor of a non-global one, so the
    object carries no state that could influence a replacement. *)
Record t : Type := Make {
  source : regex;
  global : bool;
  multiline : bool
}.

(** One successful match: where, what, and the captures. *)
Record match_result : Type := Match {
  index : nat;
  matched : string;
  captures : list (option string)
}.

(** Try the pattern at exactly the current position. *)
Definition exec_at (re : t) (before : option ascii) (s : string)
  : option (nat * list (option string)) :=
  let x := MState before s (repeat None (count_groups (source re))) in
  match matcher (multiline re) (source re) 0 x (fun y => Some y) with
  | Some y => Some (consumed x y, caps y)
  | None => None
  end.

(** RegExpBuiltinExec from the current position: the leftmost match. *)
Fixpoint search (re : t) (before : option ascii) (s : string) (idx : nat)
  : option match_result :=
  match exec_at re before s with
  | Some (n, cs) => Some (Match idx (take n s) cs)
  | None =>
      match s with
      | EmptyString => None
      | String c s' => search re (Some c) s' (S idx)
      end
  end.

(** The match-collecting loop of RegExp.prototype[@@replace] for a global
    pattern: every next search starts where the previous match ended, one
    further on after an empty match.  [skip] counts the positions still
    covered by the previous match. *)
Fixpoint execAll (re : t) (before : option ascii) (s : string) (idx skip : nat)
  : list match_result :=
  let here := if Nat.eqb skip 0 then exec_at re before s else None in
  match here with
  | Some (n, cs) =>
      Match idx (take n s) cs ::
      match s with
      | EmptyString => []
      | String c s' => execAll re (Some c) s' (S idx) (Nat.pred n)
      end
  | None =>
      match s with
      | EmptyString => []
      | String c s' => execAll re (Some c) s' (S idx) (Nat.pred skip)
      end
  end.

(** All the matches [replace] will substitute, in order. *)
Definition matches (re : t) (s : string) : list match_result :=
  if global re then execAll re None s 0 0
  else match search re None s 0 with Some m => [m] | None => [] end.

(** What is known of the captures of any match of [re]: there is one per
    group, and the groups every match passes through are defined. *)
Definition well_captured (re : t) (cs : list (option string)) : Prop :=
  List.length cs = count_groups (source re) /\
  forall i, always_sets (source re) 0 i = true -> exists text, nth i cs None = Some text.

(** A replacement: a template with [$]-references or a callback receiving
    [(match, p1, ..., pn, offset, string)]. *)
Inductive replaceValue : Type :=
| Template (template : string)
| Callback (f : string -> list value -> result string).

Definition capture_value (c : option string) : value :=
  match c with Some s => VString s | None => VUndefined end.

Definition digit_value (c : ascii) : nat := nat_of_ascii c - 48.

Definition capture_text (i : nat) (m : match_result) : string :=
  match nth i (captures m) None with Some s => s | None => EmptyString end.

(** GetSubstitution (no named groups). *)
Fixpoint getSubstitution (m : match_result) (str : string) (template : string) : string :=
  match template with
  | EmptyString => EmptyString
  | String c t1 =>
      if negb (Ascii.eqb c "$") then String c (getSubstitution m str t1)
      else
        match t1 with
        | EmptyString => "$"
        | String d t2 =>
            if Ascii.eqb d "$" then String "$" (getSubstitution m str t2)
            else if Ascii.eqb d "&" then (matched m ++ getSubstitution m str t2)%string
            else if Ascii.eqb d "`" then (take (index m) str ++ getSubstitution m str t2)%string
            else if Ascii.eqb d "'" then
              (drop (index m + String.length (matched m)) str ++ getSubstitution m str t2)%string
            else if is_digit d then
              let n1 := digit_value d in
              let ncap := List.length (captures m) in
              let one :=
                if (Nat.leb 1 n1 && Nat.leb n1 ncap)%bool
                then (capture_text (n1 - 1) m ++ getSubstitution m str t2)%string
                else String "$" (String d (getSubstitution m str t2)) in
              match t2 with
              | String e t3 =>
                  if is_digit e then
                    let n2 := 10 * n1 + digit_value e in
                    if (Nat.leb 1 n2 && Nat.leb n2 ncap)%bool
                    then (capture_text (n2 - 1) m ++ getSubstitution m str t3)%string
                    else one
                  else one
              | EmptyString => one
              end
            else String "$" (getSubstitution m str t1)
        end
  end.

Definition replacement_for (rep : replaceValue) (str : string) (m : match_result)
  : result string :=
  match rep with
  | Template tpl => Ok (getSubstitution m str tpl)
  | Callback f =>
      f (matched m) (map capture_value (captures m) ++ [VNumber (index m); VString str])%list
  end.

(** The assembling loop of RegExp.prototype[@@replace]: the text between
    matches is copied, each match is replaced; a throwing callback aborts. *)
Fixpoint assemble (rep : replaceValue) (str : string) (ms : list match_result)
         (nextSourcePosition : nat) : result string :=
  match ms with
  | [] => Ok (drop nextSourcePosition str)
  | m :: ms' =>
      bind (replacement_for rep str m) (fun r =>
      bind (assemble rep str ms' (index m + String.length (matched m))) (fun tail =>
      Ok (take (index m - nextSourcePosition) (drop nextSourcePosition str) ++ r ++ tail)%string))
  end.

(** [str.replace(re, rep)]. *)
Definition replace (str : string) (re : t) (rep : replaceValue) : result string :=
  assemble rep str (matches re str) 0.

(** [str.replace(re, template)]: a template never throws. *)
Definition replaceTemplate (str : string) (re : t) (template : string) : string :=
  match replace str re (Template template) with
  | Ok r => r
  | Throw _ => str
  end.

(** [re.test(str)] on a pattern without the [g] flag. *)
Definition test (re : t) (str : string) : bool :=
  match search re None str 0 with Some _ => true | None => false end.

(** [re.test(str)] on a pattern object whose [lastIndex] is [lastIndex]:
    the answer and the [lastIndex] afterwards.  A pattern with the [g] flag
    searches from [lastIndex] on and remembers where the match ended; one
    without it searches from the start and leaves [lastIndex] alone. *)
Definition testFrom (re : t) (lastIndex : nat) (str : string) : bool * nat :=
  if global re then
    if Nat.ltb (String.length str) lastIndex then (false, 0)
    else
      let before := match lastIndex with O => None | S i => String.get i str end in
      match search re before (drop lastIndex str) lastIndex with
      | Some m => (true, index m + String.length (matched m))
      | None => (false, 0)
      end
  else (test re str, lastIndex).

(** *** Pattern combinators *)

Fixpoint lit (s : string) : regex :=
  match s with
  | EmptyString => Empty
  | String c EmptyString => Char c
  | String c s' => Seq (Char c) (lit s')
  end.

Fixpoint seq (rs : list regex) : regex :=
  match rs with
  | [] => Empty
  | [r] => r
  | r :: rs' => Seq r (seq rs')
  end.

Fixpoint alts (rs : list regex) : regex :=
  match rs with
  | [] => Empty
  | [r] => r
  | r :: rs' => Alt r (alts rs')
  end.

Definition star (r : regex) : regex := Repeat 0 None true r.
Definition plus (r : regex) : regex := Repeat 1 None true r.
Definition opt (r : regex) : regex := Repeat 0 (Some 1) true r.
Definition lazy_star (r : regex) : regex := Repeat 0 None false r.
Definition lazy_plus (r : regex) : regex := Repeat 1 None false r.

Definition space : regex := Class false [CSpace].   (* \s *)
Definition word : regex := Class false [CWord].     (* \w *)
Definition digit : regex := Class false [CDigit].   (* \d *)
Definition anything : regex := Class false [CSpace; CNotSpace].  (* [\s\S] *)
Definition none_of (cs : list ascii) : regex := Class true (map CChar cs).
Definition newline : regex := Char LF.              (* \n *)

End RegExp.

(* ===================================================================== *)
(** ** Array.prototype.sort                                               *)
(* ===================================================================== *)

Module JSArray.

Section Sort.
Context {A : Type}.
  (** The comparator [(a, b) => n]: negative or zero keeps [a] first. *)
Variable compareFn : A -> A -> Z.

Fixpoint insert (x : A) (l : list A) : list A :=
    match l with
    | [] => [x]
    | y :: l' => if (compareFn x y <=? 0)%Z then x :: y :: l' else y :: insert x l'
    end.

  (** [Array.prototype.sort] is required to be stable (ECMAScript 2019):
      elements that compare equal keep their original order. *)
Fixpoint sort (l : list A) : list A :=
    match l with
    | [] => []
    | x :: l' => insert x (sort l')
    end.
End Sort.

End JSArray.

(* ===================================================================== *)
(** ** MigrationRulesEngine (src/migration/rules-engine.ts)               *)
(* ===================================================================== *)

Module MigrationRulesEngine.
Import JS.

Inductive ConditionType : Type := contains | not_contains | file_extension | project_type.

Record MigrationCondition : Type := {
  ctype : ConditionType;
  cvalue : string
}.

(** [usings], [variables] and [functions] are carried by the source's
    context but never read by the engine. *)
Record MigrationContext : Type := {
  filePath : string;
  fileContent : string;
  projectType : string;
  targetFramework : string
}.

(** What a replacement callback can reach through [this]. *)
Record This : Type := {
  this_convertMethodBody : value -> result string
}.

Inductive Replacement : Type :=
| Literal (template : string)
| Function (f : This -> string -> list value -> result string).

Record MigrationRule : Type := {
  id : string;
  category : string;
  priority : Z;
  pattern : RegExp.t;
  replacement : Replacement;
  conditions : option (list MigrationCondition)
}.

(** The comparator of [this.rules.sort((a, b) => b.priority - a.priority)]. *)
Definition byPriority (a b : MigrationRule) : Z := (priority b - priority a)%Z.

Definition sortRules (rules : list MigrationRule) : list MigrationRule :=
  JSArray.sort byPriority rules.

Definition conditionHolds (condition : MigrationCondition) (context : MigrationContext) : bool :=
  match ctype condition with
  | contains => includes (fileContent context) (cvalue condition)
  | not_contains => negb (includes (fileContent context) (cvalue condition))
  | file_extension => endsWith (filePath context) (cvalue condition)
  | project_type => String.eqb (projectType context) (cvalue condition)
  end.

Fixpoint allConditionsHold (cs : list MigrationCondition) (context : MigrationContext) : bool :=
  match cs with
  | [] => true
  | condition :: cs' =>
      if conditionHolds condition context then allConditionsHold cs' context else false
  end.

Definition shouldApplyRule (rule : MigrationRule) (context : MigrationContext) : bool :=
  match conditions rule with
  | None => true
  | Some cs => allConditionsHold cs context
  end.

Definition toRegExpReplacement (this : This) (r : Replacement) : RegExp.replaceValue :=
  match r with
  | Literal tpl => RegExp.Template tpl
  | Function f => RegExp.Callback (f this)
  end.

Definition applyRule (this : This) (rule : MigrationRule) (content : string)
           (context : MigrationContext) : result string :=
  match replacement rule with
  | Literal tpl => RegExp.replace content (pattern rule) (RegExp.Template tpl)
  | Function f => RegExp.replace content (pattern rule) (RegExp.Callback (f this))
  end.

(** The [for (const rule of sortedRules)] loop with its two locals. *)
Fixpoint applyRules_loop (this : This) (context : MigrationContext)
         (sortedRules : list MigrationRule) (result0 : string) (appliedRules : list string)
  : result (string * list string) :=
  match sortedRules with
  | [] => Ok (result0, appliedRules)
  | rule :: more =>
      if shouldApplyRule rule context then
        let before := result0 in
        bind (applyRule this rule result0 context) (fun result1 =>
        applyRules_loop this context more result1
          (if String.eqb result1 before then appliedRules else (appliedRules ++ [id rule])%list))
      else applyRules_loop this context more result0 appliedRules
  end.

Definition placeholder : string := "    // TODO: Implement method logic".

Definition indentLine (line : string) : string :=
  if String.eqb (trim line) "" then line else "    " ++ line.

Definition bodyContext (vbBody : string) : MigrationContext :=
  {| filePath := ""; fileContent := vbBody; projectType := "WinForms";
     targetFramework := "net8.0" |}.

(** [convertMethodBody], given the engine's own [applyRules].  The
    parameter is declared [string] but receives whatever the callback
    destructured: a number has no [trim]. *)
Definition convertMethodBody (applyRules : string -> MigrationContext -> result string)
           (vbBody : value) : result string :=
  if negb (truthy vbBody) then Ok placeholder
  else
    match vbBody with
    | VString s =>
        if String.eqb (trim s) "" then Ok placeholder
        else
          bind (applyRules s (bodyContext s)) (fun csBody =>
          let lines := split LF csBody in
          let indentedLines := map indentLine lines in
          Ok (join nl indentedLines))
    | _ => Throw (TypeError "vbBody.trim is not a function")
    end.

(** [applyRules] with an explicit call-stack budget: the callbacks re-enter
    the engine through [convertMethodBody]; exhausting the stack is the
    RangeError a JavaScript engine raises.  [this.rules.sort] sorts the
    array in place, so a nested call finds it sorted already. *)
Fixpoint applyRulesN (stack : nat) (rules : list MigrationRule) (content : string)
         (context : MigrationContext) {struct stack} : result string :=
  match stack with
  | O => Throw stackExhausted
  | S stack' =>
      let sortedRules := sortRules rules in
      let this := {| this_convertMethodBody :=
                       convertMethodBody (applyRulesN stack' sortedRules) |} in
      bind (applyRules_loop this context sortedRules content [])
           (fun st => Ok (fst st))
  end.

(** What the callbacks of a running [applyRules] reach through [this]:
    the engine itself, its rule array sorted by the running call, with
    [stack] frames left for a nested call. *)
Definition callbackThis (stack : nat) (rules : list MigrationRule) : This :=
  {| this_convertMethodBody := convertMethodBody (applyRulesN stack (sortRules rules)) |}.

(** The engine object: its only field is the mutable rule array. *)
Record Engine : Type := { rules : list MigrationRule }.

(** [engine.applyRules(content, context)]: the value returned (or the
    exception) and the engine afterwards. *)
Definition applyRules (stack : nat) (engine : Engine) (content : string)
           (context : MigrationContext) : result string * Engine :=
  (applyRulesN stack (rules engine) content context,
   {| rules := sortRules (rules engine) |}).

Definition addCustomRule (engine : Engine) (rule : MigrationRule) : Engine :=
  {| rules := (rules engine ++ [rule])%list |}.

Fixpoint removeFirst (ruleId : string) (l : list MigrationRule) : option (list MigrationRule) :=
  match l with
  | [] => None
  | r :: l' =>
      if String.eqb (id r) ruleId then Some l'
      else match removeFirst ruleId l' with
           | Some l'' => Some (r :: l'')
           | None => None
           end
  end.

Definition removeRule (engine : Engine) (ruleId : string) : bool * Engine :=
  match removeFirst ruleId (rules engine) with
  | Some l => (true, {| rules := l |})
  | None => (false, engine)
  end.

(** [getRules] returns a copy of the array in its current order. *)
Definition getRules (engine : Engine) : list MigrationRule := rules engine.

Definition getRulesByCategory (engine : Engine) (category0 : string) : list MigrationRule :=
  filter (fun rule => String.eqb (category rule) category0) (rules engine).

(** [this.rules.find(rule => rule.id === id)] *)
Definition getRuleById (engine : Engine) (ruleId : string) : option MigrationRule :=
  find (fun rule => String.eqb (id rule) ruleId) (rules engine).

(** *** Helpers of the callbacks *)

(** How a template literal renders a property an object literal inherits
    from [Object.prototype]; [map[key] || fallback] finds these too.  A
    method is rendered under its own name; [constructor] is the function
    [Object], and renders under that name. *)
Definition nativeFunction (fname : string) : string :=
  "function " ++ fname ++ "() { [native code] }".

Definition inheritedMember (key : string) : option string :=
  if String.eqb key "__proto__" then Some "[object Object]"
  else if String.eqb key "constructor" then Some (nativeFunction "Object")
  else if existsb (String.eqb key)
            ["__defineGetter__"; "__defineSetter__"; "hasOwnProperty";
             "__lookupGetter__"; "__lookupSetter__"; "isPrototypeOf";
             "propertyIsEnumerable"; "toString"; "valueOf"; "toLocaleString"]
  then Some (nativeFunction key)
  else None.

Fixpoint own (table : list (string * string)) (key : string) : option string :=
  match table with
  | [] => None
  | (k, v) :: table' => if String.eqb k key then Some v else own table' key
  end.

(** [map[key] || fallback], rendered as text. *)
Definition lookupOr (table : list (string * string)) (key : value) (fallback : string) : string :=
  match own table (toStr key) with
  | Some v => v
  | None =>
      match inheritedMember (toStr key) with
      | Some text => text
      | None => fallback
      end
  end.

Definition mapAccessibility (vbAccessibility : value) : string :=
  lookupOr [("Private", "private"); ("Public", "public");
            ("Protected", "protected"); ("Friend", "internal")]
           vbAccessibility "private".

Definition mapDataType (vbType : value) : string :=
  lookupOr [("Integer", "int"); ("String", "string"); ("Boolean", "bool");
            ("Double", "double"); ("Single", "float"); ("Long", "long");
            ("Decimal", "decimal"); ("Date", "DateTime"); ("Object", "object")]
           vbType (toStr vbType).

(** [/(\w+)\s+As\s+(\w+)/] *)
Definition paramPattern : RegExp.t :=
  RegExp.Make
    (RegExp.seq [RegExp.Group (RegExp.plus RegExp.word); RegExp.plus RegExp.space;
                 RegExp.lit "As"; RegExp.plus RegExp.space;
                 RegExp.Group (RegExp.plus RegExp.word)])
    false false.

Definition convertParameter (param : string) : string :=
  let trimmed := trim param in
  match RegExp.search paramPattern None trimmed 0 with
  | Some m =>
      let name := RegExp.capture_value (nth 0 (RegExp.captures m) None) in
      let type := RegExp.capture_value (nth 1 (RegExp.captures m) None) in
      mapDataType type ++ " " ++ toStr name
  | None => trimmed
  end.

Definition convertParameters (vbParams : value) : result string :=
  if negb (truthy vbParams) then Ok ""
  else
    match vbParams with
    | VString s =>
        if String.eqb (trim s) "" then Ok ""
        else Ok (join ", " (map convertParameter (split "," s)))
    | _ => Throw (TypeError "vbParams.trim is not a function")
    end.

Definition convertEventParameters (vbParams : value) : string :=
  "object sender, EventArgs e".


(** *** The rule table of [initializeRules] *)

Import RegExp.

Definition s0 : regex := star space.   (* \s* *)
Definition s1 : regex := plus space.   (* \s+ *)
Definition w1 : regex := plus word.    (* \w+ *)
Definition body : regex := Group (lazy_star anything).   (* ([\s\S]*?) *)

(** [/Dim\s+(\w+)\s+As\s+(\w+)/g] *)
Definition re_dim : RegExp.t :=
  Make (seq [lit "Dim"; s1; Group w1; s1; lit "As"; s1; Group w1]) true false.

(** [/Dim\s+(\w+)\s+As\s+New\s+(\w+)\s*\((.*?)\)/g] *)
Definition re_new_object : RegExp.t :=
  Make (seq [lit "Dim"; s1; Group w1; s1; lit "As"; s1; lit "New"; s1; Group w1; s0;
             Char "("; Group (lazy_star Dot); Char ")"]) true false.

(** [/If\s+(.+?)\s+Then/g] *)
Definition re_if_then : RegExp.t :=
  Make (seq [lit "If"; s1; Group (lazy_plus Dot); s1; lit "Then"]) true false.

(** [/ElseIf\s+(.+?)\s+Then/g] *)
Definition re_elseif : RegExp.t :=
  Make (seq [lit "ElseIf"; s1; Group (lazy_plus Dot); s1; lit "Then"]) true false.

(** [/End If/g] *)
Definition re_end_if : RegExp.t := Make (lit "End If") true false.

(** [/\bString\b/g], [/\bInteger\b/g], [/\bBoolean\b/g], [/\bAnd\b/g], [/\bOr\b/g] *)
Definition re_keyword (kw : string) : RegExp.t :=
  Make (seq [WordBoundary; lit kw; WordBoundary]) true false.

(** [/\s+&\s+/g] *)
Definition re_concat : RegExp.t := Make (seq [s1; Char "&"; s1]) true false.

(** [/\bNot\s+/g] *)
Definition re_not : RegExp.t := Make (seq [WordBoundary; lit "Not"; s1]) true false.

(** [/MsgBox\s*\(/g] *)
Definition re_msgbox : RegExp.t := Make (seq [lit "MsgBox"; s0; Char "("]) true false.

(** [/^(\s* )'/gm] (without the blank after the star). *)
Definition re_comment : RegExp.t := Make (seq [LineStart; Group s0; Char "'"]) true true.

(** [/(Private|Public|Protected|Friend)\s+(Sub|Function)\s+(\w+)\s*\((.*?)\)(\s+As\s+(\w+))?\s*\n([\s\S]*?)\nEnd\s+(Sub|Function)/gm] *)
Definition re_method : RegExp.t :=
  Make (seq [Group (alts [lit "Private"; lit "Public"; lit "Protected"; lit "Friend"]); s1;
             Group (alts [lit "Sub"; lit "Function"]); s1; Group w1; s0;
             Char "("; Group (lazy_star Dot); Char ")";
             opt (Group (seq [s1; lit "As"; s1; Group w1])); s0; newline;
             body; newline; lit "End"; s1; Group (alts [lit "Sub"; lit "Function"])])
       true true.

(** [/(Private|Public)\s+Sub\s+(\w+)_(\w+)\s*\(([^)]* )\)\s+Handles\s+([^.\n]+)\.([^.\n]+)\s*\n([\s\S]*?)\nEnd Sub/gm]
    (without the blank after the third star). *)
Definition re_event : RegExp.t :=
  Make (seq [Group (alts [lit "Private"; lit "Public"]); s1; lit "Sub"; s1;
             Group w1; Char "_"; Group w1; s0;
             Char "("; Group (star (none_of [")"%char])); Char ")"; s1; lit "Handles"; s1;
             Group (plus (none_of ["."%char; LF])); Char ".";
             Group (plus (none_of ["."%char; LF])); s0; newline;
             body; newline; lit "End Sub"])
       true true.

(** [/For\s+(\w+)\s+As\s+(\w+)\s+=\s+(.+?)\s+To\s+(.+?)(?:\s+Step\s+(.+?))?\s*\n([\s\S]*?)\nNext/gm] *)
Definition re_for : RegExp.t :=
  Make (seq [lit "For"; s1; Group w1; s1; lit "As"; s1; Group w1; s1; Char "="; s1;
             Group (lazy_plus Dot); s1; lit "To"; s1; Group (lazy_plus Dot);
             opt (seq [s1; lit "Step"; s1; Group (lazy_plus Dot)]); s0; newline;
             body; newline; lit "Next"])
       true true.

(** [/Try\s*\n([\s\S]*?)\nCatch\s+(\w+)\s+As\s+(\w+)\s*\n([\s\S]*?)\nEnd Try/gm] *)
Definition re_try : RegExp.t :=
  Make (seq [lit "Try"; s0; newline; body; newline; lit "Catch"; s1; Group w1; s1;
             lit "As"; s1; Group w1; s0; newline; body; newline; lit "End Try"])
       true true.

(** [/(Private|Public|Protected)\s+Property\s+(\w+)\s*\(\)\s+As\s+(\w+)\s*\n\s*Get\s*\n([\s\S]*?)\n\s*End Get\s*\n\s*Set\s*\(([^)]+)\)\s*\n([\s\S]*?)\n\s*End Set\s*\nEnd Property/gm] *)
Definition re_property : RegExp.t :=
  Make (seq [Group (alts [lit "Private"; lit "Public"; lit "Protected"]); s1;
             lit "Property"; s1; Group w1; s0; lit "()"; s1; lit "As"; s1; Group w1;
             s0; newline; s0; lit "Get"; s0; newline; body; newline; s0; lit "End Get";
             s0; newline; s0; lit "Set"; s0; Char "("; Group (plus (none_of [")"%char]));
             Char ")"; s0; newline; body; newline; s0; lit "End Set"; s0; newline;
             lit "End Property"])
       true true.

(** [/Dim\s+(\w+)\s+As\s+New\s+SqlCommand\s*\(\s*Q([^Q]+)Q\s*,\s*(\w+)\s*\)/g],
    where [Q] stands for the double quote. *)
Definition re_sql : RegExp.t :=
  Make (seq [lit "Dim"; s1; Group w1; s1; lit "As"; s1; lit "New"; s1; lit "SqlCommand";
             s0; Char "("; s0; Char DQ; Group (plus (none_of [DQ])); Char DQ; s0;
             Char ","; s0; Group w1; s0; Char ")"]) true false.

(** The callbacks.  Each receives [groups = [p1; ...; pn; offset; string]]
    and destructures it with a leading hole, [const [, a, b, ...] = groups],
    so [a] is [groups[1]], that is [p2]. *)

Definition method_callback (this : This) (_ : string) (groups : list value) : result string :=
  let accessibility := nth_value 1 groups in
  let methodType := nth_value 2 groups in
  let methodName := nth_value 3 groups in
  let parameters := nth_value 4 groups in
  let returnType := nth_value 6 groups in
  let body := nth_value 7 groups in
  let csAccessibility := mapAccessibility accessibility in
  let csReturnType :=
    match methodType with
    | VString "Function" => if truthy returnType then toStr returnType else "object"
    | _ => "void"
    end in
  bind (convertParameters parameters) (fun csParameters =>
  bind (this_convertMethodBody this body) (fun csBody =>
  Ok (csAccessibility ++ " " ++ csReturnType ++ " " ++ toStr methodName
        ++ "(" ++ csParameters ++ ")" ++ nl ++ "{" ++ nl ++ csBody ++ nl ++ "}"))).

Definition event_callback (this : This) (_ : string) (groups : list value) : result string :=
  let controlName := nth_value 2 groups in
  let eventName := nth_value 3 groups in
  let parameters := nth_value 4 groups in
  let body := nth_value 7 groups in
  bind (this_convertMethodBody this body) (fun csBody =>
  let csParameters := convertEventParameters parameters in
  Ok ("private void " ++ toStr controlName ++ "_" ++ toStr eventName
        ++ "(" ++ csParameters ++ ")" ++ nl ++ "{" ++ nl ++ csBody ++ nl ++ "}")).

Definition for_callback (this : This) (_ : string) (groups : list value) : result string :=
  let variable := nth_value 1 groups in
  let type := nth_value 2 groups in
  let start := nth_value 3 groups in
  let end_ := nth_value 4 groups in
  let step := nth_value 5 groups in
  let body := nth_value 6 groups in
  let csType := mapDataType type in
  let csStep := if truthy step then " += " ++ toStr step else "++" in
  bind (this_convertMethodBody this body) (fun csBody =>
  Ok ("for (" ++ csType ++ " " ++ toStr variable ++ " = " ++ toStr start ++ "; "
        ++ toStr variable ++ " <= " ++ toStr end_ ++ "; " ++ toStr variable ++ csStep ++ ")"
        ++ nl ++ "{" ++ nl ++ csBody ++ nl ++ "}")).

Definition try_callback (this : This) (_ : string) (groups : list value) : result string :=
  let tryBody := nth_value 1 groups in
  let exceptionVar := nth_value 2 groups in
  let exceptionType := nth_value 3 groups in
  let catchBody := nth_value 4 groups in
  bind (this_convertMethodBody this tryBody) (fun csTryBody =>
  bind (this_convertMethodBody this catchBody) (fun csCatchBody =>
  Ok ("try" ++ nl ++ "{" ++ nl ++ csTryBody ++ nl ++ "}" ++ nl
        ++ "catch (" ++ toStr exceptionType ++ " " ++ toStr exceptionVar ++ ")" ++ nl
        ++ "{" ++ nl ++ csCatchBody ++ nl ++ "}"))).

Definition property_callback (this : This) (_ : string) (groups : list value) : result string :=
  let accessibility := nth_value 1 groups in
  let propName := nth_value 2 groups in
  let propType := nth_value 3 groups in
  let getterBody := nth_value 4 groups in
  let setterBody := nth_value 6 groups in
  let csAccessibility := mapAccessibility accessibility in
  let csType := mapDataType propType in
  bind (this_convertMethodBody this getterBody) (fun csGetterBody =>
  bind (this_convertMethodBody this setterBody) (fun csSetterBody =>
  Ok (csAccessibility ++ " " ++ csType ++ " " ++ toStr propName ++ nl ++ "{" ++ nl
        ++ "    get" ++ nl ++ "    {" ++ nl ++ csGetterBody ++ nl ++ "    }" ++ nl
        ++ "    set" ++ nl ++ "    {" ++ nl ++ csSetterBody ++ nl ++ "    }" ++ nl ++ "}"))).

Definition rule (id : string) (category : string) (priority : Z) (pattern : RegExp.t)
           (replacement : Replacement) : MigrationRule :=
  {| id := id; category := category; priority := priority; pattern := pattern;
     replacement := replacement; conditions := None |}.

(** [this.rules = [...]], in declaration order. *)
Definition initializeRules : list MigrationRule :=
  [ rule "vb-dim-declaration" "Syntax" 10 re_dim (Literal "$2 $1");
    rule "vb-new-object" "Syntax" 10 re_new_object (Literal "var $1 = new $2($3)");
    rule "vb-if-then" "Syntax" 9 re_if_then (Literal "if ($1)");
    rule "vb-elseif" "Syntax" 9 re_elseif (Literal "else if ($1)");
    rule "vb-end-if" "Syntax" 8 re_end_if (Literal "}");
    rule "vb-string-type" "DataTypes" 9 (re_keyword "String") (Literal "string");
    rule "vb-integer-type" "DataTypes" 9 (re_keyword "Integer") (Literal "int");
    rule "vb-boolean-type" "DataTypes" 9 (re_keyword "Boolean") (Literal "bool");
    rule "vb-string-concat" "Syntax" 8 re_concat (Literal " + ");
    rule "vb-logical-and" "Syntax" 8 (re_keyword "And") (Literal "&&");
    rule "vb-logical-or" "Syntax" 8 (re_keyword "Or") (Literal "||");
    rule "vb-logical-not" "Syntax" 8 re_not (Literal "!");
    rule "vb-msgbox" "Functions" 7 re_msgbox (Literal "MessageBox.Show(");
    rule "vb-comments" "Syntax" 5 re_comment (Literal "$1//");
    rule "vb-method-with-body" "Functions" 10 re_method (Function method_callback);
    rule "vb-event-handler-complete" "Patterns" 10 re_event (Function event_callback);
    rule "vb-for-loop-complete" "Patterns" 9 re_for (Function for_callback);
    rule "vb-try-catch" "Patterns" 9 re_try (Function try_callback);
    rule "vb-property-complete" "Patterns" 9 re_property (Function property_callback);
    rule "vb-sql-command" "Framework" 8 re_sql
      (Literal ("using var $1 = new SqlCommand(" ++ dq ++ "$2" ++ dq ++ ", $3)")) ].

(** [new MigrationRulesEngine()]. *)
Definition new : Engine := {| rules := initializeRules |}.

(** The call-stack budget used when running the engine on examples. *)
Definition defaultStack : nat := 64.

End MigrationRulesEngine.

(* ===================================================================== *)
(** ** EnhancedMigrationEngine (src/migration/rules-engine.ts, second part) *)
(* ===================================================================== *)

Module EnhancedMigrationEngine.
Import JS RegExp.

Record EnhancedMigrationRule : Type := {
  id : string;
  category : string;
  priority : Z;
  pattern : RegExp.t;
  replacement : RegExp.replaceValue;
  preProcess : option (string -> result string);
  postProcess : option (string -> result string)
}.

Definition byPriority (a b : EnhancedMigrationRule) : Z := (priority b - priority a)%Z.

Definition sortRules (rules : list EnhancedMigrationRule) : list EnhancedMigrationRule :=
  JSArray.sort byPriority rules.

Definition s0 : regex := star space.
Definition s1 : regex := plus space.
Definition w1 : regex := plus word.

Definition template (pat : RegExp.t) (tpl : string) (content : string) : result string :=
  RegExp.replace content pat (Template tpl).

(** [/\n\s*\n\s*\n/g] and [/^\s+$/gm] *)
Definition re_blank_lines : RegExp.t :=
  Make (seq [newline; s0; newline; s0; newline]) true false.
Definition re_blank_line : RegExp.t := Make (seq [LineStart; s1; LineEnd]) true true.

Definition preprocessContent (content : string) : result string :=
  bind (template re_blank_lines (nl ++ nl) content) (fun result1 =>
  template re_blank_line "" result1).

(** [/^\s*(string|int|bool|var)\s+\w+\s*=/], [/^\s*\w+\s*=/] and
    [/^\s*(return|MessageBox\.Show)/] *)
Definition re_typed_assignment : RegExp.t :=
  Make (seq [LineStart; s0; Group (alts [lit "string"; lit "int"; lit "bool"; lit "var"]);
             s1; w1; s0; Char "="]) false false.
Definition re_assignment : RegExp.t :=
  Make (seq [LineStart; s0; w1; s0; Char "="]) false false.
Definition re_statement : RegExp.t :=
  Make (seq [LineStart; s0; Group (alts [lit "return"; lit "MessageBox.Show"])]) false false.

Definition addSemicolon (line : string) : string :=
  if RegExp.test re_typed_assignment line && negb (endsWith line ";") then line ++ ";"
  else if RegExp.test re_assignment line && negb (endsWith line ";")
          && negb (includes line "{") && negb (includes line "}") then line ++ ";"
  else if RegExp.test re_statement line && negb (endsWith line ";") then line ++ ";"
  else line.

Definition postProcessContent (content : string) : result string :=
  bind (template (Make (lit "End if") true false) "" content) (fun r1 =>
  bind (template (Make (lit "End If") true false) "" r1) (fun r2 =>
  bind (template (Make (lit "End Sub") true false) "" r2) (fun r3 =>
  bind (template (Make (lit "End Function") true false) "" r3) (fun r4 =>
  let lines := split LF r4 in
  let cleanLines :=
    map addSemicolon
      (filter (fun line => negb (Nat.eqb (String.length line) 0)) (map trim lines)) in
  Ok (join nl cleanLines))))).

(** *** Helpers *)

Definition orElse (v : value) (fallback : value) : value :=
  if truthy v then v else fallback.

Definition mapAccessibility (vbAccess : value) : string :=
  MigrationRulesEngine.lookupOr
    [("Private", "private"); ("Public", "public");
     ("Protected", "protected"); ("Friend", "internal")]
    vbAccess "private".

Definition mapDataType (vbType : value) : string :=
  MigrationRulesEngine.lookupOr
    [("String", "string"); ("Integer", "int"); ("Boolean", "bool");
     ("Double", "double"); ("Single", "float"); ("Long", "long");
     ("Date", "DateTime"); ("Object", "object")]
    vbType (toStr vbType).

Definition convertParameter (param : string) : string :=
  let trimmed := trim param in
  match RegExp.search MigrationRulesEngine.paramPattern None trimmed 0 with
  | Some m =>
      let name := capture_value (nth 0 (captures m) None) in
      let type := capture_value (nth 1 (captures m) None) in
      mapDataType type ++ " " ++ toStr name
  | None => trimmed
  end.

Definition convertParameters (vbParams : value) : result string :=
  if negb (truthy vbParams) then Ok ""
  else
    match vbParams with
    | VString s =>
        if String.eqb (trim s) "" then Ok ""
        else Ok (join ", " (map convertParameter (split "," s)))
    | _ => Throw (TypeError "vbParams.trim is not a function")
    end.

(** [defaults[csType] || null]; the argument is the text of [csType]. *)
Definition getDefaultValue (csType : string) : option string :=
  match MigrationRulesEngine.own
          [("string", dq ++ dq); ("int", "0"); ("bool", "false");
           ("double", "0.0"); ("float", "0.0f")] csType with
  | Some v => Some v
  | None => MigrationRulesEngine.inheritedMember csType
  end.

Definition mapMessageBoxIcon (vbIcon : value) : string :=
  MigrationRulesEngine.lookupOr
    [("vbInformation", "Information"); ("vbExclamation", "Warning");
     ("vbCritical", "Error"); ("vbQuestion", "Question")]
    vbIcon "Information".

(** *** The rule table of [initializeEnhancedRules] *)

(** [/(Private|Public|Protected|Friend)?\s*(Sub|Function)\s+(\w+)\s*\(([^)]* )\)(\s+As\s+(\w+))?\s*/g]
    (without the blank after the third star). *)
Definition re_method : RegExp.t :=
  Make (seq [opt (Group (alts [lit "Private"; lit "Public"; lit "Protected"; lit "Friend"]));
             s0; Group (alts [lit "Sub"; lit "Function"]); s1; Group w1; s0;
             Char "("; Group (star (none_of [")"%char])); Char ")";
             opt (Group (seq [s1; lit "As"; s1; Group w1])); s0]) true false.

Definition method_callback (_ : string) (args : list value) : result string :=
  let accessibility := nth_value 0 args in
  let methodType := nth_value 1 args in
  let methodName := nth_value 2 args in
  let parameters := nth_value 3 args in
  let returnType := nth_value 5 args in
  let csAccessibility := mapAccessibility (orElse accessibility (VString "Private")) in
  let csReturnType :=
    match methodType with
    | VString "Function" => mapDataType (orElse returnType (VString "object"))
    | _ => "void"
    end in
  bind (convertParameters parameters) (fun csParameters =>
  match methodName with
  | VString name =>
      if includes name "_"
         && (includes name "Click" || includes name "Load" || includes name "Change")
      then Ok (csAccessibility ++ " " ++ csReturnType ++ " " ++ name
                 ++ "(object sender, EventArgs e)")
      else Ok (csAccessibility ++ " " ++ csReturnType ++ " " ++ name
                 ++ "(" ++ csParameters ++ ")")
  | VUndefined =>
      Throw (TypeError "Cannot read properties of undefined (reading 'includes')")
  | _ => Throw (TypeError "methodName.includes is not a function")
  end).

(** [/Dim\s+(\w+)\s+As\s+(\w+)(\s*=\s*(.+?))?(?=\s*$|\s*\n)/gm] *)
Definition re_dim : RegExp.t :=
  Make (seq [lit "Dim"; s1; Group w1; s1; lit "As"; s1; Group w1;
             opt (Group (seq [s0; Char "="; s0; Group (lazy_plus Dot)]));
             Lookahead (Alt (Seq s0 LineEnd) (Seq s0 newline))]) true true.

Definition dim_callback (_ : string) (args : list value) : result string :=
  let varName := nth_value 0 args in
  let varType := nth_value 1 args in
  let initValue := nth_value 3 args in
  let csType := mapDataType varType in
  if truthy initValue then Ok (csType ++ " " ++ toStr varName ++ " = " ++ toStr initValue)
  else
    match getDefaultValue csType with
    | Some defaultValue => Ok (csType ++ " " ++ toStr varName ++ " = " ++ defaultValue)
    | None => Ok (csType ++ " " ++ toStr varName)
    end.

(** The look-ahead [(?=\n\s*(?:ElseIf|Else|End If))]. *)
Definition before_branch : regex :=
  Lookahead (seq [newline; s0; alts [lit "ElseIf"; lit "Else"; lit "End If"]]).

(** [/If\s+(.+?)\s+Then\s*\n([\s\S]*?)(?=\n\s*(?:ElseIf|Else|End If))/g] *)
Definition re_if : RegExp.t :=
  Make (seq [lit "If"; s1; Group (lazy_plus Dot); s1; lit "Then"; s0; newline;
             Group (lazy_star anything); before_branch]) true false.

(** [/ElseIf\s+(.+?)\s+Then\s*\n([\s\S]*?)(?=\n\s*(?:ElseIf|Else|End If))/g] *)
Definition re_elseif : RegExp.t :=
  Make (seq [lit "ElseIf"; s1; Group (lazy_plus Dot); s1; lit "Then"; s0; newline;
             Group (lazy_star anything); before_branch]) true false.

(** [/Else\s*\n([\s\S]*?)(?=\n\s*End If)/g] *)
Definition re_else : RegExp.t :=
  Make (seq [lit "Else"; s0; newline; Group (lazy_star anything);
             Lookahead (seq [newline; s0; lit "End If"])]) true false.

Definition if_postProcess (content : string) : result string :=
  bind (template re_elseif ("else if ($1)" ++ nl ++ "{" ++ nl ++ "$2" ++ nl ++ "}") content)
    (fun c1 =>
  bind (template re_else ("else" ++ nl ++ "{" ++ nl ++ "$1" ++ nl ++ "}") c1) (fun c2 =>
  template (Make (lit "End If") true false) "" c2)).

(** [/MsgBox\s+Q([^Q]+)Q\s*,\s*(vb\w+)/g] where [Q] stands for the double quote. *)
Definition re_msgbox : RegExp.t :=
  Make (seq [lit "MsgBox"; s1; Char DQ; Group (plus (none_of [DQ])); Char DQ; s0;
             Char ","; s0; Group (seq [lit "vb"; w1])]) true false.

Definition msgbox_callback (_ : string) (args : list value) : result string :=
  let message := nth_value 0 args in
  let vbIcon := nth_value 1 args in
  let icon := mapMessageBoxIcon vbIcon in
  Ok ("MessageBox.Show(" ++ dq ++ toStr message ++ dq ++ ", " ++ dq ++ "Mensaje" ++ dq
        ++ ", MessageBoxButtons.OK, MessageBoxIcon." ++ icon ++ ")").

(** [/(\w+|Q[^Q]*Q)\s+&\s+(\w+|Q[^Q]*Q)/g] where [Q] stands for the double quote. *)
Definition operand : regex :=
  Group (Alt w1 (seq [Char DQ; star (none_of [DQ]); Char DQ])).
Definition re_concat : RegExp.t :=
  Make (seq [operand; s1; Char "&"; s1; operand]) true false.

(** [/\b(And|Or|Not)\b/g] *)
Definition re_logical : RegExp.t :=
  Make (seq [WordBoundary; Group (alts [lit "And"; lit "Or"; lit "Not"]); WordBoundary])
       true false.

Definition logical_callback (_ : string) (args : list value) : result string :=
  let operator := nth_value 0 args in
  Ok (MigrationRulesEngine.lookupOr [("And", "&&"); ("Or", "||"); ("Not", "!")]
        operator (toStr operator)).

(** [/\b(String|Integer|Boolean|Double|Single|Long|Date|Object)\b/g] *)
Definition re_types : RegExp.t :=
  Make (seq [WordBoundary;
             Group (alts [lit "String"; lit "Integer"; lit "Boolean"; lit "Double";
                          lit "Single"; lit "Long"; lit "Date"; lit "Object"]);
             WordBoundary]) true false.

Definition types_callback (_ : string) (args : list value) : result string :=
  Ok (mapDataType (nth_value 0 args)).

(** [/Set\s+(\w+)\s+=\s+OpenDatabase\s*\(\s*Q([^Q]+)Q\s*\)/g] where [Q] stands
    for the double quote. *)
Definition re_database : RegExp.t :=
  Make (seq [lit "Set"; s1; Group w1; s1; Char "="; s1; lit "OpenDatabase"; s0; Char "(";
             s0; Char DQ; Group (plus (none_of [DQ])); Char DQ; s0; Char ")"]) true false.

(** [/Exit\s+(Sub|Function)/g] *)
Definition re_exit : RegExp.t :=
  Make (seq [lit "Exit"; s1; Group (alts [lit "Sub"; lit "Function"])]) true false.

(** [/(Form\d+)\.Show/g] *)
Definition re_form : RegExp.t :=
  Make (seq [Group (seq [lit "Form"; plus digit]); lit ".Show"]) true false.

Definition form_callback (_ : string) (args : list value) : result string :=
  match nth_value 0 args with
  | VString formName =>
      Ok ("var " ++ toLowerCase formName ++ " = new " ++ formName ++ "(); "
            ++ toLowerCase formName ++ ".Show()")
  | _ => Throw (TypeError "formName.toLowerCase is not a function")
  end.

(** [/\bMe\./g] *)
Definition re_me : RegExp.t := Make (seq [WordBoundary; lit "Me."]) true false.

Definition rule (id category : string) (priority : Z) (pattern : RegExp.t)
           (replacement : RegExp.replaceValue) : EnhancedMigrationRule :=
  {| id := id; category := category; priority := priority; pattern := pattern;
     replacement := replacement; preProcess := None; postProcess := None |}.

Definition initializeEnhancedRules : list EnhancedMigrationRule :=
  [ rule "enhanced-method-declaration" "BusinessLogic" 100 re_method (Callback method_callback);
    rule "enhanced-dim-declaration" "Syntax" 95 re_dim (Callback dim_callback);
    {| id := "enhanced-if-then-else"; category := "Syntax"; priority := 90;
       pattern := re_if;
       replacement := Template ("if ($1)" ++ nl ++ "{" ++ nl ++ "$2" ++ nl ++ "}");
       preProcess := None; postProcess := Some if_postProcess |};
    rule "enhanced-msgbox" "Functions" 85 re_msgbox (Callback msgbox_callback);
    rule "enhanced-string-concat" "Syntax" 80 re_concat (Template "$1 + $2");
    rule "enhanced-logical-operators" "Syntax" 80 re_logical (Callback logical_callback);
    rule "enhanced-data-types" "DataTypes" 75 re_types (Callback types_callback);
    rule "enhanced-database-ops" "Framework" 70 re_database
      (Template ("using var $1 = new OleDbConnection(" ++ dq
                   ++ "Provider=Microsoft.ACE.OLEDB.12.0;Data Source=$2" ++ dq ++ ")"));
    rule "enhanced-exit-statements" "Syntax" 65 re_exit (Template "return");
    rule "enhanced-form-operations" "Controls" 60 re_form (Callback form_callback);
    rule "enhanced-me-reference" "Syntax" 55 re_me (Template "this.");
    rule "enhanced-comments" "Syntax" 20 MigrationRulesEngine.re_comment (Template "$1//") ].

Definition runHook (hook : option (string -> result string)) (content : string) : result string :=
  match hook with
  | Some f => f content
  | None => Ok content
  end.

(** Phase 2 of [migrateVBtoCSharp]: the loop over the sorted rules. *)
Fixpoint migrate_loop (sortedRules : list EnhancedMigrationRule) (result0 : string)
         (appliedRulesCount : nat) : result (string * nat) :=
  match sortedRules with
  | [] => Ok (result0, appliedRulesCount)
  | rule :: more =>
      let beforeApply := result0 in
      bind (runHook (preProcess rule) result0) (fun r1 =>
      bind (RegExp.replace r1 (pattern rule) (replacement rule)) (fun r2 =>
      bind (runHook (postProcess rule) r2) (fun r3 =>
      migrate_loop more r3
        (if String.eqb beforeApply r3 then appliedRulesCount else S appliedRulesCount))))
  end.

Definition migrateVBtoCSharpWith (rules : list EnhancedMigrationRule) (vbContent : string)
  : result string :=
  bind (preprocessContent vbContent) (fun result1 =>
  let sortedRules := sortRules rules in
  bind (migrate_loop sortedRules result1 0) (fun st =>
  postProcessContent (fst st))).

(** [enhancedMigrationEngine.migrateVBtoCSharp(vbContent, filePath)] on a
    freshly constructed engine; [filePath] is not used. *)
Definition migrateVBtoCSharp (vbContent : string) (filePath : string) : result string :=
  migrateVBtoCSharpWith initializeEnhancedRules vbContent.

(** [getRules] returns a copy of the rule array. *)
Definition getRules (rules : list EnhancedMigrationRule) : list EnhancedMigrationRule := rules.

Record RuleTest : Type := {
  test_before : string;
  test_after : string;
  test_applied : bool
}.

(** [testRule(ruleId, testContent)] on an engine holding [rules]; the
    hooks of the rule are not run. *)
Definition testRule (rules : list EnhancedMigrationRule) (ruleId testContent : string)
  : result RuleTest :=
  match find (fun r => String.eqb (id r) ruleId) rules with
  | None =>
      Ok {| test_before := testContent; test_after := testContent; test_applied := false |}
  | Some rule =>
      bind (RegExp.replace testContent (pattern rule) (replacement rule)) (fun result0 =>
      Ok {| test_before := testContent; test_after := result0;
            test_applied := negb (String.eqb result0 testContent) |})
  end.

End EnhancedMigrationEngine.

(* ===================================================================== *)
(** ** Project graphs                                                     *)
(* ===================================================================== *)

Module Graph.

(** Projects in emission order, each with the names it references. *)
Definition t : Type := list (string * list string).

(** Position of the first project with a given name. *)
Fixpoint positionOf (projectName : string) (g : t) : option nat :=
  match g with
  | [] => None
  | p :: more =>
      if String.eqb (fst p) projectName then Some 0
      else option_map S (positionOf projectName more)
  end.

(** Every declared reference names a project placed strictly earlier. *)
Definition refsPointEarlier (g : t) : Prop :=
  forall (i : nat) (p : string * list string) (d : string),
    nth_error g i = Some p -> In d (snd p) ->
    exists j, positionOf d g = Some j /\ j < i.

(** The same for the references that name an emitted project at all. *)
Definition resolvedRefsPointEarlier (g : t) : Prop :=
  forall (i j : nat) (p : string * list string) (d : string),
    nth_error g i = Some p -> In d (snd p) -> positionOf d g = Some j -> j < i.

(** The references that resolve all name projects placed later. *)
Definition resolvedRefsPointLater (g : t) : Prop :=
  forall (i j : nat) (p : string * list string) (d : string),
    nth_error g i = Some p -> In d (snd p) -> positionOf d g = Some j -> i < j.

(** No reference names an emitted project. *)
Definition noRefResolves (g : t) : Prop :=
  forall (p : string * list string) (d : string),
    In p g -> In d (snd p) -> positionOf d g = None.

Definition hasProject (projectName : string) (g : t) : bool :=
  match positionOf projectName g with Some _ => true | None => false end.

Fixpoint indexOf (projectName : string) (order : list string) : option nat :=
  match order with
  | [] => None
  | x :: more =>
      if String.eqb x projectName then Some 0
      else option_map S (indexOf projectName more)
  end.

(** [order] is a build order of the graph: every reference that names an
    emitted project names one that comes strictly before the referencing
    project in [order].  A graph with a build order has no cycle. *)
Definition orderedBy (order : list string) (g : t) : Prop :=
  forall (p : string * list string) (d : string),
    In p g -> In d (snd p) -> hasProject d g = true ->
    exists i j, indexOf (fst p) order = Some i /\ indexOf d order = Some j /\ j < i.

End Graph.

(* ===================================================================== *)
(** ** CSharpGenerator (src/generators/csharp-generator.ts)               *)
(* ===================================================================== *)

Module VBParameter.
Record t : Type := {
  name : string;
  type : string;
  isOptional : bool;
  defaultValue : option string;
  byRef : bool
}.
End VBParameter.

Module VBEvent.
Record t : Type := {
  name : string;
  handler : string;
  parameters : list VBParameter.t;
  body : option string
}.
End VBEvent.

Module VBMethod.
Record t : Type := {
  name : string;
  returnType : string;
  parameters : list VBParameter.t;
  isPublic : bool;
  isStatic : bool;
  body : string;
  isOverridable : bool;
  isOverrides : bool
}.
End VBMethod.

Module CSharpParameter.
Record t : Type := {
  name : string;
  type : string;
  isOptional : bool;
  defaultValue : option string;
  isOut : option bool;
  isRef : option bool
}.
End CSharpParameter.

Module CSharpMethod.
Record t : Type := {
  name : string;
  returnType : string;
  parameters : list CSharpParameter.t;
  accessModifier : string;
  isStatic : bool;
  isAsync : bool;
  isVirtual : bool;
  isOverride : bool;
  body : string
}.
End CSharpMethod.

Module CSharpGenerator.
Import JS RegExp.

Definition s0 : regex := star space.
Definition s1 : regex := plus space.
Definition w1 : regex := plus word.
Definition d1 : regex := plus digit.
Definition no_comma : regex := Group (plus (none_of [","%char])).   (* ([^,]+) *)

Definition g (r : regex) : RegExp.t := Make r true false.
Definition call (fname : string) : RegExp.t := g (seq [lit fname; s0; Char "("]).

(** The [conversions] table of [applyBasicConversions], in order. *)
Definition conversions : list (RegExp.t * string) :=
  [ (Make (seq [lit "Dim"; s1; Group w1; s0; LineEnd]) true true, "var $1");
    (g (lit "vbCrLf"), "Environment.NewLine");
    (g (lit "vbTab"), dq ++ "\t" ++ dq);
    (g (lit "vbNullString"), "string.Empty");
    (g (seq [s0; Char "="; s0; lit "Nothing"]), " == null");
    (g (seq [s0; lit "<>"; s0]), " != ");
    (call "Len", ".Length(");
    (call "UCase", ".ToUpper(");
    (call "LCase", ".ToLower(");
    (call "Trim", ".Trim(");
    (g (seq [lit "Left"; s0; Char "("; no_comma; Char ","; s0; Group d1; Char ")"]),
     "$1.Substring(0, $2)");
    (g (seq [lit "Right"; s0; Char "("; no_comma; Char ","; s0; Group d1; Char ")"]),
     "$1.Substring($1.Length - $2)");
    (g (seq [lit "Mid"; s0; Char "("; no_comma; Char ","; s0; Group d1; Char ")"]),
     "$1.Substring($2 - 1)");
    (g (seq [lit "Mid"; s0; Char "("; no_comma; Char ","; s0; Group d1; Char ","; s0;
             Group d1; Char ")"]),
     "$1.Substring($2 - 1, $3)");
    (g (seq [lit "Select"; s1; lit "Case"; s1; Group (plus Dot)]), "switch ($1)");
    (g (seq [lit "Case"; s1; Group (plus Dot)]), "case $1:");
    (g (seq [lit "Case"; s1; lit "Else"]), "default:");
    (g (lit "End Select"), "}");
    (g (seq [lit "Exit"; s1; lit "Sub"]), "return;");
    (g (seq [lit "Exit"; s1; lit "Function"]), "return;");
    (g (seq [lit "Exit"; s1; lit "For"]), "break;");
    (g (lit ".Text"), ".Text");
    (g (lit ".Caption"), ".Text");
    (g (lit ".Value"), ".Value");
    (g (seq [lit "On"; s1; lit "Error"; s1; lit "Resume"; s1; lit "Next"]),
     "// TODO: Handle errors appropriately");
    (g (seq [lit "On"; s1; lit "Error"; s1; lit "GoTo"; s1; Char "0"]),
     "// TODO: Reset error handling") ].

Fixpoint applyConversions (convs : list (RegExp.t * string)) (csharpCode : string)
  : result string :=
  match convs with
  | [] => Ok csharpCode
  | (pat, tpl) :: more =>
      bind (RegExp.replace csharpCode pat (Template tpl)) (applyConversions more)
  end.

Definition applyBasicConversions (vbCode : string) : result string :=
  applyConversions conversions vbCode.

(** [try { ... } catch (error) { handler }]. *)
Definition tryCatch {A : Type} (block : result A) (handler : error -> result A) : result A :=
  match block with
  | Ok a => Ok a
  | Throw e => handler e
  end.

Definition methodLogicPlaceholder : string := "// TODO: Implement method logic".
Definition methodBodyPlaceholder : string := "// TODO: Implement method body".
Definition eventLogicPlaceholder : string := "// TODO: Implement event handler logic".

Definition fallbackContext (vbCode filePath : string) : MigrationRulesEngine.MigrationContext :=
  {| MigrationRulesEngine.filePath := filePath;
     MigrationRulesEngine.fileContent := vbCode;
     MigrationRulesEngine.projectType := "WinForms";
     MigrationRulesEngine.targetFramework := "net8.0" |}.

(** [convertVBCodeToCSharp], given [migrateVBCodeWithEnhancedEngine]. *)
Definition convertVBCodeToCSharpWith (migrate : string -> string -> result string)
           (vbCode : string) : result string :=
  if String.eqb vbCode "" then Ok methodBodyPlaceholder
  else
    bind (migrate vbCode "general.vb") (fun csharpCode0 =>
    bind (if Nat.ltb (String.length csharpCode0) 10
          then applyBasicConversions vbCode else Ok csharpCode0) (fun csharpCode =>
    Ok ("// Migrated from VB.NET" ++ nl ++ csharpCode))).

(** [migrateVBCodeWithEnhancedEngine] and [convertVBCodeToCSharp] call each
    other; [stack] bounds the depth of that mutual recursion, and running
    out of it is the RangeError of a JavaScript engine, which the [catch]
    clause receives like any other exception.  The two engines are the
    generator's own, created by its constructor. *)
Fixpoint migrateVBCodeWithEnhancedEngineN (stack : nat) (vbCode filePath : string)
         {struct stack} : result string :=
  match stack with
  | O => Throw stackExhausted
  | S stack' =>
      if String.eqb vbCode "" || String.eqb (trim vbCode) "" then Ok methodLogicPlaceholder
      else
        let convertVBCodeToCSharp :=
          convertVBCodeToCSharpWith (migrateVBCodeWithEnhancedEngineN stack') in
        tryCatch
          (bind (EnhancedMigrationEngine.migrateVBtoCSharp vbCode filePath)
             (fun enhancedResult =>
           if negb (String.eqb enhancedResult "")
              && Nat.ltb 10 (String.length enhancedResult)
              && negb (String.eqb enhancedResult vbCode)
           then Ok enhancedResult
           else
             bind (MigrationRulesEngine.applyRulesN stack'
                     MigrationRulesEngine.initializeRules vbCode
                     (fallbackContext vbCode filePath))
               (fun originalResult =>
             if String.eqb originalResult vbCode then convertVBCodeToCSharp vbCode
             else Ok originalResult)))
          (fun _ => convertVBCodeToCSharp vbCode)
  end.

Definition convertVBCodeToCSharpN (stack : nat) (vbCode : string) : result string :=
  convertVBCodeToCSharpWith (migrateVBCodeWithEnhancedEngineN stack) vbCode.

Definition hasBody (body : option string) : bool :=
  match body with
  | Some b => negb (String.eqb b "") && negb (String.eqb (trim b) "")
  | None => false
  end.

Definition bodyText (body : option string) : string :=
  match body with Some b => b | None => "" end.

Definition senderParameters : list CSharpParameter.t :=
  [ {| CSharpParameter.name := "sender"; CSharpParameter.type := "object";
       CSharpParameter.isOptional := false; CSharpParameter.defaultValue := None;
       CSharpParameter.isOut := None; CSharpParameter.isRef := None |};
    {| CSharpParameter.name := "e"; CSharpParameter.type := "EventArgs";
       CSharpParameter.isOptional := false; CSharpParameter.defaultValue := None;
       CSharpParameter.isOut := None; CSharpParameter.isRef := None |} ].

Definition convertVBEventToCSharpMethod (stack : nat) (vbEvent : VBEvent.t)
  : result CSharpMethod.t :=
  bind (if hasBody (VBEvent.body vbEvent)
        then migrateVBCodeWithEnhancedEngineN stack (bodyText (VBEvent.body vbEvent))
               (VBEvent.handler vbEvent ++ ".vb")
        else Ok eventLogicPlaceholder) (fun methodBody =>
  Ok {| CSharpMethod.name := VBEvent.handler vbEvent;
        CSharpMethod.returnType := "void";
        CSharpMethod.parameters := senderParameters;
        CSharpMethod.accessModifier := "private";
        CSharpMethod.isStatic := false;
        CSharpMethod.isAsync := false;
        CSharpMethod.isVirtual := false;
        CSharpMethod.isOverride := false;
        CSharpMethod.body := methodBody |}).

(** [typeMap[vbType] || vbType] after the [!vbType] guard. *)
Definition mapVBTypeToCSharp (vbType : string) : string :=
  if String.eqb vbType "" then "object"
  else
    MigrationRulesEngine.lookupOr
      [("String", "string"); ("Integer", "int"); ("Long", "long"); ("Single", "float");
       ("Double", "double"); ("Boolean", "bool"); ("Date", "DateTime"); ("Object", "object");
       ("Variant", "object"); ("Currency", "decimal"); ("Byte", "byte"); ("Short", "short");
       ("Nothing", "null"); ("System.Windows.Forms.Form", "Form");
       ("System.Data.DataSet", "DataSet"); ("System.Data.DataTable", "DataTable")]
      (VString vbType) vbType.

Definition convertVBParameterToCSharp (vbParam : VBParameter.t) : CSharpParameter.t :=
  {| CSharpParameter.name := VBParameter.name vbParam;
     CSharpParameter.type := mapVBTypeToCSharp (VBParameter.type vbParam);
     CSharpParameter.isOptional := VBParameter.isOptional vbParam;
     CSharpParameter.defaultValue := VBParameter.defaultValue vbParam;
     CSharpParameter.isOut := Some false;
     CSharpParameter.isRef := Some (VBParameter.byRef vbParam) |}.

(** The project files [generateProject] pushes after the solution file,
    in the order of the pushes: [generateMainProjectFile] (the WinForms
    project), [generateCoreProjectFile], [generateDataProjectFile] and
    [generateTestProjectFile], each with the projects its
    [ProjectReference] items include.  [projectName] is the name as the
    templates render it. *)
Definition projectFiles (projectName : string) : Graph.t :=
  [ (projectName ++ ".WinForms", [projectName ++ ".Core"; projectName ++ ".Data"]);
    (projectName ++ ".Core", []);
    (projectName ++ ".Data", [projectName ++ ".Core"]);
    (projectName ++ ".Tests",
     [projectName ++ ".Core"; projectName ++ ".Data"; projectName ++ ".WinForms"]) ].

(** The [Project] entries of the template of [generateSolutionFile], top
    to bottom. *)
Definition solutionFileProjects (projectName : string) : list string :=
  [ projectName ++ ".Core"; projectName ++ ".Data"; projectName ++ ".WinForms";
    projectName ++ ".Tests" ].

Definition detectAsyncPattern (vbCode : string) : bool :=
  includes vbCode "Await" || includes vbCode "Task" || includes vbCode "Async".

Definition convertVBMethodToCSharp (stack : nat) (vbMethod : VBMethod.t)
  : result CSharpMethod.t :=
  bind (if hasBody (Some (VBMethod.body vbMethod))
        then migrateVBCodeWithEnhancedEngineN stack (VBMethod.body vbMethod)
               (VBMethod.name vbMethod ++ ".vb")
        else Ok methodBodyPlaceholder) (fun methodBody =>
  Ok {| CSharpMethod.name := VBMethod.name vbMethod;
        CSharpMethod.returnType := mapVBTypeToCSharp (VBMethod.returnType vbMethod);
        CSharpMethod.parameters :=
          map convertVBParameterToCSharp (VBMethod.parameters vbMethod);
        CSharpMethod.accessModifier := if VBMethod.isPublic vbMethod then "public" else "private";
        CSharpMethod.isStatic := VBMethod.isStatic vbMethod;
        CSharpMethod.isAsync := detectAsyncPattern (VBMethod.body vbMethod);
        CSharpMethod.isVirtual := VBMethod.isOverridable vbMethod;
        CSharpMethod.isOverride := VBMethod.isOverrides vbMethod;
        CSharpMethod.body := methodBody |}).

End CSharpGenerator.

(* ===================================================================== *)
(** ** VBModuleAnalysis (src/analyzers/vb-module-analyzer.ts, types)      *)
(* ===================================================================== *)

Module Analysis.

Inductive ModuleType : Type := Form | Module_ | Class_.

Definition moduleType_eqb (a b : ModuleType) : bool :=
  match a, b with
  | Form, Form | Module_, Module_ | Class_, Class_ => true
  | _, _ => false
  end.

Record VBVariable : Type := {
  var_name : string;
  var_type : string;
  var_scope : string;
  var_visibility : string
}.

Record VBMethod : Type := {
  method_name : string;
  method_returnType : string;
  method_visibility : string;
  method_body : string
}.

Record VBEvent : Type := {
  event_name : string;
  event_eventType : string;
  event_body : string
}.

Record DatabaseOperation : Type := {
  op_type : string;
  op_query : string
}.

(** [calculations], [validations] and [fileOperations] are only ever
    counted by the code modelled here; each is kept as the list of the
    source lines it was found on. *)
Record BusinessLogic : Type := {
  databaseOperations : list DatabaseOperation;
  fileOperations : list string;
  calculations : list string;
  validations : list string
}.

Record VBModuleAnalysis : Type := {
  fileName : string;
  filePath : string;
  moduleType : ModuleType;
  variables : list VBVariable;
  methods : list VBMethod;
  events : list VBEvent;
  businessLogic : BusinessLogic
}.

End Analysis.

(* ===================================================================== *)
(** ** ModuleMigrator (src/analyzers/module-migrator.ts)                  *)
(* ===================================================================== *)

Module ModuleMigrator.
Import JS Analysis.

Inductive FileType : Type :=
| Model | Service | Controller | View | ViewModel | Repository | Test.

Definition fileType_eqb (a b : FileType) : bool :=
  match a, b with
  | Model, Model | Service, Service | Controller, Controller | View, View
  | ViewModel, ViewModel | Repository, Repository | Test, Test => true
  | _, _ => false
  end.

(** A generated file; its [content] (template text around the migrated
    bodies) does not take part in routing and is left out. *)
Record GeneratedFile : Type := {
  path : string;
  type : FileType;
  purpose : string;
  sourceModule : string
}.

Inductive Architecture : Type := Clean | Layered | MVC | MVVM.

Section Routing.
  (** [path.basename(analysis.fileName, path.extname(analysis.fileName))],
      from Node's platform-dependent [path] module. *)
Variable baseNameOf : string -> string.

Definition isBusinessLogicMethod (method : VBMethod) : bool :=
    includes (method_body method) "Calculate" ||
    includes (method_body method) "Validate" ||
    includes (method_body method) "Process" ||
    includes (method_body method) "If" ||
    includes (method_body method) "Select".

Definition nonEmpty {A : Type} (l : list A) : bool := Nat.ltb 0 (List.length l).

Definition hasBusinessLogic (analysis : VBModuleAnalysis) : bool :=
    nonEmpty (calculations (businessLogic analysis)) ||
    nonEmpty (validations (businessLogic analysis)) ||
    nonEmpty (databaseOperations (businessLogic analysis)) ||
    existsb isBusinessLogicMethod (methods analysis).

Definition hasDatabaseOperations (analysis : VBModuleAnalysis) : bool :=
    nonEmpty (databaseOperations (businessLogic analysis)).

Definition isForm (analysis : VBModuleAnalysis) : bool :=
    moduleType_eqb (moduleType analysis) Form.

Definition file (analysis : VBModuleAnalysis) (path : string) (type : FileType)
             (purpose : string) : GeneratedFile :=
    {| path := path; type := type; purpose := purpose; sourceModule := fileName analysis |}.

Definition when (b : bool) (files : list GeneratedFile) : list GeneratedFile :=
    if b then files else [].

  (** Each [generate...Files] pushes its files onto [result.generatedFiles]
      in this order. *)
Definition generateCleanArchitectureFiles (analysis : VBModuleAnalysis) : list GeneratedFile :=
    let baseName := baseNameOf (fileName analysis) in
    concat
      [ when (hasBusinessLogic analysis)
          [file analysis ("Domain/Entities/" ++ baseName ++ "Entity.cs") Model
             "Domain entity with business rules"];
        [file analysis ("Application/Services/" ++ baseName ++ "Service.cs") Service
           "Application service with use cases"];
        when (hasDatabaseOperations analysis)
          [file analysis ("Application/Interfaces/I" ++ baseName ++ "Repository.cs") Repository
             "Repository interface for data access";
           file analysis ("Infrastructure/Repositories/" ++ baseName ++ "Repository.cs") Repository
             "Repository implementation with EF Core"];
        when (isForm analysis)
          [file analysis ("Presentation/Controllers/" ++ baseName ++ "Controller.cs") Controller
             "MVC controller for UI logic";
           file analysis ("Presentation/ViewModels/" ++ baseName ++ "ViewModel.cs") ViewModel
             "View model for data binding"] ].

Definition generateLayeredArchitectureFiles (analysis : VBModuleAnalysis) : list GeneratedFile :=
    let baseName := baseNameOf (fileName analysis) in
    concat
      [ [file analysis ("Business/" ++ baseName ++ "BusinessLogic.cs") Service
           "Business logic implementation"];
        when (hasDatabaseOperations analysis)
          [file analysis ("Data/" ++ baseName ++ "DataAccess.cs") Repository
             "Data access implementation"];
        when (isForm analysis)
          [file analysis ("Presentation/" ++ baseName ++ "Presenter.cs") Controller
             "Presentation logic"] ].

Definition generateMVCFiles (analysis : VBModuleAnalysis) : list GeneratedFile :=
    let baseName := baseNameOf (fileName analysis) in
    concat
      [ [file analysis ("Models/" ++ baseName ++ "Model.cs") Model "Data model";
         file analysis ("Controllers/" ++ baseName ++ "Controller.cs") Controller
           "MVC controller"];
        when (isForm analysis)
          [file analysis ("Views/" ++ baseName ++ "/Index.cshtml") View "Main view"] ].

Definition generateMVVMFiles (analysis : VBModuleAnalysis) : list GeneratedFile :=
    let baseName := baseNameOf (fileName analysis) in
    concat
      [ [file analysis ("Models/" ++ baseName ++ "Model.cs") Model "Data model";
         file analysis ("ViewModels/" ++ baseName ++ "ViewModel.cs") ViewModel
           "MVVM view model with commands and properties"];
        when (hasBusinessLogic analysis)
          [file analysis ("Services/" ++ baseName ++ "Service.cs") Service
             "Business service for view model"];
        when (isForm analysis)
          [file analysis ("Views/" ++ baseName ++ "View.xaml") View "WPF/UWP view"] ].

Definition generateTests (analysis : VBModuleAnalysis) : list GeneratedFile :=
    let baseName := baseNameOf (fileName analysis) in
    when (hasBusinessLogic analysis)
      [file analysis ("Tests/" ++ baseName ++ "Tests.cs") Test "Unit tests for business logic"].

  (** The [switch (targetArchitecture)] of [migrateModule]. *)
Definition generateFiles (targetArchitecture : Architecture) (analysis : VBModuleAnalysis)
    : list GeneratedFile :=
    match targetArchitecture with
    | Clean => generateCleanArchitectureFiles analysis
    | Layered => generateLayeredArchitectureFiles analysis
    | MVC => generateMVCFiles analysis
    | MVVM => generateMVVMFiles analysis
    end.

Record MigrationResult : Type := {
    success : bool;
    generatedFiles : list GeneratedFile;
    errors : list string
  }.

  (** What the file system answers during one [migrateModule] call: a
      failing step is the message of the exception it throws. *)
Record FileSystem : Type := {
    ensureDir : option string;
    readFile : option string;
    writeGeneratedFiles : option string
  }.

  (** [migrateModule]: everything runs inside one [try]; an exception is
      recorded in [errors] and leaves [success] false, with the files
      pushed so far still in [generatedFiles]. *)
Definition migrateModule (fs : FileSystem) (analysis : VBModuleAnalysis)
             (targetArchitecture : Architecture) (generateTestsOption : bool)
    : MigrationResult :=
    match ensureDir fs with
    | Some e => {| success := false; generatedFiles := []; errors := [e] |}
    | None =>
        match readFile fs with
        | Some e => {| success := false; generatedFiles := []; errors := [e] |}
        | None =>
            let files :=
              (generateFiles targetArchitecture analysis
               ++ when generateTestsOption (generateTests analysis))%list in
            match writeGeneratedFiles fs with
            | Some e => {| success := false; generatedFiles := files; errors := [e] |}
            | None => {| success := true; generatedFiles := files; errors := [] |}
            end
        end
    end.

  (** Routing a set of entities: one [migrateModule] per entity. *)
Definition route (targetArchitecture : Architecture) (entities : list VBModuleAnalysis)
    : list GeneratedFile :=
    flat_map (generateFiles targetArchitecture) entities.

Definition countType (t : FileType) (files : list GeneratedFile) : nat :=
    List.length (filter (fun f => fileType_eqb (type f) t) files).

Definition dataAccessBearing (entities : list VBModuleAnalysis) : nat :=
    List.length (filter hasDatabaseOperations entities).
End Routing.

(** Repository artifacts a data-access-bearing entity contributes. *)
Definition repositoriesPerEntity (style : Architecture) : nat :=
  match style with
  | Clean => 2
  | Layered => 1
  | MVC | MVVM => 0
  end.

(** [typeMap[vbType] || vbType] of the module migrator. *)
Definition mapVBTypeToCSharp (vbType : string) : string :=
  MigrationRulesEngine.lookupOr
    [("String", "string"); ("Integer", "int"); ("Long", "long"); ("Double", "double");
     ("Single", "float"); ("Boolean", "bool"); ("Date", "DateTime");
     ("Variant", "object"); ("Object", "object")]
    (JS.VString vbType) vbType.

End ModuleMigrator.

(* ===================================================================== *)
(** ** ModernArchitectureGenerator (architecture-generator.ts)            *)
(* ===================================================================== *)

Module ModernArchitectureGenerator.
Import JS Analysis.

Record ProjectProposal : Type := {
  name : string;
  type : string;
  targetFramework : string;
  purpose : string;
  dependencies : list string;
  sourceModules : list string
}.

Record SharedLibrary : Type := {
  lib_name : string;
  lib_purpose : string;
  lib_types : list string
}.

Record Options : Type := {
  includeDatabase : bool;
  modernPatterns : bool;
  webBased : bool
}.

Definition defaultOptions : Options :=
  {| includeDatabase := true; modernPatterns := true; webBased := false |}.

Inductive Architecture : Type := Clean | Layered | MVC | MVVM | Microservices.

Definition nonEmpty {A : Type} (l : list A) : bool := Nat.ltb 0 (List.length l).

Definition isType (t : ModuleType) (m : VBModuleAnalysis) : bool :=
  moduleType_eqb (moduleType m) t.

Definition namesOf (keep : VBModuleAnalysis -> bool) (moduleAnalyses : list VBModuleAnalysis)
  : list string :=
  map fileName (filter keep moduleAnalyses).

Definition getBusinessLogicModules : list VBModuleAnalysis -> list string :=
  namesOf (fun m => isType Module_ m || isType Class_ m ||
                    (nonEmpty (calculations (businessLogic m)) ||
                     nonEmpty (validations (businessLogic m)))).

Definition getApplicationModules : list VBModuleAnalysis -> list string :=
  namesOf (fun m => nonEmpty (methods m) && negb (isType Form m)).

Definition getDataAccessModules : list VBModuleAnalysis -> list string :=
  namesOf (fun m => nonEmpty (databaseOperations (businessLogic m))).

Definition getUIModules : list VBModuleAnalysis -> list string :=
  namesOf (isType Form).

Definition getUILogicModules : list VBModuleAnalysis -> list string :=
  namesOf (fun m => isType Form m && nonEmpty (events m)).

Definition getDataModules : list VBModuleAnalysis -> list string :=
  namesOf (fun m =>
    existsb (fun v => includes (var_type v) "String" || includes (var_type v) "Integer"
                      || includes (var_type v) "Date") (variables m)
    || nonEmpty (databaseOperations (businessLogic m))).

Definition hasDataAccess (moduleAnalyses : list VBModuleAnalysis) : bool :=
  existsb (fun m => nonEmpty (databaseOperations (businessLogic m))) moduleAnalyses.

Definition project (name type targetFramework purpose : string)
           (dependencies sourceModules : list string) : ProjectProposal :=
  {| name := name; type := type; targetFramework := targetFramework; purpose := purpose;
     dependencies := dependencies; sourceModules := sourceModules |}.

Definition when {A : Type} (b : bool) (l : list A) : list A := if b then l else [].

(** [[...].filter(Boolean)] on strings drops the empty ones. *)
Definition filterBoolean (l : list string) : list string :=
  filter (fun s => negb (String.eqb s "")) l.

(** [generateCleanArchitecture]; [vbName] is [vbProject.name]. *)
Definition generateCleanArchitecture (vbName : string) (moduleAnalyses : list VBModuleAnalysis)
           (options : Options) : list ProjectProposal :=
  let uiType := if webBased options then "Web" else "Desktop" in
  concat
    [ [project (vbName ++ ".Domain") "Library" "net8.0"
         "Domain entities, value objects, and business rules"
         [] (getBusinessLogicModules moduleAnalyses);
       project (vbName ++ ".Application") "Library" "net8.0"
         "Use cases, services, and application logic"
         [vbName ++ ".Domain"] (getApplicationModules moduleAnalyses)];
      when (includeDatabase options || hasDataAccess moduleAnalyses)
        [project (vbName ++ ".Infrastructure") "Library" "net8.0"
           "Data access, external services, and infrastructure concerns"
           [vbName ++ ".Domain"; vbName ++ ".Application"]
           (getDataAccessModules moduleAnalyses)];
      [project (vbName ++ "." ++ uiType) uiType "net8.0"
         (uiType ++ " user interface and controllers")
         (filterBoolean [vbName ++ ".Application";
                         if includeDatabase options then vbName ++ ".Infrastructure" else ""])
         (getUIModules moduleAnalyses)];
      when (webBased options)
        [project (vbName ++ ".Api") "API" "net8.0" "REST API endpoints and controllers"
           [vbName ++ ".Application"; vbName ++ ".Infrastructure"] []];
      [project (vbName ++ ".Tests.Unit") "Library" "net8.0" "Unit tests for business logic"
         [vbName ++ ".Domain"; vbName ++ ".Application"] []] ].

Definition generateLayeredArchitecture (vbName : string) (moduleAnalyses : list VBModuleAnalysis)
           (options : Options) : list ProjectProposal :=
  [ project (vbName ++ ".Presentation") (if webBased options then "Web" else "Desktop") "net8.0"
      "User interface and presentation logic"
      [vbName ++ ".Business"] (getUIModules moduleAnalyses);
    project (vbName ++ ".Business") "Library" "net8.0" "Business logic and rules"
      [vbName ++ ".Data"] (getBusinessLogicModules moduleAnalyses);
    project (vbName ++ ".Data") "Library" "net8.0" "Data access and persistence"
      [] (getDataAccessModules moduleAnalyses) ].

Definition generateMVCArchitecture (vbName : string) (moduleAnalyses : list VBModuleAnalysis)
           (options : Options) : list ProjectProposal :=
  [ project (vbName ++ ".Web") "Web" "net8.0" "ASP.NET Core MVC web application"
      [vbName ++ ".Models"; vbName ++ ".Services"] (getUIModules moduleAnalyses);
    project (vbName ++ ".Models") "Library" "net8.0" "Data models and view models"
      [] (getDataModules moduleAnalyses);
    project (vbName ++ ".Services") "Library" "net8.0" "Business services and data access"
      [vbName ++ ".Models"] (getBusinessLogicModules moduleAnalyses) ].

Definition generateMVVMArchitecture (vbName : string) (moduleAnalyses : list VBModuleAnalysis)
           (options : Options) : list ProjectProposal :=
  [ project (vbName ++ ".Desktop") "Desktop" "net8.0-windows"
      "WPF/WinUI MVVM desktop application"
      [vbName ++ ".ViewModels"; vbName ++ ".Services"] (getUIModules moduleAnalyses);
    project (vbName ++ ".ViewModels") "Library" "net8.0" "View models and UI logic"
      [vbName ++ ".Models"; vbName ++ ".Services"] (getUILogicModules moduleAnalyses);
    project (vbName ++ ".Models") "Library" "net8.0" "Data models and business entities"
      [] (getDataModules moduleAnalyses);
    project (vbName ++ ".Services") "Library" "net8.0" "Business services and data access"
      [vbName ++ ".Models"] (getBusinessLogicModules moduleAnalyses) ].

(** [m.fileName.replace(/\d+$/, '').replace(/Form|Module/, '')] *)
Definition domainStem (fileName : string) : string :=
  let re_digits := RegExp.Make (RegExp.Seq (RegExp.plus RegExp.digit) RegExp.LineEnd) false false in
  let re_kind := RegExp.Make (RegExp.Alt (RegExp.lit "Form") (RegExp.lit "Module")) false false in
  RegExp.replaceTemplate (RegExp.replaceTemplate fileName re_digits "") re_kind "".

(** The insertion-ordered [Map<string, string[]>] of [identifyBusinessDomains]. *)
Fixpoint pushInto (key value : string) (groups : list (string * list string))
  : list (string * list string) :=
  match groups with
  | [] => [(key, [value])]
  | (k, vs) :: more =>
      if String.eqb k key then (k, (vs ++ [value])%list) :: more
      else (k, vs) :: pushInto key value more
  end.

Definition identifyBusinessDomains (moduleAnalyses : list VBModuleAnalysis)
  : list (string * list string) :=
  let groups :=
    fold_left (fun gs m => pushInto (domainStem (fileName m)) (fileName m) gs)
              moduleAnalyses [] in
  let domains :=
    map (fun g => (if String.eqb (fst g) "" then "Core" else fst g, snd g))
        (filter (fun g => Nat.ltb 1 (List.length (snd g))) groups) in
  match domains with
  | [] => [("Core", map fileName moduleAnalyses)]
  | _ => domains
  end.

Definition generateMicroservicesArchitecture (vbName : string)
           (moduleAnalyses : list VBModuleAnalysis) (options : Options)
  : list ProjectProposal :=
  concat
    [ map (fun domain =>
             project (vbName ++ "." ++ fst domain ++ "Service") "API" "net8.0"
               ("Microservice for " ++ fst domain ++ " domain")
               [vbName ++ ".Shared"] (snd domain))
          (identifyBusinessDomains moduleAnalyses);
      [project (vbName ++ ".Gateway") "API" "net8.0"
         "API Gateway for routing and cross-cutting concerns" [] [];
       project (vbName ++ ".Web") "Web" "net8.0" "Web frontend consuming microservices"
         [] (getUIModules moduleAnalyses)] ].

(** The [projects] of [generateStructure]. *)
Definition generateStructure (vbName : string) (moduleAnalyses : list VBModuleAnalysis)
           (targetArchitecture : Architecture) (options : Options) : list ProjectProposal :=
  match targetArchitecture with
  | Clean => generateCleanArchitecture vbName moduleAnalyses options
  | Layered => generateLayeredArchitecture vbName moduleAnalyses options
  | MVC => generateMVCArchitecture vbName moduleAnalyses options
  | MVVM => generateMVVMArchitecture vbName moduleAnalyses options
  | Microservices => generateMicroservicesArchitecture vbName moduleAnalyses options
  end.

Record MigrationPhase : Type := {
  phase_name : string;
  phase_order : nat;
  phase_description : string;
  phase_modules : list string;
  phase_estimatedDays : nat;
  phase_dependencies : list string;
  phase_risks : list string
}.

Record MigrationPlan : Type := {
  phases : list MigrationPhase;
  priorities : list string;
  plan_dependencies : list string
}.

(** [planMigration]; [Math.ceil] of an integer is the integer. *)
Definition planMigration (moduleAnalyses : list VBModuleAnalysis) : MigrationPlan :=
  let businessModules := getBusinessLogicModules moduleAnalyses in
  let dataModules := getDataAccessModules moduleAnalyses in
  let uiModules := getUIModules moduleAnalyses in
  {| priorities := ["Migrate data layer first to ensure data integrity";
                    "Focus on high-value business logic modules";
                    "Maintain backward compatibility during transition";
                    "Implement comprehensive testing at each phase"];
     plan_dependencies := [];
     phases :=
  concat
    [ when (nonEmpty businessModules)
        [{| phase_name := "Core Business Logic"; phase_order := 1;
            phase_description := "Migrate core business rules and calculations";
            phase_modules := businessModules;
            phase_estimatedDays := List.length businessModules * 2;
            phase_dependencies := [];
            phase_risks := ["Business logic complexity"; "Hidden dependencies"] |}];
      when (nonEmpty dataModules)
        [{| phase_name := "Data Access Layer"; phase_order := 2;
            phase_description := "Migrate database operations and data models";
            phase_modules := dataModules;
            phase_estimatedDays := List.length dataModules * 3;
            phase_dependencies := ["Core Business Logic"];
            phase_risks := ["Database schema changes"; "Data migration complexity"] |}];
      when (nonEmpty uiModules)
        [{| phase_name := "User Interface"; phase_order := 3;
            phase_description := "Migrate forms and user interface components";
            phase_modules := uiModules;
            phase_estimatedDays := List.length uiModules * 4;
            phase_dependencies := ["Core Business Logic"; "Data Access Layer"];
            phase_risks := ["UI framework differences"; "User experience changes"] |}];
      [{| phase_name := "Integration and Testing"; phase_order := 4;
          phase_description := "Integration testing and system validation";
          phase_modules := [];
          phase_estimatedDays := 10;
          phase_dependencies := ["User Interface"];
          phase_risks := ["Integration issues"; "Performance problems"] |}] ] |}.

Record TechnologyStack : Type := {
  primary : string;
  secondary : list string;
  justification : string
}.

Record Technologies : Type := {
  frontend : TechnologyStack;
  backend : TechnologyStack;
  database : TechnologyStack;
  testing : TechnologyStack
}.

Definition recommendTechnologies (moduleAnalyses : list VBModuleAnalysis) (options : Options)
  : Technologies :=
  let hasFormsUI := existsb (isType Form) moduleAnalyses in
  let hasDataAccess0 := hasDataAccess moduleAnalyses in
  {| frontend :=
       {| primary := if webBased options then "ASP.NET Core MVC"
                     else if hasFormsUI then "WPF" else "Console";
          secondary := if webBased options then ["Blazor"; "React"; "Angular"]
                       else ["WinUI 3"; "MAUI"];
          justification := if webBased options
                           then "Modern web UI with server-side rendering"
                           else "Rich desktop experience with modern XAML" |};
     backend :=
       {| primary := ".NET 8";
          secondary := ["ASP.NET Core"; "Entity Framework Core"; "AutoMapper"];
          justification := "Latest .NET with high performance and cross-platform support" |};
     database :=
       {| primary := if hasDataAccess0 then "SQL Server" else "None";
          secondary := if hasDataAccess0
                       then ["Entity Framework Core"; "Dapper"; "Azure SQL"] else [];
          justification := if hasDataAccess0
                           then "Enterprise-grade relational database with ORM support"
                           else "No database requirements detected" |};
     testing :=
       {| primary := "xUnit";
          secondary := ["Moq"; "FluentAssertions"; "AutoFixture"];
          justification := "Modern testing framework with rich ecosystem" |} |}.

Record Patterns : Type := {
  designPatterns : list string;
  architecturalPatterns : list string;
  dataAccessPatterns : list string
}.

Definition recommendPatterns (targetArchitecture : Architecture) (options : Options)
  : Patterns :=
  {| designPatterns := ["Dependency Injection"; "Factory Pattern"; "Repository Pattern";
                        "Unit of Work"; "Strategy Pattern"];
     architecturalPatterns :=
       match targetArchitecture with
       | Clean => ["CQRS"; "Mediator"; "Domain Events"]
       | MVVM => ["Command Pattern"; "Observer Pattern"; "Data Binding"]
       | MVC => ["MVC"; "Front Controller"; "View Component"]
       | Microservices => ["API Gateway"; "Service Discovery"; "Circuit Breaker"]
       | Layered => []
       end;
     dataAccessPatterns :=
       if includeDatabase options
       then ["Entity Framework Core"; "Repository Pattern"; "Unit of Work";
             "Database Migrations"]
       else [] |}.

Record ModernizationPlan : Type := {
  recommendations : list string;
  bestPractices : list string;
  securityConsiderations : list string
}.

Definition generateModernizationPlan (moduleAnalyses : list VBModuleAnalysis)
  : ModernizationPlan :=
  {| recommendations :=
       concat
         [ ["Implement dependency injection for better testability";
            "Use async/await patterns for I/O operations";
            "Apply SOLID principles in the new architecture";
            "Implement comprehensive logging and monitoring";
            "Use configuration management for environment-specific settings"];
           when (hasDataAccess moduleAnalyses)
             ["Replace ADO/DAO with Entity Framework Core";
              "Implement database migrations for schema management"] ];
     bestPractices :=
       ["Use meaningful naming conventions";
        "Implement proper error handling and logging";
        "Write unit tests for all business logic";
        "Use Git for version control with feature branches";
        "Implement CI/CD pipelines for automated deployment";
        "Document APIs and architecture decisions"];
     securityConsiderations :=
       ["Implement input validation and sanitization";
        "Use parameterized queries to prevent SQL injection";
        "Implement proper authentication and authorization";
        "Encrypt sensitive data at rest and in transit";
        "Keep dependencies up to date for security patches";
        "Implement proper session management"] |}.

(** [generateProposal]; [structure] holds the [projects] of the structure. *)
Record ArchitectureProposal : Type := {
  targetArchitecture : Architecture;
  structure : list ProjectProposal;
  patterns : Patterns;
  technologies : Technologies;
  migration : MigrationPlan;
  modernization : ModernizationPlan
}.

Definition generateProposal (vbName : string) (moduleAnalyses : list VBModuleAnalysis)
           (targetArchitecture0 : Architecture) (options : Options) : ArchitectureProposal :=
  {| targetArchitecture := targetArchitecture0;
     structure := generateStructure vbName moduleAnalyses targetArchitecture0 options;
     patterns := recommendPatterns targetArchitecture0 options;
     technologies := recommendTechnologies moduleAnalyses options;
     migration := planMigration moduleAnalyses;
     modernization := generateModernizationPlan moduleAnalyses |}.

(** The project graph: every project with its declared references. *)
Definition graphOf (projects : list ProjectProposal) : Graph.t :=
  map (fun p => (name p, dependencies p)) projects.

End ModernArchitectureGenerator.

(* ===================================================================== *)
(** ** VBModuleAnalyzer (src/analyzers/module-migrator.ts)                *)
(* ===================================================================== *)

Module VBModuleAnalyzer.
Import Analysis.

(** [analysis.metrics]. *)
Record Metrics : Type := {
  linesOfCode : nat;
  cyclomaticComplexity : nat;
  codeSmells : list string;
  technicalDebt : list string
}.

(** An analysis with its [metrics] field. *)
Record Measured : Type := {
  analysis : VBModuleAnalysis;
  metrics : Metrics
}.

Inductive Complexity : Type := Low | Medium | High.

(** [if (n > high) score += 2; else if (n > low) score += 1;] *)
Definition graded (n low high : nat) : nat :=
  if Nat.ltb high n then 2 else if Nat.ltb low n then 1 else 0.

Definition totalBusinessOps (m : Measured) : nat :=
  List.length (databaseOperations (businessLogic (analysis m)))
  + List.length (fileOperations (businessLogic (analysis m)))
  + List.length (calculations (businessLogic (analysis m)))
  + List.length (validations (businessLogic (analysis m))).

Definition score (m : Measured) : nat :=
  graded (linesOfCode (metrics m)) 200 500
  + graded (cyclomaticComplexity (metrics m)) 10 20
  + graded (List.length (methods (analysis m))) 10 20
  + graded (totalBusinessOps m) 10 20
  + (if Nat.ltb 5 (List.length (codeSmells (metrics m))) then 1 else 0).

Definition assessComplexity (m : Measured) : Complexity :=
  if Nat.leb 6 (score m) then High
  else if Nat.leb 3 (score m) then Medium
  else Low.

(** The order [Low < Medium < High]. *)
Definition rank (c : Complexity) : nat :=
  match c with Low => 0 | Medium => 1 | High => 2 end.

(** How many of the five measures are above their lower threshold. *)
Definition raised (m : Measured) : nat :=
  List.length
    (filter (fun b : bool => b)
       [ Nat.ltb 200 (linesOfCode (metrics m));
         Nat.ltb 10 (cyclomaticComplexity (metrics m));
         Nat.ltb 10 (List.length (methods (analysis m)));
         Nat.ltb 10 (totalBusinessOps m);
         Nat.ltb 5 (List.length (codeSmells (metrics m))) ]).

End VBModuleAnalyzer.

(* ===================================================================== *)
(** ** VBParser (src/parsers/vb-parser.ts)                                *)
(* ===================================================================== *)

Module VBParser.
Import JS.

(** A source unit as far as the project-level control flow is concerned;
    its members are filled in by regular-expression scans of the file
    content that cannot throw. *)
Record SourceUnit : Type := {
  unit_name : string;
  unit_path : string
}.

Record VBProject : Type := {
  name : string;
  path : string;
  targetFramework : string;
  forms : list SourceUnit;
  modules : list SourceUnit;
  classes : list SourceUnit;
  projectType : string
}.

(** What xml2js returns for the manifest, reduced to the two values the
    parser extracts from it (both extractions have their own [try]). *)
Record Manifest : Type := {
  manifest_targetFramework : string;
  manifest_projectType : string
}.

(** The world outside the parser: [glob], [fs-extra], [xml2js] and Node's
    [path].  A failing operation throws. *)
Record World : Type := {
  globProjectFiles : result (list string);   (* the project descriptors found *)
  globVBFiles : result (list string);        (* the source files found *)
  readFile : string -> result string;
  pathExists : string -> bool;
  parseStringPromise : string -> result Manifest;
  join : string -> string -> string;
  basename : string -> string -> string;
  extname : string -> string;
  unitName : string -> string -> string      (* content, file path *)
}.

(** Parser state while a project is being built: the project and the
    lines written with [console.warn]. *)
Record State : Type := {
  project : VBProject;
  warnings : list string
}.

Section Parser.
Variable world : World.
Variable projectPath : string.

Definition unitOf (content filePath : string) : SourceUnit :=
    {| unit_name := unitName world content filePath; unit_path := filePath |}.

Definition pushForm (u : SourceUnit) (st : State) : State :=
    let p := project st in
    {| project := {| name := name p; path := path p; targetFramework := targetFramework p;
                     forms := (forms p ++ [u])%list; modules := modules p;
                     classes := classes p; projectType := projectType p |};
       warnings := warnings st |}.

Definition pushModule (u : SourceUnit) (st : State) : State :=
    let p := project st in
    {| project := {| name := name p; path := path p; targetFramework := targetFramework p;
                     forms := forms p; modules := (modules p ++ [u])%list;
                     classes := classes p; projectType := projectType p |};
       warnings := warnings st |}.

Definition pushClass (u : SourceUnit) (st : State) : State :=
    let p := project st in
    {| project := {| name := name p; path := path p; targetFramework := targetFramework p;
                     forms := forms p; modules := modules p;
                     classes := (classes p ++ [u])%list; projectType := projectType p |};
       warnings := warnings st |}.

Definition warn (line : string) (st : State) : State :=
    {| project := project st; warnings := (warnings st ++ [line])%list |}.

  (** [parseVBForm], [parseVBModule] and [parseVBClass] share one shape. *)
Definition parseUnit (kind : string) (push : SourceUnit -> State -> State)
             (unitPath : string) (st : State) : result State :=
    let fullPath := join world projectPath unitPath in
    if negb (pathExists world fullPath)
    then Ok (warn (kind ++ " file not found: " ++ fullPath) st)
    else bind (readFile world fullPath) (fun content =>
         Ok (push (unitOf content unitPath) st)).

Definition parseVBForm := parseUnit "Form" pushForm.
Definition parseVBModule := parseUnit "Module" pushModule.
Definition parseVBClass := parseUnit "Class" pushClass.

Definition parseVBCodeFile (content filePath : string) (st : State) : result State :=
    if includes content "Public Class"
       && includes content "Inherits System.Windows.Forms.Form"
    then Ok (pushForm (unitOf content filePath) st)
    else if includes content "Public Class" || includes content "Public MustInherit Class"
    then Ok (pushClass (unitOf content filePath) st)
    else if includes content "Module "
    then Ok (pushModule (unitOf content filePath) st)
    else Ok st.

Definition parseVBFile (filePath : string) (st : State) : result State :=
    let fullPath := join world projectPath filePath in
    bind (readFile world fullPath) (fun content =>
    let ext := toLowerCase (extname world filePath) in
    if String.eqb ext ".vb" then parseVBCodeFile content filePath st
    else if String.eqb ext ".frm" then parseVBForm filePath st
    else if String.eqb ext ".bas" then parseVBModule filePath st
    else if String.eqb ext ".cls" then parseVBClass filePath st
    else Ok st).

  (** [for (const x of xs) await step(x, project)] *)
Fixpoint forEach {A : Type} (step : A -> State -> result State) (xs : list A) (st : State)
    : result State :=
    match xs with
    | [] => Ok st
    | x :: more => bind (step x st) (forEach step more)
    end.

Definition parseVBProjFile (content projectFile : string) : result State :=
    bind (parseStringPromise world content) (fun manifest =>
    let project0 :=
      {| name := basename world projectFile ".vbproj"; path := projectFile;
         targetFramework := manifest_targetFramework manifest;
         forms := []; modules := []; classes := [];
         projectType := manifest_projectType manifest |} in
    bind (globVBFiles world) (fun vbFiles =>
    forEach parseVBFile vbFiles {| project := project0; warnings := [] |})).

  (** [line.split('=')[1].split(';')[0]] on a line that starts with a key
      followed by [=]. *)
Definition manifestPath (line : string) : string :=
    nth 0 (split ";" (nth 1 (split "=" line) "")) "".

Definition parseVBPLine (line : string) (st : State) : result State :=
    if startsWith line "Form=" then parseVBForm (manifestPath line) st
    else if startsWith line "Module=" then parseVBModule (manifestPath line) st
    else if startsWith line "Class=" then parseVBClass (manifestPath line) st
    else Ok st.

Definition parseVBPFile (content projectFile : string) : result State :=
    let lines := split LF content in
    let project0 :=
      {| name := basename world projectFile ".vbp"; path := projectFile;
         targetFramework := "VB6"; forms := []; modules := []; classes := [];
         projectType := "WinForms" |} in
    forEach parseVBPLine lines {| project := project0; warnings := [] |}.

Definition parseProjectFile (projectFile : string) : result State :=
    let fullPath := join world projectPath projectFile in
    bind (readFile world fullPath) (fun content =>
    if endsWith projectFile ".vbproj" then parseVBProjFile content projectFile
    else parseVBPFile content projectFile).

Definition noProjectFiles : error :=
    Error "No VB.NET project files found in the specified directory".

  (** [parseVBProject]: the project, or the exception the promise rejects
      with; the warnings are what was written to the console. *)
Definition parseVBProject : result State :=
    bind (globProjectFiles world) (fun projectFiles =>
    match projectFiles with
    | [] => Throw noProjectFiles
    | projectFile :: _ => parseProjectFile projectFile
    end).

Definition sourceUnits (p : VBProject) : nat :=
    List.length (forms p) + List.length (modules p) + List.length (classes p).

(** Reading the file succeeds. *)
Definition readable (filePath : string) : bool :=
  isOk (readFile world (join world projectPath filePath)).

(** The file exists. *)
Definition present (filePath : string) : bool :=
  pathExists world (join world projectPath filePath).

(** The unit paths that the lines of a [.vbp] descriptor list under one
    key, in the order of the lines. *)
Definition listed (key : string) (lines : list string) : list string :=
  map manifestPath (filter (fun line => startsWith line key) lines).
End Parser.

End VBParser.

(* ===================================================================== *)
(** ** LegacyMCPServer: the [apply_migration_rules] tool                  *)
(* ===================================================================== *)

Module McpServer.
Import JS MigrationRulesEngine.

(** The arguments of the tool; [filePath] and [projectType] may be left
    out. *)
Record ApplyArgs : Type := {
  vbContent : string;
  arg_filePath : option string;
  arg_projectType : option string
}.

Record ApplyResult : Type := {
  original : string;
  converted : string;
  appliedRulesCount : nat;
  result_filePath : string;
  result_projectType : string
}.

(** A destructuring default. *)
Definition orDefault (v : option string) (d : string) : string :=
  match v with Some s => s | None => d end.

(** [handleApplyMigrationRules] on the server's engine: the result (or the
    exception) and the engine afterwards.  The filter calls [test] on the
    rule patterns themselves, which carry the [g] flag, so it starts at
    each pattern's [lastIndex].  That is 0 whenever the filter runs: the
    server's engine is the one its constructor creates, whose rules all
    have the [g] flag and no condition, so the [applyRules] call that
    precedes the filter has run [replace] with every pattern, and
    [replace] with a [g] pattern collects all its matches before the first
    callback runs and leaves [lastIndex] at 0. *)
Definition handleApplyMigrationRules (stack : nat) (rulesEngine : Engine) (args : ApplyArgs)
  : result ApplyResult * Engine :=
  let filePath := orDefault (arg_filePath args) "unknown.vb" in
  let projectType := orDefault (arg_projectType args) "WinForms" in
  let context :=
    {| filePath := filePath; fileContent := vbContent args; projectType := projectType;
       targetFramework := "net8.0" |} in
  let applied := applyRules stack rulesEngine (vbContent args) context in
  (bind (fst applied) (fun convertedContent =>
   Ok {| original := vbContent args;
         converted := convertedContent;
         appliedRulesCount :=
           List.length
             (filter (fun rule => fst (RegExp.testFrom (pattern rule) 0 (vbContent args)))
                     (getRules (snd applied)));
         result_filePath := filePath;
         result_projectType := projectType |}),
   snd applied).

(** The server's engine after a sequence of requests. *)
Definition serve (stack : nat) (requests : list ApplyArgs) : Engine :=
  fold_left (fun rulesEngine args => snd (handleApplyMigrationRules stack rulesEngine args))
            requests MigrationRulesEngine.new.

End McpServer.

(* ===================================================================== *)
(** ** Fixtures                                                           *)
(* ===================================================================== *)

Module Fixtures.
Import JS.

(** *** Entities for routing *)

Definition noLogic : Analysis.BusinessLogic :=
  {| Analysis.databaseOperations := []; Analysis.fileOperations := [];
     Analysis.calculations := []; Analysis.validations := [] |}.

Definition oneQuery : Analysis.BusinessLogic :=
  {| Analysis.databaseOperations :=
       [{| Analysis.op_type := "Select"; Analysis.op_query := "SELECT * FROM Customers" |}];
     Analysis.fileOperations := []; Analysis.calculations := []; Analysis.validations := [] |}.

Definition entity (fileName : string) (logic : Analysis.BusinessLogic) : Analysis.VBModuleAnalysis :=
  {| Analysis.fileName := fileName; Analysis.filePath := fileName;
     Analysis.moduleType := Analysis.Module_; Analysis.variables := [];
     Analysis.methods := []; Analysis.events := []; Analysis.businessLogic := logic |}.

(** A module reading a table, and a module with no signal of any kind. *)
Definition customers : Analysis.VBModuleAnalysis := entity "Customers.bas" oneQuery.
Definition constants : Analysis.VBModuleAnalysis := entity "Constants.bas" noLogic.

Definition stem (fileName : string) : string :=
  nth 0 (split "." fileName) "".

(** *** Worlds for the parser *)

Definition manifest : VBParser.Manifest :=
  {| VBParser.manifest_targetFramework := "net48";
     VBParser.manifest_projectType := "WinForms" |}.

Definition extOf (filePath : string) : string :=
  if endsWith filePath ".vb" then ".vb"
  else if endsWith filePath ".frm" then ".frm"
  else if endsWith filePath ".bas" then ".bas"
  else if endsWith filePath ".cls" then ".cls"
  else "".

(** A project directory given by its descriptors, its source files and
    the content of every file; reading a path listed in [unreadable]
    throws, as reading a directory does. *)
Definition worldOf (descriptors sources : list string)
           (files : list (string * string)) (unreadable : list string) : VBParser.World :=
  {| VBParser.globProjectFiles := Ok descriptors;
     VBParser.globVBFiles := Ok sources;
     VBParser.readFile := fun p =>
       if existsb (String.eqb p) unreadable
       then Throw (Error "EISDIR: illegal operation on a directory, read")
       else match MigrationRulesEngine.own files p with
            | Some content => Ok content
            | None => Throw (Error "ENOENT: no such file or directory")
            end;
     VBParser.pathExists := fun p =>
       existsb (String.eqb p) unreadable ||
       match MigrationRulesEngine.own files p with Some _ => true | None => false end;
     VBParser.parseStringPromise := fun _ => Ok manifest;
     VBParser.join := fun _ file => file;
     VBParser.basename := fun file _ => stem file;
     VBParser.extname := extOf;
     VBParser.unitName := fun _ file => stem file |}.

Definition descriptor : string * string := ("Shop.vbproj", "<Project Sdk='Microsoft.NET.Sdk'/>").

(** One readable class file followed by a directory named like a source
    file, which [glob] lists too. *)
Definition worldWithUnreadable : VBParser.World :=
  worldOf ["Shop.vbproj"] ["Order.vb"; "Legacy.vb"]
          [descriptor; ("Order.vb", "Public Class Order")] ["Legacy.vb"].

(** A descriptor and no source file at all. *)
Definition worldWithoutSources : VBParser.World :=
  worldOf ["Shop.vbproj"] [] [descriptor] [].

(** A descriptor, a class file and a file of an unknown kind. *)
Definition worldWithSources : VBParser.World :=
  worldOf ["Shop.vbproj"] ["Order.vb"]
          [descriptor; ("Order.vb", "Public Class Order")] [].

(** No descriptor. *)
Definition worldWithoutDescriptor : VBParser.World :=
  worldOf [] ["Order.vb"] [("Order.vb", "Public Class Order")] [].

(** *** Text for the rule engine *)

Definition emptyMethod : string := "Public Sub Foo()" ++ nl ++ nl ++ "End Sub".

Definition emptyHandler : string :=
  "' form code" ++ nl ++ "Private Sub Button1_Click() Handles Button1.Click" ++ nl ++ nl
    ++ "End Sub".

Definition clickHandler : string :=
  "Private Sub Button1_Click(sender As Object, e As EventArgs) Handles Button1.Click" ++ nl
    ++ "x = 1" ++ nl ++ "End Sub".

End Fixtures.

(* ===================================================================== *)
(** ** The specification's reading of the rule engine                     *)
(* ===================================================================== *)

(** What the specification says of a run of the rule engine, written
    down without the engine: the definitions from the applied order to the
    fold of the steps share the data of the modules above (texts,
    patterns, rules, contexts, the positions of a match, the outcome of a
    computation) and none of their functions.  A replacement function is
    part of a rule; what it reaches through [this] is a parameter here.
    The notions that close the module are those the statements about the
    engine itself are phrased with. *)

Module RuleSpec.
Import JS RegExp MigrationRulesEngine.

(** *** The applied order: priority descending, declaration order as tie-break *)

Section Order.
Context {R : Type}.
Variable priority : R -> Z.

(** The highest priority among a rule and the others. *)
Definition highest (first : R) (others : list R) : Z :=
  fold_right (fun rule top => Z.max (priority rule) top) (priority first) others.

(** First the rules of the highest priority, in the order of their
    declaration; then, in the same way, the remaining rules.  Every round
    places at least one rule, so as many rounds as there are rules place
    them all. *)
Fixpoint orderFrom (rounds : nat) (rules : list R) : list R :=
  match rounds, rules with
  | S rounds', first :: others =>
      let top := highest first others in
      filter (fun rule => (priority rule =? top)%Z) rules
      ++ orderFrom rounds' (filter (fun rule => negb (priority rule =? top)%Z) rules)
  | _, _ => []
  end.

Definition appliedOrder (rules : list R) : list R := orderFrom (List.length rules) rules.

End Order.

(** *** Conditions *)

Fixpoint suffixes (s : string) : list string :=
  s :: match s with
       | EmptyString => []
       | String _ s' => suffixes s'
       end.

(** [needle] is a substring of [s]: some suffix of [s] begins with it. *)
Definition occurs (needle s : string) : bool := existsb (String.prefix needle) (suffixes s).

(** [s] ends with [suffix]. *)
Definition hasSuffix (suffix s : string) : bool := existsb (String.eqb suffix) (suffixes s).

(** What a condition requires of the context: substring presence or
    absence in the whole file content, the suffix of the file path, the
    project kind. *)
Definition holds (condition : MigrationCondition) (context : MigrationContext) : Prop :=
  match ctype condition with
  | contains => exists a b, fileContent context = a ++ cvalue condition ++ b
  | not_contains => ~ exists a b, fileContent context = a ++ cvalue condition ++ b
  | file_extension => exists a, filePath context = a ++ cvalue condition
  | project_type => projectType context = cvalue condition
  end.

(** The same, decided. *)
Definition conditionMet (condition : MigrationCondition) (context : MigrationContext) : bool :=
  match ctype condition with
  | contains => occurs (cvalue condition) (fileContent context)
  | not_contains => negb (occurs (cvalue condition) (fileContent context))
  | file_extension => hasSuffix (cvalue condition) (filePath context)
  | project_type => String.eqb (cvalue condition) (projectType context)
  end.

(** The conditions of a rule; a rule that declares none has none to meet. *)
Definition conditionsOf (rule : MigrationRule) : list MigrationCondition :=
  match conditions rule with
  | Some cs => cs
  | None => []
  end.

(** A rule's conditions all hold against the context. *)
Definition conditionsHold (rule : MigrationRule) (context : MigrationContext) : bool :=
  forallb (fun condition => conditionMet condition context) (conditionsOf rule).

(** *** The matches of a pattern *)

(** Capture groups: number [i] (from 0) receives a text; [count] groups
    from number [from] on are emptied. *)
Definition store (i : nat) (text : option string) (groups : list (option string))
  : list (option string) :=
  if Nat.ltb i (List.length groups)
  then firstn i groups ++ text :: skipn (S i) groups
  else groups.

Fixpoint forget (from count : nat) (groups : list (option string)) : list (option string) :=
  match groups with
  | [] => []
  | g :: more =>
      match from, count with
      | S from', _ => g :: forget from' count more
      | O, S count' => None :: forget 0 count' more
      | O, O => g :: more
      end
  end.

(** The text between two positions of a match. *)
Definition textBetween (x y : mstate) : string :=
  String.substring 0 (String.length (rest x) - String.length (rest y)) (rest x).

(** The characters of a class, by their code or by enumeration. *)
Definition codeIn (codes : list nat) (c : ascii) : bool :=
  existsb (Nat.eqb (nat_of_ascii c)) codes.

Definition oneOf (chars : string) (c : ascii) : bool :=
  existsb (Ascii.eqb c) (list_ascii_of_string chars).

(** Line feed and carriage return. *)
Definition lineTerminator : ascii -> bool := codeIn [10; 13].

(** Tab, line feed, vertical tab, form feed, carriage return, space and
    no-break space. *)
Definition whiteSpace : ascii -> bool := codeIn [9; 10; 11; 12; 13; 32; 160].

Definition digitChar : ascii -> bool := oneOf "0123456789".

Definition wordCharacter : ascii -> bool :=
  oneOf "ABCDEFGHIJKLMNOPQRSTUVWXYZabcdefghijklmnopqrstuvwxyz0123456789_".

Definition itemAccepts (c : ascii) (item : citem) : bool :=
  match item with
  | CChar a => Ascii.eqb a c
  | CRange lo hi =>
      Nat.leb (nat_of_ascii lo) (nat_of_ascii c) && Nat.leb (nat_of_ascii c) (nat_of_ascii hi)
  | CSpace => whiteSpace c
  | CNotSpace => negb (whiteSpace c)
  | CWord => wordCharacter c
  | CDigit => digitChar c
  end.

(** A class accepts the characters of one of its items; a negated class
    accepts the others. *)
Definition classAccepts (negated : bool) (items : list citem) (c : ascii) : bool :=
  if negated then negb (existsb (itemAccepts c) items) else existsb (itemAccepts c) items.

(** The number of groups a pattern opens. *)
Fixpoint groupsIn (r : regex) : nat :=
  match r with
  | Group r1 => 1 + groupsIn r1
  | Seq r1 r2 => groupsIn r1 + groupsIn r2
  | Alt r1 r2 => groupsIn r1 + groupsIn r2
  | Repeat _ _ _ r1 => groupsIn r1
  | Lookahead r1 => groupsIn r1
  | Empty | Char _ | Dot | Class _ _ | WordBoundary | LineStart | LineEnd => 0
  end.

(** One character, if it is acceptable. *)
Definition oneChar (ok : ascii -> bool) (x : mstate) : list mstate :=
  match rest x with
  | String a more => if ok a then [MState (Some a) more (caps x)] else []
  | EmptyString => []
  end.

Definition wordChar (o : option ascii) : bool :=
  match o with
  | Some c => wordCharacter c
  | None => false
  end.

(** The start or the end of the text and, for a multi-line pattern, of a
    line: there is no neighbouring character, or it ends a line. *)
Definition lineBreak (ml : bool) (o : option ascii) : bool :=
  match o with
  | Some c => ml && lineTerminator c
  | None => true
  end.

Definition following (x : mstate) : option ascii :=
  match rest x with
  | String a _ => Some a
  | EmptyString => None
  end.

(** The ways of repeating a pattern whose ways of matching once are
    [body], best first: a greedy repetition prefers one more round, a lazy
    one prefers to stop; the groups of the body are emptied before each
    round; a round that matches the empty text is not taken once the
    minimum is reached.  Every round either lowers [min] or moves on in
    the text, which bounds the [rounds]. *)
Fixpoint repetitions (body : mstate -> list mstate) (blank : mstate -> mstate) (greedy : bool)
         (rounds min : nat) (max : option nat) (x : mstate) {struct rounds} : list mstate :=
  match max with
  | Some O => [x]
  | _ =>
      match rounds with
      | O => []
      | S rounds' =>
          let again :=
            flat_map
              (fun y =>
                 if Nat.eqb min 0 && Nat.eqb (String.length (rest y)) (String.length (rest x))
                 then []
                 else repetitions body blank greedy rounds' (Nat.pred min)
                        (option_map Nat.pred max) y)
              (body (blank x)) in
          if negb (Nat.eqb min 0) then again
          else if greedy then again ++ [x]
          else x :: again
      end
  end.

(** All the ways pattern [r] matches at position [x], best first; each is
    the position after the match with the groups it captured.  [pi] is
    the number of groups opened to the left of [r]. *)
Fixpoint ways (ml : bool) (r : regex) (pi : nat) (x : mstate) {struct r} : list mstate :=
  match r with
  | Empty => [x]
  | Char c => oneChar (Ascii.eqb c) x
  | Dot => oneChar (fun a => negb (lineTerminator a)) x
  | Class negated items => oneChar (classAccepts negated items) x
  | Seq r1 r2 => flat_map (ways ml r2 (pi + groupsIn r1)) (ways ml r1 pi x)
  | Alt r1 r2 => ways ml r1 pi x ++ ways ml r2 (pi + groupsIn r1) x
  | Group r1 =>
      map (fun y => MState (prev y) (rest y) (store pi (Some (textBetween x y)) (caps y)))
          (ways ml r1 (S pi) x)
  | Lookahead r1 =>
      match ways ml r1 pi x with
      | y :: _ => [MState (prev x) (rest x) (caps y)]
      | [] => []
      end
  | WordBoundary => if xorb (wordChar (prev x)) (wordChar (following x)) then [x] else []
  | LineStart => if lineBreak ml (prev x) then [x] else []
  | LineEnd => if lineBreak ml (following x) then [x] else []
  | Repeat min max greedy r1 =>
      repetitions (ways ml r1 pi)
        (fun y => MState (prev y) (rest y) (forget pi (groupsIn r1) (caps y)))
        greedy (S (min + String.length (rest x))) min max x
  end.

(** The first of some ways that what follows the pattern accepts. *)
Fixpoint firstOf (k : mstate -> option mstate) (candidates : list mstate) : option mstate :=
  match candidates with
  | [] => None
  | y :: others =>
      match k y with
      | Some z => Some z
      | None => firstOf k others
      end
  end.

(** The match of a pattern at the start of [s], if there is one: its
    length and its groups.  [before] is the character before [s]. *)
Definition matchAt (re : RegExp.t) (before : option ascii) (s : string)
  : option (nat * list (option string)) :=
  match ways (multiline re) (source re) 0
             (MState before s (repeat None (groupsIn (source re)))) with
  | y :: _ => Some (String.length s - String.length (rest y), caps y)
  | [] => None
  end.

(** *** The text that replaces a match *)

(** The parts of a replacement template. *)
Inductive piece : Type :=
| Verbatim (c : ascii)
| WholeMatch            (* $& *)
| Preceding             (* $` *)
| Following             (* $' *)
| Captured (n : nat).   (* $n, $nn *)

Definition digitOf (c : ascii) : option nat :=
  if Ascii.eqb c "0" then Some 0
  else if Ascii.eqb c "1" then Some 1
  else if Ascii.eqb c "2" then Some 2
  else if Ascii.eqb c "3" then Some 3
  else if Ascii.eqb c "4" then Some 4
  else if Ascii.eqb c "5" then Some 5
  else if Ascii.eqb c "6" then Some 6
  else if Ascii.eqb c "7" then Some 7
  else if Ascii.eqb c "8" then Some 8
  else if Ascii.eqb c "9" then Some 9
  else None.

Definition isGroup (groups n : nat) : bool := Nat.leb 1 n && Nat.leb n groups.

(** Reading a template for a pattern with [groups] groups: [$$] is a
    dollar sign; [$nn] and [$n] name a group if the pattern has one of
    that number, two digits being tried first; any other character, and a
    dollar sign that starts none of these, stands for itself. *)
Fixpoint pieces (groups : nat) (template : string) : list piece :=
  match template with
  | EmptyString => []
  | String c t1 =>
      if Ascii.eqb c "$" then
        match t1 with
        | EmptyString => [Verbatim "$"]
        | String d t2 =>
            if Ascii.eqb d "$" then Verbatim "$" :: pieces groups t2
            else if Ascii.eqb d "&" then WholeMatch :: pieces groups t2
            else if Ascii.eqb d "`" then Preceding :: pieces groups t2
            else if Ascii.eqb d "'" then Following :: pieces groups t2
            else
              match digitOf d with
              | None => Verbatim "$" :: pieces groups t1
              | Some n1 =>
                  let oneDigit :=
                    if isGroup groups n1 then Captured n1 :: pieces groups t2
                    else Verbatim "$" :: Verbatim d :: pieces groups t2 in
                  match t2 with
                  | EmptyString => oneDigit
                  | String e t3 =>
                      match digitOf e with
                      | None => oneDigit
                      | Some n2 =>
                          if isGroup groups (10 * n1 + n2)
                          then Captured (10 * n1 + n2) :: pieces groups t3
                          else oneDigit
                      end
                  end
              end
        end
      else Verbatim c :: pieces groups t1
  end.

(** What a part stands for, given the match and the whole text; a group
    that took no part in the match stands for the empty text. *)
Definition pieceText (m : match_result) (whole : string) (p : piece) : string :=
  match p with
  | Verbatim c => String c EmptyString
  | WholeMatch => matched m
  | Preceding => String.substring 0 (index m) whole
  | Following =>
      let after := index m + String.length (matched m) in
      String.substring after (String.length whole - after) whole
  | Captured n =>
      match nth_error (captures m) (n - 1) with
      | Some (Some text) => text
      | _ => EmptyString
      end
  end.

Definition render (m : match_result) (whole : string) (parts : list piece) : string :=
  fold_right append EmptyString (map (pieceText m whole) parts).

Definition expand (m : match_result) (whole : string) (template : string) : string :=
  render m whole (pieces (List.length (captures m)) template).

(** A group as a replacement function receives it. *)
Definition groupValue (group : option string) : value :=
  match group with
  | Some text => VString text
  | None => VUndefined
  end.

(** The replacement of a match: the expanded literal template, or what
    the replacement function returns for the matched text, the captured
    groups, the offset of the match and the whole text. *)
Definition replacementText (rep : replaceValue) (whole : string) (m : match_result)
  : result string :=
  match rep with
  | Template template => Ok (expand m whole template)
  | Callback f =>
      f (matched m) (map groupValue (captures m) ++ [VNumber (index m); VString whole])%list
  end.

(** *** Substitution *)

(** Global substitution: walk the text from left to right; wherever the
    pattern matches outside the previous match, put the replacement there
    and pass over the matched text; copy every other character.  [skip]
    counts the characters of the previous match still to pass over. *)
Fixpoint substituteAll (re : RegExp.t) (rep : replaceValue) (whole : string)
         (before : option ascii) (s : string) (idx skip : nat) : result string :=
  let here := if Nat.eqb skip 0 then matchAt re before s else None in
  match here with
  | Some (n, groups) =>
      bind (replacementText rep whole (Match idx (String.substring 0 n s) groups)) (fun r =>
      bind match s with
           | EmptyString => Ok EmptyString
           | String c s' =>
               bind (substituteAll re rep whole (Some c) s' (S idx) (Nat.pred n))
                    (fun tail => Ok (if Nat.eqb n 0 then String c tail else tail))
           end (fun tail => Ok (r ++ tail)))
  | None =>
      match s with
      | EmptyString => Ok EmptyString
      | String c s' =>
          bind (substituteAll re rep whole (Some c) s' (S idx) (Nat.pred skip))
               (fun tail => Ok (if Nat.eqb skip 0 then String c tail else tail))
      end
  end.

(** Substitution of the leftmost match only: copy the text up to the
    first position where the pattern matches, put the replacement there
    and copy what follows the matched text. *)
Fixpoint substituteFirst (re : RegExp.t) (rep : replaceValue) (whole : string)
         (before : option ascii) (s : string) (idx : nat) : result string :=
  match matchAt re before s with
  | Some (n, groups) =>
      bind (replacementText rep whole (Match idx (String.substring 0 n s) groups)) (fun r =>
      Ok (r ++ String.substring n (String.length s - n) s))
  | None =>
      match s with
      | EmptyString => Ok EmptyString
      | String c s' =>
          bind (substituteFirst re rep whole (Some c) s' (S idx))
               (fun tail => Ok (String c tail))
      end
  end.

Definition globalSubstitution (re : RegExp.t) (rep : replaceValue) (text : string)
  : result string :=
  substituteAll re rep text None text 0 0.

Definition firstSubstitution (re : RegExp.t) (rep : replaceValue) (text : string)
  : result string :=
  substituteFirst re rep text None text 0.

(** A pattern with the [g] flag substitutes globally, one without it
    substitutes its leftmost match. *)
Definition substitution (re : RegExp.t) (rep : replaceValue) (text : string) : result string :=
  if global re then globalSubstitution re rep text else firstSubstitution re rep text.

(** *** The run *)

(** The replacement of a rule: its literal template, or its replacement
    function with the engine it reaches through [this]. *)
Definition replacementOf (this : This) (rule : MigrationRule) : replaceValue :=
  match replacement rule with
  | Literal template => Template template
  | Function f => Callback (f this)
  end.

(** One step: a rule whose conditions hold substitutes, any other rule
    leaves the text as it is. *)
Definition ruleStep (this : This) (context : MigrationContext) (text : string)
           (rule : MigrationRule) : result string :=
  if conditionsHold rule context
  then substitution (pattern rule) (replacementOf this rule) text
  else Ok text.

(** A step that substitutes globally whatever the flags of the pattern. *)
Definition globalStep (this : This) (context : MigrationContext) (text : string)
           (rule : MigrationRule) : result string :=
  if conditionsHold rule context
  then globalSubstitution (pattern rule) (replacementOf this rule) text
  else Ok text.

Definition hook (f : option (string -> result string)) (text : string) : result string :=
  match f with
  | Some g => g text
  | None => Ok text
  end.

(** One step of the enhanced variant: the rule's [preProcess] hook on the
    whole text, the substitution, the [postProcess] hook. *)
Definition enhancedStep (text : string) (rule : EnhancedMigrationEngine.EnhancedMigrationRule)
  : result string :=
  bind (hook (EnhancedMigrationEngine.preProcess rule) text) (fun text1 =>
  bind (substitution (EnhancedMigrationEngine.pattern rule)
          (EnhancedMigrationEngine.replacement rule) text1) (fun text2 =>
  hook (EnhancedMigrationEngine.postProcess rule) text2)).

(** Left-to-right fold: the output of each step is the input of the next. *)
Fixpoint foldRules {R : Type} (step : string -> R -> result string)
         (rs : list R) (text : string) : result string :=
  match rs with
  | [] => Ok text
  | r :: rs' => bind (step text r) (foldRules step rs')
  end.

Definition applyRulesSpec (this : This) (rules : list MigrationRule) (content : string)
           (context : MigrationContext) : result string :=
  foldRules (ruleStep this context) (appliedOrder priority rules) content.

(** [a] stands before [b] in [l]. *)
Definition before {A : Type} (a b : A) (l : list A) : Prop :=
  exists l1 l2 l3, l = (l1 ++ a :: l2 ++ b :: l3)%list.

(** A text is converged for a context when no applicable rule finds a
    match in it. *)
Definition converged (rules : list MigrationRule) (context : MigrationContext)
           (text : string) : Prop :=
  forall rule, In rule rules -> shouldApplyRule rule context = true ->
               RegExp.matches (pattern rule) text = [].

Definition noMatch (re : RegExp.t) (text : string) : bool :=
  match RegExp.matches re text with [] => true | _ :: _ => false end.

(** The same as a test that can be run. *)
Definition convergedb (rules : list MigrationRule) (context : MigrationContext)
           (text : string) : bool :=
  forallb (fun rule => negb (shouldApplyRule rule context) || noMatch (pattern rule) text)
          rules.

(** Every pattern of the table carries the [g] flag. *)
Definition allGlobal (rules : list MigrationRule) : bool :=
  forallb (fun rule => RegExp.global (pattern rule)) rules.

Definition testContext (content : string) : MigrationContext :=
  {| filePath := "test.vb"; fileContent := content; projectType := "WinForms";
     targetFramework := "net8.0" |}.

End RuleSpec.

(* ===================================================================== *)
(** * Properties                                                          *)
(* ===================================================================== *)

(** ** Strings *)

Module JSFacts.
Import JS.

Lemma length_take (n : nat) (s : string) :
  n <= String.length s -> String.length (take n s) = n.
Proof.
  revert s; induction n as [|n IH]; intros [|c s] H; simpl in *; try lia.
  rewrite IH; lia.
Qed.

Lemma drop_step (n : nat) (whole : string) (c : ascii) (rest : string) :
  drop n whole = String c rest -> drop (S n) whole = rest.
Proof.
  revert whole; induction n as [|n IH]; intros [|a w] H; simpl in *; try discriminate.
  - inversion H; destruct rest; reflexivity.
  - apply IH in H. exact H.
Qed.

Lemma drop_empty (n : nat) : drop n EmptyString = EmptyString.
Proof. destruct n; reflexivity. Qed.

Lemma drop_all (n : nat) (whole : string) :
  drop n whole = EmptyString -> forall k, drop (n + k) whole = EmptyString.
Proof.
  revert whole; induction n as [|n IH]; intros [|a w] H k; simpl in *;
    try discriminate; try reflexivity.
  - apply drop_empty.
  - apply IH; exact H.
Qed.

Lemma length_append (a b : string) :
  String.length (a ++ b) = String.length a + String.length b.
Proof. induction a as [|c a IH]; simpl; [reflexivity | now rewrite IH]. Qed.

Lemma append_empty_r (s : string) : (s ++ "")%string = s.
Proof. induction s as [|c s IH]; simpl; [reflexivity | now rewrite IH]. Qed.

Lemma append_assoc (a b c : string) : ((a ++ b) ++ c)%string = (a ++ b ++ c)%string.
Proof. induction a as [|x a IH]; simpl; [reflexivity | now rewrite IH]. Qed.

Lemma eqb_append_l (p a b : string) :
  String.eqb (p ++ a) (p ++ b) = String.eqb a b.
Proof.
  induction p as [|c p IH]; simpl; [reflexivity|].
  now rewrite Ascii.eqb_refl.
Qed.

Lemma bind_ok {A : Type} (m : result A) : bind m (fun a => Ok a) = m.
Proof. destruct m; reflexivity. Qed.

Lemma bind_assoc {A B C : Type} (m : result A) (f : A -> result B) (g : B -> result C) :
  bind (bind m f) g = bind m (fun a => bind (f a) g).
Proof. destruct m; reflexivity. Qed.

Lemma bind_ext {A B : Type} (m : result A) (f g : A -> result B) :
  (forall a, f a = g a) -> bind m f = bind m g.
Proof. intros H; destruct m; simpl; auto. Qed.

End JSFacts.

(** ** The replacement algorithm *)

Module RegExpFacts.
Import JS RegExp JSFacts.

Lemma repeatMatcher_forward m clear greedy :
  forward m -> (forall x, rest (clear x) = rest x) ->
  forall budget min max,
    forward (fun x k => repeatMatcher m clear greedy k budget min max x).
Proof.
  intros Hm Hclear. induction budget as [|budget IH]; intros min max x k1 k2 H.
  - simpl. destruct max as [[|n]|]; try reflexivity. apply H; lia.
  - assert (Hd : forall max' y,
               String.length (rest y) <= String.length (rest (clear x)) ->
               (if Nat.eqb min 0 && Nat.eqb (String.length (rest y)) (String.length (rest x))
                then None
                else repeatMatcher m clear greedy k1 budget (Nat.pred min) max' y) =
               (if Nat.eqb min 0 && Nat.eqb (String.length (rest y)) (String.length (rest x))
                then None
                else repeatMatcher m clear greedy k2 budget (Nat.pred min) max' y)).
    { intros max' y Hy. rewrite Hclear in Hy.
      destruct (Nat.eqb min 0 && _); [reflexivity|].
      apply (IH (Nat.pred min) max' y k1 k2). intros z Hz. apply H. lia. }
    assert (Hx : k1 x = k2 x) by (apply H; lia).
    cbn [repeatMatcher].
    destruct max as [[|n]|]; [exact Hx| |];
      rewrite (Hm (clear x) _ _ (Hd _)), Hx; reflexivity.
Qed.

Lemma repeatMatcher_budget m clear greedy k :
  forward m -> (forall x, rest (clear x) = rest x) ->
  forall b1 b2 min max x,
    min + String.length (rest x) < b1 ->
    min + String.length (rest x) < b2 ->
    repeatMatcher m clear greedy k b1 min max x =
    repeatMatcher m clear greedy k b2 min max x.
Proof.
  intros Hm Hclear. induction b1 as [|b1 IH]; intros b2 min max x H1 H2; [lia|].
  destruct b2 as [|b2]; [lia|].
  assert (Hd : forall max' y,
             String.length (rest y) <= String.length (rest (clear x)) ->
             (if Nat.eqb min 0 && Nat.eqb (String.length (rest y)) (String.length (rest x))
              then None
              else repeatMatcher m clear greedy k b1 (Nat.pred min) max' y) =
             (if Nat.eqb min 0 && Nat.eqb (String.length (rest y)) (String.length (rest x))
              then None
              else repeatMatcher m clear greedy k b2 (Nat.pred min) max' y)).
  { intros max' y Hy. rewrite Hclear in Hy.
    destruct (Nat.eqb min 0) eqn:Hmin;
      destruct (Nat.eqb (String.length (rest y)) (String.length (rest x))) eqn:Hlen;
      cbn [andb]; try reflexivity.
    - apply Nat.eqb_eq in Hmin. apply Nat.eqb_neq in Hlen. apply IH; lia.
    - apply Nat.eqb_neq in Hmin. apply IH; lia.
    - apply Nat.eqb_neq in Hmin. apply IH; lia. }
  cbn [repeatMatcher].
  destruct max as [[|n]|]; [reflexivity| |];
    rewrite (Hm (clear x) _ _ (Hd _)); reflexivity.
Qed.

Lemma matcher_forward ml r : forall pi, forward (matcher ml r pi).
Proof.
  induction r as [|c| |negated items|r1 IH1 r2 IH2|r1 IH1 r2 IH2
                 |min max greedy r1 IH1|r1 IH1|r1 IH1| | |];
    intros pi x k1 k2 H; cbn [matcher].
  - apply H; lia.
  - unfold step_char. destruct (rest x) as [|a s'] eqn:Hx; [reflexivity|].
    destruct (Ascii.eqb c a); [|reflexivity]. apply H. simpl. lia.
  - unfold step_char. destruct (rest x) as [|a s'] eqn:Hx; [reflexivity|].
    destruct (negb _); [|reflexivity]. apply H. simpl. lia.
  - unfold step_char. destruct (rest x) as [|a s'] eqn:Hx; [reflexivity|].
    destruct (class_matches _ _ _); [|reflexivity]. apply H. simpl. lia.
  - apply IH1. intros y Hy. apply IH2. intros z Hz. apply H. lia.
  - rewrite (IH1 pi x k1 k2 H), (IH2 _ x k1 k2 H). reflexivity.
  - apply (repeatMatcher_forward (matcher ml r1 pi) (clear_body pi (count_groups r1)) greedy
             (IH1 pi) (fun _ => eq_refl) (repeat_budget min x) min max x k1 k2 H).
  - apply IH1. intros y Hy. apply H. exact Hy.
  - destruct (matcher ml r1 pi x (fun y => Some y)); [|reflexivity]. apply H. cbn [rest]. lia.
  - destruct (xorb _ _); [|reflexivity]. apply H; lia.
  - destruct (prev x) as [c|]; [destruct (ml && _); [|reflexivity]|]; apply H; lia.
  - destruct (next_char x) as [c|]; [destruct (ml && _); [|reflexivity]|]; apply H; lia.
Qed.

(** The budget of a repetition is never what makes it fail: any larger
    budget gives the same result. *)
Lemma repeat_budget_suffices ml min max greedy r pi x k extra :
  matcher ml (Repeat min max greedy r) pi x k =
  repeatMatcher (matcher ml r pi) (clear_body pi (count_groups r)) greedy k
    (extra + repeat_budget min x) min max x.
Proof.
  cbn [matcher].
  apply repeatMatcher_budget;
    [apply matcher_forward | reflexivity | unfold repeat_budget; lia ..].
Qed.

Lemma exec_at_bound (re : RegExp.t) (b : option ascii) (s : string) n cs :
  exec_at re b s = Some (n, cs) -> n <= String.length s.
Proof.
  unfold exec_at, consumed.
  destruct (matcher _ _ _ _ _); intros H; inversion H; subst; simpl; lia.
Qed.

(** Every collected match starts at or after the first position searched. *)
Lemma execAll_index (re : RegExp.t) (s : string) :
  forall b idx skip m, In m (execAll re b s idx skip) -> idx + skip <= index m.
Proof.
  induction s as [|c s IH]; intros b idx skip m; simpl.
  - destruct (Nat.eqb skip 0) eqn:Hs.
    + apply Nat.eqb_eq in Hs; subst.
      destruct (exec_at re b "") as [[n cs]|]; simpl; [|tauto].
      intros [<-|[]]; simpl; lia.
    + simpl; tauto.
  - destruct (Nat.eqb skip 0) eqn:Hs.
    + apply Nat.eqb_eq in Hs; subst.
      destruct (exec_at re b (String c s)) as [[n cs]|]; simpl.
      * intros [<-|H]; simpl; [lia|]. apply IH in H. lia.
      * intros H. apply IH in H. simpl in H. lia.
    + apply Nat.eqb_neq in Hs. intros H. apply IH in H. lia.
Qed.

(** Moving the copy position one character forward when no match starts
    there. *)
Lemma assemble_shift (rep : replaceValue) (whole : string) ms nsp c rest :
  drop nsp whole = String c rest ->
  (forall m, In m ms -> S nsp <= index m) ->
  assemble rep whole ms nsp
  = bind (assemble rep whole ms (S nsp)) (fun t => Ok (String c t)).
Proof.
  intros Hd Hge. destruct ms as [|m ms]; cbn [assemble bind].
  - now rewrite Hd, (drop_step _ _ _ _ Hd).
  - assert (Hm : S nsp <= index m) by (apply Hge; now left).
    rewrite Hd, (drop_step _ _ _ _ Hd).
    replace (index m - nsp) with (S (index m - S nsp)) by lia.
    cbn [take]. destruct (replacement_for rep whole m); cbn [bind]; [|reflexivity].
    destruct (assemble rep whole ms _); reflexivity.
Qed.

(** No match, no change. *)
Lemma replace_no_match (re : RegExp.t) (rep : replaceValue) (text : string) :
  matches re text = [] -> RegExp.replace text re rep = Ok text.
Proof. intros H. unfold RegExp.replace. now rewrite H. Qed.

End RegExpFacts.

(** ** The stable sort *)

Module SortFacts.
Import RuleSpec.

Section ByKey.
Context {A : Type}.
Variable key : A -> Z.

  (** The comparator [(a, b) => key(b) - key(a)]. *)
Let cmp (a b : A) : Z := (key b - key a)%Z.

  (** Descending order of keys. *)
Let desc (a b : A) : Prop := (key b <= key a)%Z.

Local Abbreviation insert := (JSArray.insert cmp).
Local Abbreviation sort := (JSArray.sort cmp).

Lemma insert_perm (x : A) (l : list A) : Permutation (insert x l) (x :: l).
Proof.
    induction l as [|y l IH]; simpl; [reflexivity|].
    destruct (cmp x y <=? 0)%Z; [reflexivity|].
    rewrite IH. apply perm_swap.
Qed.

Lemma sort_perm (l : list A) : Permutation (sort l) l.
Proof.
    induction l as [|x l IH]; simpl; [reflexivity|].
    rewrite insert_perm. now constructor.
Qed.

Lemma sort_in (x : A) (l : list A) : In x (sort l) <-> In x l.
Proof.
    split; apply Permutation_in; [apply sort_perm | symmetry; apply sort_perm].
Qed.

Lemma insert_sorted (x : A) (l : list A) :
    StronglySorted desc l -> StronglySorted desc (insert x l).
Proof.
    induction 1 as [|y l Hs IH Hall]; simpl.
    - repeat constructor.
    - destruct (cmp x y <=? 0)%Z eqn:Hc.
      + apply Z.leb_le in Hc. constructor; [now constructor|].
        constructor; [unfold desc, cmp in *; lia|].
        eapply Forall_impl; [|exact Hall]. unfold desc, cmp in *; intros; lia.
      + apply Z.leb_gt in Hc. constructor; [exact IH|].
        apply Forall_forall. intros z Hz.
        apply (Permutation_in _ (insert_perm x l)) in Hz. destruct Hz as [<-|Hz].
        * unfold desc, cmp in *; lia.
        * rewrite Forall_forall in Hall. now apply Hall.
Qed.

Lemma sort_sorted (l : list A) : StronglySorted desc (sort l).
Proof.
    induction l as [|x l IH]; simpl; [constructor | now apply insert_sorted].
Qed.

  (** Sorting a sorted array leaves it as it is. *)
Lemma sort_fixpoint (l : list A) : StronglySorted desc l -> sort l = l.
Proof.
    induction 1 as [|x l Hs IH Hall]; simpl; [reflexivity|].
    rewrite IH. destruct l as [|y l]; simpl; [reflexivity|].
    inversion Hall as [|? ? Hxy _]; subst.
    unfold desc in Hxy. unfold cmp.
    destruct (key y - key x <=? 0)%Z eqn:Hc; [reflexivity|].
    apply Z.leb_gt in Hc. lia.
Qed.

Lemma sort_idempotent (l : list A) : sort (sort l) = sort l.
Proof. apply sort_fixpoint, sort_sorted. Qed.

  (** Stability, key by key: the elements of one key keep their order. *)
Lemma insert_filter (k : Z) (x : A) (l : list A) :
    filter (fun a => (key a =? k)%Z) (insert x l)
    = filter (fun a => (key a =? k)%Z) (x :: l).
Proof.
    induction l as [|y l IH]; simpl; [reflexivity|].
    destruct (cmp x y <=? 0)%Z eqn:Hc; [reflexivity|].
    apply Z.leb_gt in Hc. unfold cmp in Hc. simpl in *. rewrite IH.
    destruct (key x =? k)%Z eqn:Hx, (key y =? k)%Z eqn:Hy; try reflexivity.
    apply Z.eqb_eq in Hx, Hy. lia.
Qed.

Lemma sort_filter (k : Z) (l : list A) :
    filter (fun a => (key a =? k)%Z) (sort l) = filter (fun a => (key a =? k)%Z) l.
Proof.
    induction l as [|x l IH]; simpl; [reflexivity|].
    rewrite insert_filter. simpl. now rewrite IH.
Qed.

Lemma before_cons (a b y : A) (l : list A) : before a b l -> before a b (y :: l).
Proof.
    intros (l1 & l2 & l3 & ->). now exists (y :: l1), l2, l3.
Qed.

Lemma before_head (a b : A) (l : list A) : In b l -> before a b (a :: l).
Proof.
    intros H. apply in_split in H as (l2 & l3 & ->). now exists [], l2, l3.
Qed.

Lemma before_inv (a b y : A) (l : list A) :
    before a b (y :: l) -> (a = y /\ In b l) \/ before a b l.
Proof.
    intros (l1 & l2 & l3 & H). destruct l1 as [|z l1]; simpl in H; inversion H; subst.
    - left. split; [reflexivity|]. apply in_or_app. right. now left.
    - right. now exists l1, l2, l3.
Qed.

Lemma before_insert (a b x : A) (l : list A) :
    before a b l -> before a b (insert x l).
Proof.
    induction l as [|y l IH]; simpl; intros H.
    - destruct H as (l1 & l2 & l3 & H). now destruct l1.
    - destruct (cmp x y <=? 0)%Z; [now apply before_cons|].
      apply before_inv in H as [[-> Hb]|H].
      + apply before_head. apply (Permutation_in _ (Permutation_sym (insert_perm x l))).
        now right.
      + apply before_cons. now apply IH.
Qed.

  (** The inserted element goes before every element it does not rank below. *)
Lemma insert_before_le (x b : A) (l : list A) :
    In b l -> (key b <= key x)%Z -> before x b (insert x l).
Proof.
    induction l as [|y l IH]; simpl; intros Hb Hk; [contradiction|].
    destruct (cmp x y <=? 0)%Z eqn:Hc.
    - now apply before_head.
    - apply Z.leb_gt in Hc. unfold cmp in Hc.
      destruct Hb as [->|Hb]; [lia|]. apply before_cons. now apply IH.
Qed.

  (** ... and after every element of a sorted array that outranks it. *)
Lemma insert_after_gt (x a : A) (l : list A) :
    StronglySorted desc l -> In a l -> (key x < key a)%Z -> before a x (insert x l).
Proof.
    induction 1 as [|y l Hs IH Hall]; simpl; intros Ha Hk; [contradiction|].
    destruct (cmp x y <=? 0)%Z eqn:Hc.
    - apply Z.leb_le in Hc. unfold cmp in Hc. exfalso.
      destruct Ha as [->|Ha]; [lia|].
      rewrite Forall_forall in Hall. specialize (Hall a Ha). unfold desc in Hall. lia.
    - destruct Ha as [->|Ha].
      + apply before_head. apply (Permutation_in _ (Permutation_sym (insert_perm x l))).
        now left.
      + apply before_cons. now apply IH.
Qed.

  (** Equal keys: declaration order is preserved. *)
Lemma sort_stable (a b : A) (l : list A) :
    before a b l -> key a = key b -> before a b (sort l).
Proof.
    induction l as [|x l IH]; intros H Hk.
    - destruct H as (l1 & l2 & l3 & H). now destruct l1.
    - simpl. apply before_inv in H as [[-> Hb]|H].
      + apply insert_before_le; [now apply sort_in | lia].
      + apply before_insert. now apply IH.
Qed.

  (** Unequal keys: the higher one comes first. *)
Lemma sort_higher_first (a b : A) (l : list A) :
    In a l -> In b l -> (key b < key a)%Z -> before a b (sort l).
Proof.
    induction l as [|x l IH]; intros Ha Hb Hk; [contradiction|].
    simpl. destruct Ha as [->|Ha], Hb as [->|Hb].
    - lia.
    - apply insert_before_le; [now apply sort_in | lia].
    - apply insert_after_gt; [apply sort_sorted | now apply sort_in | exact Hk].
    - apply before_insert. now apply IH.
Qed.
End ByKey.

End SortFacts.

(** ** The applied order is the order the sort leaves *)

Module OrderFacts.
Import RuleSpec.
Local Open Scope list_scope.

Section ByKey.
Context {A : Type}.
Variable key : A -> Z.

Local Abbreviation cmp := (fun a b : A => (key b - key a)%Z).
Local Abbreviation desc := (fun a b : A => (key b <= key a)%Z).
Local Abbreviation insert := (JSArray.insert cmp).
Local Abbreviation sort := (JSArray.sort cmp).

Lemma insert_head (x : A) (l : list A) :
  Forall (fun z => (key z <= key x)%Z) l -> insert x l = x :: l.
Proof.
  intros H. destruct l as [|y l]; [reflexivity|]. cbn [JSArray.insert].
  inversion H; subst. destruct (Z.leb_spec (key y - key x) 0); [reflexivity|lia].
Qed.

Lemma Forall_filter (P : A -> Prop) (f : A -> bool) (l : list A) :
  Forall P l -> Forall P (filter f l).
Proof.
  induction 1 as [|x l Hx Hl IH]; cbn [filter]; [constructor|].
  destruct (f x); [now constructor | exact IH].
Qed.

(** Filtering commutes with the insertion into a sorted array. *)
Lemma filter_insert (f : A -> bool) (x : A) (l : list A) :
  StronglySorted desc l ->
  filter f (insert x l) = if f x then insert x (filter f l) else filter f l.
Proof.
  induction 1 as [|y l Hs IH Hall]; cbn [JSArray.insert filter].
  - now destruct (f x).
  - destruct (Z.leb_spec (key y - key x) 0) as [Hc|Hc]; cbn [filter].
    + destruct (f x) eqn:Hx; [|reflexivity].
      destruct (f y) eqn:Hy.
      * cbn [JSArray.insert].
        destruct (Z.leb_spec (key y - key x) 0); [reflexivity|lia].
      * symmetry. apply insert_head. apply Forall_filter.
        eapply Forall_impl; [|exact Hall]. cbv beta. intros; lia.
    + rewrite IH. destruct (f x) eqn:Hx, (f y) eqn:Hy; try reflexivity.
      cbn [JSArray.insert].
      destruct (Z.leb_spec (key y - key x) 0); [lia|reflexivity].
Qed.

Lemma filter_sort (f : A -> bool) (l : list A) :
  filter f (sort l) = sort (filter f l).
Proof.
  induction l as [|x l IH]; [reflexivity|].
  cbn [JSArray.sort filter].
  rewrite filter_insert by apply (SortFacts.sort_sorted key).
  rewrite IH. now destruct (f x).
Qed.

Lemma filter_below (top : Z) (l : list A) :
  Forall (fun z => (key z < top)%Z) l ->
  filter (fun a => (key a =? top)%Z) l = [] /\
  filter (fun a => negb (key a =? top)%Z) l = l.
Proof.
  induction 1 as [|y l Hy Hall [IH1 IH2]]; [now split|].
  cbn [filter]. destruct (Z.eqb_spec (key y) top); [lia|]. cbn [negb].
  now rewrite IH1, IH2.
Qed.

(** A sorted array begins with its elements of the highest key. *)
Lemma sorted_split (top : Z) (l : list A) :
  StronglySorted desc l -> Forall (fun z => (key z <= top)%Z) l ->
  l = filter (fun a => (key a =? top)%Z) l
      ++ filter (fun a => negb (key a =? top)%Z) l.
Proof.
  induction 1 as [|x l Hs IH Hall]; intros Htop; [reflexivity|].
  inversion Htop as [|? ? Hx Hl]; subst. cbn [filter].
  destruct (Z.eqb_spec (key x) top) as [Heq|Hne]; cbn [negb app].
  - f_equal. now apply IH.
  - destruct (filter_below top l) as [-> ->]; [|reflexivity].
    eapply Forall_impl; [|exact Hall]. cbv beta. intros; lia.
Qed.

Lemma highest_bound (first : A) (others : list A) :
  Forall (fun z => (key z <= highest key first others)%Z) (first :: others).
Proof.
  unfold highest. induction others as [|y others IH]; cbn [fold_right].
  - constructor; [lia|constructor].
  - inversion IH as [|? ? Hf Ho]; subst.
    constructor; [lia|]. constructor; [lia|].
    eapply Forall_impl; [|exact Ho]. cbv beta. intros; lia.
Qed.

Lemma highest_attained (first : A) (others : list A) :
  exists x, In x (first :: others) /\ key x = highest key first others.
Proof.
  unfold highest. induction others as [|y others IH]; cbn [fold_right].
  - exists first. split; [now left | reflexivity].
  - destruct IH as (x & Hx & Hk).
    destruct (Z.max_spec (key y) (fold_right (fun rule top => Z.max (key rule) top)
                                              (key first) others)) as [[_ ->]|[_ ->]].
    + exists x. split; [|exact Hk]. destruct Hx as [<-|Hx]; [now left | right; now right].
    + exists y. split; [right; now left | reflexivity].
Qed.

Lemma filter_shorter (f : A -> bool) (x : A) (l : list A) :
  In x l -> f x = false -> List.length (filter f l) < List.length l.
Proof.
  induction l as [|y l IH]; [contradiction|]. intros [->|Hx] Hf; cbn [filter List.length].
  - rewrite Hf. pose proof (filter_length_le f l). lia.
  - specialize (IH Hx Hf). destruct (f y); cbn [List.length]; lia.
Qed.

Lemma sort_orderFrom (rounds : nat) (l : list A) :
  List.length l <= rounds -> sort l = orderFrom key rounds l.
Proof.
  revert l. induction rounds as [|rounds IH]; intros l Hlen.
  - destruct l; [reflexivity | cbn [List.length] in Hlen; lia].
  - destruct l as [|first others]; [reflexivity|].
    cbn [orderFrom]. set (top := highest key first others).
    rewrite (sorted_split top (sort (first :: others))).
    + rewrite (SortFacts.sort_filter key), filter_sort. f_equal.
      apply IH.
      destruct (highest_attained first others) as (x & Hx & Hk). fold top in Hk.
      assert (Hlt : List.length (filter (fun a => negb (key a =? top)%Z) (first :: others))
                    < List.length (first :: others)).
      { apply (filter_shorter _ x); [exact Hx|]. now rewrite Hk, Z.eqb_refl. }
      lia.
    + apply (SortFacts.sort_sorted key).
    + pose proof (highest_bound first others) as Hb. fold top in Hb.
      rewrite Forall_forall in *. intros z Hz. apply Hb.
      now apply (SortFacts.sort_in key).
Qed.

(** The array the sort leaves is the applied order. *)
Lemma sort_appliedOrder (l : list A) : sort l = appliedOrder key l.
Proof. apply sort_orderFrom. reflexivity. Qed.

End ByKey.

End OrderFacts.

(** ** Conditions *)

Module ConditionFacts.
Import JS MigrationRulesEngine RuleSpec.

Lemma prefix_startsWith (p s : string) : String.prefix p s = startsWith s p.
Proof.
  revert s. induction p as [|a p IH]; intros [|b s]; cbn [String.prefix startsWith];
    try reflexivity.
  destruct (ascii_dec a b) as [->|Hne].
  - now rewrite Ascii.eqb_refl, IH.
  - destruct (Ascii.eqb_spec b a) as [->|_]; [contradiction | reflexivity].
Qed.

Lemma occurs_includes (needle s : string) : occurs needle s = includes s needle.
Proof.
  unfold occurs. induction s as [|c s IH]; cbn [suffixes existsb includes].
  - now rewrite prefix_startsWith, !orb_false_r.
  - now rewrite prefix_startsWith, IH.
Qed.

Lemma drop_length_suffixes (s : string) :
  forall t, In t (suffixes s) -> String.length t <= String.length s.
Proof.
  induction s as [|c s IH]; cbn [suffixes In]; intros t [<-|H]; try contradiction;
    cbn [String.length]; try lia.
  specialize (IH t H). lia.
Qed.

Lemma hasSuffix_short (suffix s : string) :
  String.length s < String.length suffix -> hasSuffix suffix s = false.
Proof.
  intros Hlen. unfold hasSuffix.
  destruct (existsb (String.eqb suffix) (suffixes s)) eqn:He; [|reflexivity].
  apply existsb_exists in He as (t & Ht & Heq). apply String.eqb_eq in Heq. subst t.
  apply drop_length_suffixes in Ht. lia.
Qed.

Lemma hasSuffix_endsWith (suffix s : string) : hasSuffix suffix s = endsWith s suffix.
Proof.
  induction s as [|c s IH].
  - unfold hasSuffix, endsWith. cbn [suffixes existsb String.length drop Nat.sub].
    rewrite orb_false_r.
    destruct suffix as [|a suffix]; [reflexivity|]. reflexivity.
  - unfold hasSuffix in *. cbn [suffixes existsb]. fold (suffixes s). rewrite IH.
    unfold endsWith. cbn [String.length].
    destruct (Nat.leb_spec (String.length suffix) (String.length s)) as [Hle|Hgt].
    + (* the suffix fits in the tail *)
      replace (String.length suffix <=? S (String.length s))%nat with true
        by (symmetry; apply Nat.leb_le; lia).
      replace (S (String.length s) - String.length suffix)
        with (S (String.length s - String.length suffix)) by lia.
      cbn [drop andb].
      destruct (String.eqb_spec suffix (String c s)) as [->|_]; [|reflexivity].
      cbn [String.length] in Hle. lia.
    + cbn [andb]. rewrite orb_false_r.
      destruct (Nat.leb_spec (String.length suffix) (S (String.length s))) as [Hle|Hgt'].
      * assert (Heq : String.length suffix = S (String.length s)) by lia.
        rewrite Heq, Nat.sub_diag. cbn [drop andb]. apply String.eqb_sym.
      * cbn [andb]. destruct (String.eqb_spec suffix (String c s)) as [->|_]; [|reflexivity].
        cbn [String.length] in Hgt'. lia.
Qed.

(** The declarative reading of the two tests. *)
Lemma prefix_append (p s : string) :
  String.prefix p s = true <-> exists b, s = p ++ b.
Proof.
  revert s. induction p as [|a p IH]; intros s.
  - split; [intros _; now exists s | intros _; now destruct s].
  - destruct s as [|b s]; cbn [String.prefix].
    + split; [discriminate | intros (t & H); discriminate].
    + destruct (ascii_dec a b) as [->|Hne].
      * rewrite IH. split; intros (t & H); exists t.
        -- cbn [append]. now rewrite H.
        -- cbn [append] in H. now injection H.
      * split; [discriminate|]. intros (t & H). cbn [append] in H.
        injection H as H _. now symmetry in H.
Qed.

Lemma suffixes_append (t s : string) :
  In t (suffixes s) <-> exists a, s = a ++ t.
Proof.
  induction s as [|c s IH]; cbn [suffixes In].
  - split.
    + intros [<-|[]]. now exists "".
    + intros ([|x a] & H); cbn [append] in H; [now left | discriminate].
  - rewrite IH. split.
    + intros [<-|(a & ->)]; [now exists "" | now exists (String c a)].
    + intros ([|x a] & H); cbn [append] in H; [now left|].
      right. injection H as _ ->. now exists a.
Qed.

Lemma occurs_spec (needle s : string) :
  occurs needle s = true <-> exists a b, s = a ++ needle ++ b.
Proof.
  unfold occurs. rewrite existsb_exists. split.
  - intros (t & Ht & Hp). apply suffixes_append in Ht as (a & ->).
    apply prefix_append in Hp as (b & ->). now exists a, b.
  - intros (a & b & ->). exists (needle ++ b). split.
    + apply suffixes_append. now exists a.
    + apply prefix_append. now exists b.
Qed.

Lemma hasSuffix_spec (suffix s : string) :
  hasSuffix suffix s = true <-> exists a, s = a ++ suffix.
Proof.
  unfold hasSuffix. rewrite existsb_exists. split.
  - intros (t & Ht & Heq). apply String.eqb_eq in Heq. subst t.
    now apply suffixes_append.
  - intros H. exists suffix. split; [now apply suffixes_append | apply String.eqb_refl].
Qed.

Lemma conditionMet_holds (condition : MigrationCondition) (context : MigrationContext) :
  conditionMet condition context = true <-> holds condition context.
Proof.
  unfold conditionMet, holds. destruct (ctype condition).
  - apply occurs_spec.
  - rewrite negb_true_iff, <- not_true_iff_false. now rewrite occurs_spec.
  - apply hasSuffix_spec.
  - rewrite String.eqb_eq. split; congruence.
Qed.

Lemma conditionsHold_holds (rule : MigrationRule) (context : MigrationContext) :
  conditionsHold rule context = true
  <-> forall condition, In condition (conditionsOf rule) -> holds condition context.
Proof.
  unfold conditionsHold. rewrite forallb_forall.
  split; intros H c Hc; apply conditionMet_holds, H, Hc.
Qed.

Lemma conditionMet_code (condition : MigrationCondition) (context : MigrationContext) :
  conditionHolds condition context = conditionMet condition context.
Proof.
  unfold conditionHolds, conditionMet. destruct (ctype condition).
  - now rewrite occurs_includes.
  - now rewrite occurs_includes.
  - now rewrite hasSuffix_endsWith.
  - apply String.eqb_sym.
Qed.

Lemma shouldApplyRule_spec (rule : MigrationRule) (context : MigrationContext) :
  shouldApplyRule rule context = conditionsHold rule context.
Proof.
  unfold shouldApplyRule, conditionsHold, conditionsOf.
  destruct (conditions rule) as [cs|]; [|reflexivity].
  induction cs as [|c cs IH]; [reflexivity|].
  cbn [allConditionsHold forallb]. rewrite conditionMet_code, IH.
  now destruct (conditionMet c context).
Qed.

End ConditionFacts.

(** ** The matcher finds the best way of matching *)

Module MatchFacts.
Import JS RegExp JSFacts RuleSpec.

Lemma substring_take (n : nat) (s : string) : String.substring 0 n s = take n s.
Proof.
  revert s. induction n as [|n IH]; intros [|c s]; cbn [String.substring take];
    try reflexivity.
  now rewrite IH.
Qed.

Lemma substring_whole (s : string) : String.substring 0 (String.length s) s = s.
Proof. induction s as [|c s IH]; cbn [String.substring String.length]; congruence. Qed.

Lemma substring_drop (n : nat) (s : string) :
  String.substring n (String.length s - n) s = drop n s.
Proof.
  revert s. induction n as [|n IH]; intros s.
  - rewrite Nat.sub_0_r. apply substring_whole.
  - destruct s as [|c s]; [reflexivity|]. cbn [String.substring String.length drop Nat.sub].
    apply IH.
Qed.

Lemma store_set_cap (i : nat) (v : option string) (cs : list (option string)) :
  set_cap i v cs = store i v cs.
Proof.
  revert i. induction cs as [|c cs IH]; intros i; [now destruct i|].
  destruct i as [|i]; [reflexivity|].
  cbn [set_cap]. rewrite IH. unfold store. cbn [List.length firstn skipn].
  change (S i <? S (List.length cs))%nat with (i <? List.length cs)%nat.
  now destruct (i <? List.length cs)%nat.
Qed.

Lemma forget_none (from : nat) (cs : list (option string)) : forget from 0 cs = cs.
Proof.
  revert from. induction cs as [|c cs IH]; intros [|from]; cbn [forget]; try reflexivity.
  now rewrite IH.
Qed.

Lemma forget_step (from count : nat) (cs : list (option string)) :
  forget (S from) count (set_cap from None cs) = forget from (S count) cs.
Proof.
  revert from. induction cs as [|c cs IH]; intros [|from]; cbn [set_cap forget];
    try reflexivity.
  now rewrite IH.
Qed.

Lemma forget_clear_caps (from count : nat) (cs : list (option string)) :
  clear_caps from count cs = forget from count cs.
Proof.
  revert from cs. induction count as [|count IH]; intros from cs; cbn [clear_caps].
  - symmetry. apply forget_none.
  - rewrite IH. apply forget_step.
Qed.

Lemma firstOf_app (k : mstate -> option mstate) (l1 l2 : list mstate) :
  firstOf k (l1 ++ l2)
  = match firstOf k l1 with
    | Some z => Some z
    | None => firstOf k l2
    end.
Proof.
  induction l1 as [|y l1 IH]; cbn [app firstOf]; [reflexivity|].
  now destruct (k y).
Qed.

Lemma firstOf_ext (k1 k2 : mstate -> option mstate) (l : list mstate) :
  (forall y, k1 y = k2 y) -> firstOf k1 l = firstOf k2 l.
Proof.
  intros H. induction l as [|y l IH]; cbn [firstOf]; [reflexivity|].
  now rewrite H, IH.
Qed.

Lemma firstOf_flat_map (k : mstate -> option mstate) (f : mstate -> list mstate)
      (l : list mstate) :
  firstOf k (flat_map f l) = firstOf (fun y => firstOf k (f y)) l.
Proof.
  induction l as [|y l IH]; cbn [flat_map firstOf]; [reflexivity|].
  now rewrite firstOf_app, IH.
Qed.

Lemma firstOf_map (k : mstate -> option mstate) (f : mstate -> mstate) (l : list mstate) :
  firstOf k (map f l) = firstOf (fun y => k (f y)) l.
Proof.
  induction l as [|y l IH]; cbn [map firstOf]; [reflexivity|].
  now rewrite IH.
Qed.

Lemma firstOf_one (k : mstate -> option mstate) (x : mstate) : firstOf k [x] = k x.
Proof. cbn [firstOf]. now destruct (k x). Qed.

Lemma lineTerminator_code (c : ascii) : is_line_terminator c = lineTerminator c.
Proof. destruct c as [[] [] [] [] [] [] [] []]; reflexivity. Qed.

Lemma whiteSpace_code (c : ascii) : is_space c = whiteSpace c.
Proof. destruct c as [[] [] [] [] [] [] [] []]; reflexivity. Qed.

Lemma digitChar_code (c : ascii) : is_digit c = digitChar c.
Proof. destruct c as [[] [] [] [] [] [] [] []]; reflexivity. Qed.

Lemma wordCharacter_code (c : ascii) : is_word c = wordCharacter c.
Proof. destruct c as [[] [] [] [] [] [] [] []]; reflexivity. Qed.

Lemma classAccepts_code (negated : bool) (items : list citem) (c : ascii) :
  class_matches negated items c = classAccepts negated items c.
Proof.
  unfold class_matches, classAccepts.
  assert (H : existsb (fun i => citem_matches i c) items = existsb (itemAccepts c) items).
  { induction items as [|i items IH]; [reflexivity|]. cbn [existsb]. rewrite IH. f_equal.
    destruct i; cbn [citem_matches itemAccepts];
      rewrite ?whiteSpace_code, ?wordCharacter_code, ?digitChar_code; reflexivity. }
  rewrite H. now destruct negated.
Qed.

Lemma groupsIn_code (r : regex) : count_groups r = groupsIn r.
Proof. induction r; simpl; congruence. Qed.

Lemma step_char_oneChar (ok ok' : ascii -> bool) (x : mstate)
      (k : mstate -> option mstate) :
  (forall a, ok a = ok' a) -> step_char x ok k = firstOf k (oneChar ok' x).
Proof.
  intros Hok. unfold step_char, oneChar. destruct (rest x) as [|a more]; [reflexivity|].
  rewrite Hok. destruct (ok' a); [|reflexivity]. now rewrite firstOf_one.
Qed.

Lemma repeatMatcher_repetitions
      (m : mstate -> (mstate -> option mstate) -> option mstate)
      (body : mstate -> list mstate) (clear blank : mstate -> mstate)
      (greedy : bool) (k : mstate -> option mstate) :
  (forall x k', m x k' = firstOf k' (body x)) ->
  (forall x, clear x = blank x) ->
  forall budget min max x,
    repeatMatcher m clear greedy k budget min max x
    = firstOf k (repetitions body blank greedy budget min max x).
Proof.
  intros Hm Hclear. induction budget as [|budget IH]; intros min max x.
  - cbn [repeatMatcher repetitions]. destruct max as [[|n]|]; try reflexivity.
    now rewrite firstOf_one.
  - cbn [repeatMatcher repetitions].
    assert (Hagain :
      forall max',
        m (clear x)
          (fun y =>
             if Nat.eqb min 0 && Nat.eqb (String.length (rest y)) (String.length (rest x))
             then None
             else repeatMatcher m clear greedy k budget (Nat.pred min) max' y)
        = firstOf k
            (flat_map
               (fun y =>
                  if Nat.eqb min 0 && Nat.eqb (String.length (rest y)) (String.length (rest x))
                  then []
                  else repetitions body blank greedy budget (Nat.pred min) max' y)
               (body (blank x)))).
    { intros max'. rewrite Hm, Hclear, firstOf_flat_map. apply firstOf_ext. intros y.
      destruct (Nat.eqb min 0 && _); [reflexivity | apply IH]. }
    destruct max as [[|n]|]; [now rewrite firstOf_one| |];
      rewrite Hagain; destruct (negb (Nat.eqb min 0)); try reflexivity;
      destruct greedy; rewrite ?firstOf_app, ?firstOf_one; cbn [firstOf]; reflexivity.
Qed.

(** The matcher returns what the continuation makes of the first way it
    accepts. *)
Lemma matcher_ways (ml : bool) (r : regex) :
  forall pi x k, matcher ml r pi x k = firstOf k (ways ml r pi x).
Proof.
  induction r as [|c| |negated items|r1 IH1 r2 IH2|r1 IH1 r2 IH2
                 |min max greedy r1 IH1|r1 IH1|r1 IH1| | |];
    intros pi x k; cbn [matcher ways]; rewrite <- ?groupsIn_code.
  - now rewrite firstOf_one.
  - now apply step_char_oneChar.
  - apply step_char_oneChar. intros a. now rewrite lineTerminator_code.
  - apply step_char_oneChar. intros a. apply classAccepts_code.
  - rewrite IH1, firstOf_flat_map. apply firstOf_ext. intros y. apply IH2.
  - now rewrite IH1, IH2, firstOf_app.
  - apply repeatMatcher_repetitions; [apply IH1|].
    intros y. unfold clear_body. now rewrite forget_clear_caps.
  - rewrite IH1, firstOf_map. apply firstOf_ext. intros y.
    unfold textBetween, consumed. now rewrite substring_take, store_set_cap.
  - rewrite IH1. destruct (ways ml r1 pi x) as [|y others]; [reflexivity|].
    now rewrite firstOf_one.
  - assert (Hword : forall o, at_word o = wordChar o)
      by (intros [c|]; [apply wordCharacter_code | reflexivity]).
    rewrite !Hword. change (next_char x) with (following x).
    destruct (xorb _ _); [now rewrite firstOf_one | reflexivity].
  - unfold lineBreak. destruct (prev x) as [c|]; [|now rewrite firstOf_one].
    rewrite lineTerminator_code.
    destruct (ml && _); [now rewrite firstOf_one | reflexivity].
  - unfold lineBreak. change (next_char x) with (following x).
    destruct (following x) as [c|]; [|now rewrite firstOf_one].
    rewrite lineTerminator_code.
    destruct (ml && _); [now rewrite firstOf_one | reflexivity].
Qed.

Lemma matchAt_code (re : RegExp.t) (before : option ascii) (s : string) :
  exec_at re before s = matchAt re before s.
Proof.
  unfold exec_at, matchAt. rewrite matcher_ways, groupsIn_code.
  destruct (ways _ _ _ _) as [|y others]; reflexivity.
Qed.

End MatchFacts.

(** ** The replacement of a match *)

Module ReplacementFacts.
Import JS RegExp JSFacts RuleSpec MatchFacts.

Lemma digitOf_code (d : ascii) :
  digitOf d = if is_digit d then Some (digit_value d) else None.
Proof. destruct d as [[] [] [] [] [] [] [] []]; reflexivity. Qed.

Lemma captured_code (i : nat) (m : match_result) :
  match nth_error (captures m) i with
  | Some (Some text) => text
  | _ => EmptyString
  end = capture_text i m.
Proof.
  unfold capture_text. generalize (captures m). intros cs. revert i.
  induction cs as [|c cs IH]; intros [|i]; cbn [nth_error nth]; try reflexivity.
  apply IH.
Qed.

Lemma pieces_unfold (groups : nat) (c : ascii) (t1 : string) :
  pieces groups (String c t1)
  = if Ascii.eqb c "$" then
      match t1 with
      | EmptyString => [Verbatim "$"]
      | String d t2 =>
          if Ascii.eqb d "$" then Verbatim "$" :: pieces groups t2
          else if Ascii.eqb d "&" then WholeMatch :: pieces groups t2
          else if Ascii.eqb d "`" then Preceding :: pieces groups t2
          else if Ascii.eqb d "'" then Following :: pieces groups t2
          else
            match digitOf d with
            | None => Verbatim "$" :: pieces groups t1
            | Some n1 =>
                let oneDigit :=
                  if isGroup groups n1 then Captured n1 :: pieces groups t2
                  else Verbatim "$" :: Verbatim d :: pieces groups t2 in
                match t2 with
                | EmptyString => oneDigit
                | String e t3 =>
                    match digitOf e with
                    | None => oneDigit
                    | Some n2 =>
                        if isGroup groups (10 * n1 + n2)
                        then Captured (10 * n1 + n2) :: pieces groups t3
                        else oneDigit
                    end
                end
            end
      end
    else Verbatim c :: pieces groups t1.
Proof. destruct t1 as [|d [|e t3]]; reflexivity. Qed.

Lemma getSubstitution_unfold (m : match_result) (str : string) (c : ascii) (t1 : string) :
  getSubstitution m str (String c t1)
  = if negb (Ascii.eqb c "$") then String c (getSubstitution m str t1)
    else
      match t1 with
      | EmptyString => "$"
      | String d t2 =>
          if Ascii.eqb d "$" then String "$" (getSubstitution m str t2)
          else if Ascii.eqb d "&" then (matched m ++ getSubstitution m str t2)%string
          else if Ascii.eqb d "`" then (take (index m) str ++ getSubstitution m str t2)%string
          else if Ascii.eqb d "'" then
            (drop (index m + String.length (matched m)) str ++ getSubstitution m str t2)%string
          else if is_digit d then
            let n1 := digit_value d in
            let ncap := List.length (captures m) in
            let one :=
              if (Nat.leb 1 n1 && Nat.leb n1 ncap)%bool
              then (capture_text (n1 - 1) m ++ getSubstitution m str t2)%string
              else String "$" (String d (getSubstitution m str t2)) in
            match t2 with
            | String e t3 =>
                if is_digit e then
                  let n2 := 10 * n1 + digit_value e in
                  if (Nat.leb 1 n2 && Nat.leb n2 ncap)%bool
                  then (capture_text (n2 - 1) m ++ getSubstitution m str t3)%string
                  else one
                else one
            | EmptyString => one
            end
          else String "$" (getSubstitution m str t1)
      end.
Proof. destruct t1 as [|d [|e t3]]; reflexivity. Qed.

Lemma render_cons (m : match_result) (whole : string) (p : piece) (ps : list piece) :
  render m whole (p :: ps) = (pieceText m whole p ++ render m whole ps)%string.
Proof. reflexivity. Qed.

Lemma render_pieces (m : match_result) (whole : string) :
  forall n template,
    String.length template <= n ->
    render m whole (pieces (List.length (captures m)) template)
    = getSubstitution m whole template.
Proof.
  induction n as [|n IH]; intros template Hlen.
  - destruct template; [reflexivity | cbn [String.length] in Hlen; lia].
  - destruct template as [|c t1]; [reflexivity|].
    cbn [String.length] in Hlen.
    rewrite pieces_unfold, getSubstitution_unfold.
    destruct (Ascii.eqb c "$"); cbn [negb].
    2:{ rewrite render_cons, IH by lia. reflexivity. }
    destruct t1 as [|d t2]; [reflexivity|].
    cbn [String.length] in Hlen.
    assert (H1 : render m whole (pieces (List.length (captures m)) (String d t2))
                 = getSubstitution m whole (String d t2))
      by (apply IH; cbn [String.length]; lia).
    assert (H2 : render m whole (pieces (List.length (captures m)) t2)
                 = getSubstitution m whole t2) by (apply IH; lia).
    destruct (Ascii.eqb d "$"); [now rewrite render_cons, H2|].
    destruct (Ascii.eqb d "&"); [now rewrite render_cons, H2|].
    destruct (Ascii.eqb d "`");
      [rewrite render_cons, H2; cbn [pieceText]; now rewrite substring_take|].
    destruct (Ascii.eqb d "'");
      [rewrite render_cons, H2; cbn [pieceText]; now rewrite substring_drop|].
    rewrite digitOf_code. destruct (is_digit d); [|now rewrite render_cons, H1].
    cbv zeta. unfold isGroup.
    assert (Hone :
      render m whole
        (if Nat.leb 1 (digit_value d) && Nat.leb (digit_value d) (List.length (captures m))
         then Captured (digit_value d) :: pieces (List.length (captures m)) t2
         else Verbatim "$" :: Verbatim d :: pieces (List.length (captures m)) t2)
      = if Nat.leb 1 (digit_value d) && Nat.leb (digit_value d) (List.length (captures m))
        then (capture_text (digit_value d - 1) m ++ getSubstitution m whole t2)%string
        else String "$" (String d (getSubstitution m whole t2))).
    { destruct (Nat.leb 1 (digit_value d) && _).
      - rewrite render_cons, H2. cbn [pieceText]. now rewrite captured_code.
      - rewrite !render_cons, H2. reflexivity. }
    destruct t2 as [|e t3]; [exact Hone|].
    rewrite digitOf_code. destruct (is_digit e); [|exact Hone].
    destruct (Nat.leb 1 (10 * digit_value d + digit_value e) && _); [|exact Hone].
    cbn [String.length] in Hlen.
    rewrite render_cons, IH by lia. cbn [pieceText]. now rewrite captured_code.
Qed.

Lemma expand_code (m : match_result) (whole template : string) :
  getSubstitution m whole template = expand m whole template.
Proof. symmetry. now apply (render_pieces m whole (String.length template)). Qed.

Lemma groupValue_code (cs : list (option string)) :
  map capture_value cs = map groupValue cs.
Proof. apply map_ext. now intros [text|]. Qed.

Lemma replacementText_code (rep : replaceValue) (whole : string) (m : match_result) :
  replacement_for rep whole m = replacementText rep whole m.
Proof.
  destruct rep as [template|f]; cbn [replacement_for replacementText].
  - now rewrite expand_code.
  - now rewrite groupValue_code.
Qed.

End ReplacementFacts.

(** ** [String.prototype.replace] computes the substitution *)

Module SubstitutionFacts.
Import JS RegExp JSFacts RegExpFacts RuleSpec MatchFacts ReplacementFacts.

Lemma drop_drop (n k : nat) (s : string) : drop (n + k) s = drop k (drop n s).
Proof.
  revert s. induction n as [|n IH]; intros s; [reflexivity|].
  destruct s as [|c s]; cbn [Nat.add drop]; [now rewrite drop_empty | apply IH].
Qed.

(** One step of the walk, in the terms of the matcher. *)
Lemma substituteAll_step (re : RegExp.t) (rep : replaceValue) (whole : string)
      (b : option ascii) (s : string) (idx skip : nat) :
  substituteAll re rep whole b s idx skip
  = match (if Nat.eqb skip 0 then exec_at re b s else None) with
    | Some (n, cs) =>
        bind (replacement_for rep whole (Match idx (take n s) cs)) (fun r =>
        bind match s with
             | EmptyString => Ok EmptyString
             | String c s' =>
                 bind (substituteAll re rep whole (Some c) s' (S idx) (Nat.pred n))
                      (fun tail => Ok (if Nat.eqb n 0 then String c tail else tail))
             end (fun tail => Ok (r ++ tail)))
    | None =>
        match s with
        | EmptyString => Ok EmptyString
        | String c s' =>
            bind (substituteAll re rep whole (Some c) s' (S idx) (Nat.pred skip))
                 (fun tail => Ok (if Nat.eqb skip 0 then String c tail else tail))
        end
    end.
Proof.
  rewrite matchAt_code.
  destruct s as [|c s]; cbn [substituteAll];
    (destruct (if Nat.eqb skip 0 then matchAt re b _ else None) as [[n cs]|];
     [now rewrite replacementText_code, substring_take | reflexivity]).
Qed.

(** The two-phase algorithm of [replace] computes the left-to-right
    substitution. *)
Lemma assemble_execAll (re : RegExp.t) (rep : replaceValue) (whole : string) (s : string) :
  forall b idx skip,
    drop idx whole = s ->
    assemble rep whole (execAll re b s idx skip) (idx + skip)
    = substituteAll re rep whole b s idx skip.
Proof.
  induction s as [|c s IH]; intros b idx skip Hd; rewrite substituteAll_step;
    cbn [execAll].
  - destruct (Nat.eqb skip 0) eqn:Hs.
    + apply Nat.eqb_eq in Hs; subst skip.
      destruct (exec_at re b "") as [[n cs]|] eqn:He; cbn [assemble].
      * apply exec_at_bound in He; simpl in He. assert (n = 0) by lia; subst n.
        cbn [index matched take String.length].
        rewrite !Nat.add_0_r, Nat.sub_diag, Hd. simpl.
        destruct (replacement_for _ _ _); reflexivity.
      * now rewrite Nat.add_0_r, Hd.
    + cbn [assemble]. now rewrite (drop_all _ _ Hd).
  - destruct (Nat.eqb skip 0) eqn:Hs.
    + apply Nat.eqb_eq in Hs; subst skip. rewrite Nat.add_0_r.
      destruct (exec_at re b (String c s)) as [[n cs]|] eqn:He.
      * pose proof (exec_at_bound _ _ _ _ _ He) as Hn.
        cbn [assemble index matched]. rewrite Nat.sub_diag.
        rewrite (length_take _ _ Hn).
        cbn [take]. apply bind_ext; intros r.
        destruct n as [|n].
        -- rewrite Nat.add_0_r. cbn [Nat.pred Nat.eqb].
           rewrite (assemble_shift rep whole _ idx c s Hd).
           2:{ intros m Hm. apply execAll_index in Hm. lia. }
           rewrite <- (IH (Some c) (S idx) 0 (drop_step _ _ _ _ Hd)).
           rewrite Nat.add_0_r.
           destruct (assemble rep whole _ (S idx)); reflexivity.
        -- cbn [Nat.pred Nat.eqb].
           rewrite <- (IH (Some c) (S idx) n (drop_step _ _ _ _ Hd)).
           replace (idx + S n) with (S idx + n) by lia.
           destruct (assemble rep whole _ (S idx + n)); reflexivity.
      * rewrite (assemble_shift rep whole _ idx c s Hd).
        2:{ intros m Hm. apply execAll_index in Hm. simpl in Hm. lia. }
        cbn [Nat.pred].
        rewrite <- (IH (Some c) (S idx) 0 (drop_step _ _ _ _ Hd)).
        now rewrite Nat.add_0_r.
    + apply Nat.eqb_neq in Hs.
      rewrite <- (IH (Some c) (S idx) (Nat.pred skip) (drop_step _ _ _ _ Hd)).
      replace (S idx + Nat.pred skip) with (idx + skip) by lia.
      destruct (assemble rep whole _ (idx + skip)); reflexivity.
Qed.

Lemma replace_global (re : RegExp.t) (rep : replaceValue) (text : string) :
  global re = true -> RegExp.replace text re rep = globalSubstitution re rep text.
Proof.
  intros Hg. unfold RegExp.replace, matches, globalSubstitution. rewrite Hg.
  exact (assemble_execAll re rep text text None 0 0 eq_refl).
Qed.

Lemma substituteFirst_step (re : RegExp.t) (rep : replaceValue) (whole : string)
      (b : option ascii) (s : string) (idx : nat) :
  substituteFirst re rep whole b s idx
  = match exec_at re b s with
    | Some (n, cs) =>
        bind (replacement_for rep whole (Match idx (take n s) cs)) (fun r =>
        Ok (r ++ drop n s))
    | None =>
        match s with
        | EmptyString => Ok EmptyString
        | String c s' =>
            bind (substituteFirst re rep whole (Some c) s' (S idx))
                 (fun tail => Ok (String c tail))
        end
    end.
Proof.
  rewrite matchAt_code.
  destruct s as [|c s]; cbn [substituteFirst];
    (destruct (matchAt re b _) as [[n cs]|];
     [now rewrite replacementText_code, substring_take, substring_drop | reflexivity]).
Qed.

(** The leftmost match, replaced: what [replace] does without the [g] flag. *)
Lemma search_substituteFirst (re : RegExp.t) (rep : replaceValue) (whole : string)
      (s : string) :
  forall b idx,
    drop idx whole = s ->
    match search re b s idx with
    | Some m =>
        bind (replacement_for rep whole m) (fun r =>
        Ok (take (index m - idx) s ++ r ++ drop (index m + String.length (matched m)) whole))
    | None => Ok s
    end = substituteFirst re rep whole b s idx.
Proof.
  induction s as [|c s IH]; intros b idx Hd; rewrite substituteFirst_step; cbn [search].
  - destruct (exec_at re b "") as [[n cs]|] eqn:He; [|reflexivity].
    pose proof (exec_at_bound _ _ _ _ _ He) as Hn. cbn [String.length] in Hn.
    assert (n = 0) by lia; subst n.
    cbn [index matched take String.length]. rewrite Nat.sub_diag, Nat.add_0_r, Hd.
    reflexivity.
  - destruct (exec_at re b (String c s)) as [[n cs]|] eqn:He.
    + pose proof (exec_at_bound _ _ _ _ _ He) as Hn.
      cbn [index matched]. rewrite Nat.sub_diag, (length_take _ _ Hn), drop_drop, Hd.
      reflexivity.
    + specialize (IH (Some c) (S idx) (drop_step _ _ _ _ Hd)).
      rewrite <- IH.
      destruct (search re (Some c) s (S idx)) as [m|] eqn:Hm; [|reflexivity].
      assert (Hidx : S idx <= index m).
      { clear - Hm. revert Hm. generalize (Some c) as b0, (S idx) as i.
        induction s as [|a s IHs]; intros b0 i; cbn [search].
        - destruct (exec_at re b0 "") as [[n cs]|]; [|discriminate].
          intros H; injection H as <-. cbn [index]. lia.
        - destruct (exec_at re b0 (String a s)) as [[n cs]|].
          + intros H; injection H as <-. cbn [index]. lia.
          + intros H. apply IHs in H. lia. }
      replace (index m - idx) with (S (index m - S idx)) by lia. cbn [take].
      destruct (replacement_for rep whole m); reflexivity.
Qed.

Lemma replace_first (re : RegExp.t) (rep : replaceValue) (text : string) :
  global re = false -> RegExp.replace text re rep = firstSubstitution re rep text.
Proof.
  intros Hg. unfold RegExp.replace, matches, firstSubstitution. rewrite Hg.
  rewrite <- (search_substituteFirst re rep text text None 0 eq_refl).
  destruct (search re None text 0) as [m|]; cbn [assemble]; [|reflexivity].
  rewrite Nat.sub_0_r. cbn [drop bind].
  destruct (replacement_for rep text m); reflexivity.
Qed.

(** [content.replace(pattern, replacement)] is the substitution. *)
Lemma replace_substitution (re : RegExp.t) (rep : replaceValue) (text : string) :
  RegExp.replace text re rep = substitution re rep text.
Proof.
  unfold substitution. destruct (global re) eqn:Hg;
    [now apply replace_global | now apply replace_first].
Qed.

End SubstitutionFacts.

(** ** The rule engine *)

Module EngineFacts.
Import JS RegExp MigrationRulesEngine RuleSpec JSFacts RegExpFacts.
Import OrderFacts ConditionFacts SubstitutionFacts.
Local Open Scope list_scope.

Lemma sortRules_in (r : MigrationRule) (rules : list MigrationRule) :
  In r (sortRules rules) <-> In r rules.
Proof. apply (SortFacts.sort_in priority). Qed.

Lemma sortRules_idempotent (rules : list MigrationRule) :
  sortRules (sortRules rules) = sortRules rules.
Proof. apply (SortFacts.sort_idempotent priority). Qed.

Lemma sortRules_appliedOrder (rules : list MigrationRule) :
  sortRules rules = appliedOrder priority rules.
Proof. apply (sort_appliedOrder priority). Qed.

Lemma appliedOrder_in (rs : list MigrationRule) (r : MigrationRule) :
  In r (appliedOrder priority rs) <-> In r rs.
Proof. rewrite <- sortRules_appliedOrder. apply sortRules_in. Qed.

Lemma applyRule_replace (this : This) (rule : MigrationRule) (content : string)
      (context : MigrationContext) :
  applyRule this rule content context
  = RegExp.replace content (pattern rule) (toRegExpReplacement this (replacement rule)).
Proof. unfold applyRule, toRegExpReplacement. now destruct (replacement rule). Qed.

Lemma applyRule_substitution (this : This) (rule : MigrationRule) (content : string)
      (context : MigrationContext) :
  applyRule this rule content context
  = substitution (pattern rule) (replacementOf this rule) content.
Proof.
  unfold applyRule, replacementOf.
  destruct (replacement rule); apply replace_substitution.
Qed.

Lemma foldRules_app {R : Type} (step : string -> R -> result string) (l1 l2 : list R)
      (text : string) :
  foldRules step (l1 ++ l2) text = bind (foldRules step l1 text) (foldRules step l2).
Proof.
  revert text. induction l1 as [|r l1 IH]; intros text; cbn [app foldRules bind];
    [reflexivity|].
  rewrite bind_assoc. apply bind_ext. intros text'. apply IH.
Qed.

(** The loop, forgetting its bookkeeping of rule ids, is the fold. *)
Lemma loop_is_fold (this : This) (context : MigrationContext)
      (rs : list MigrationRule) :
  forall text applied,
    bind (applyRules_loop this context rs text applied) (fun st => Ok (fst st))
    = foldRules (ruleStep this context) rs text.
Proof.
  induction rs as [|r rs IH]; intros text applied; cbn [applyRules_loop foldRules];
    [reflexivity|].
  unfold ruleStep at 1. rewrite <- shouldApplyRule_spec.
  destruct (shouldApplyRule r context).
  - rewrite applyRule_substitution.
    rewrite bind_assoc. apply bind_ext. intros text'. apply IH.
  - cbn [bind]. apply IH.
Qed.

Lemma applyRulesN_fold (stack : nat) (rules : list MigrationRule) (content : string)
      (context : MigrationContext) :
  applyRulesN (S stack) rules content context
  = applyRulesSpec (callbackThis stack rules) rules content context.
Proof.
  unfold applyRulesSpec. rewrite <- sortRules_appliedOrder. cbn [applyRulesN].
  apply loop_is_fold.
Qed.

(** Steps on patterns that all carry the [g] flag substitute globally. *)
Lemma allGlobal_steps (this : This) (context : MigrationContext) (rs : list MigrationRule) :
  (forall r, In r rs -> global (pattern r) = true) ->
  forall text,
    foldRules (ruleStep this context) rs text = foldRules (globalStep this context) rs text.
Proof.
  induction rs as [|r rs IH]; intros Hg text; cbn [foldRules]; [reflexivity|].
  assert (Hstep : ruleStep this context text r = globalStep this context text r).
  { unfold ruleStep, globalStep, substitution. now rewrite (Hg r (or_introl eq_refl)). }
  rewrite Hstep. apply bind_ext. intros text'. apply IH.
  intros r' Hr'. apply Hg. now right.
Qed.

Lemma hook_code (f : option (string -> result string)) (text : string) :
  EnhancedMigrationEngine.runHook f text = hook f text.
Proof. reflexivity. Qed.

Lemma migrate_loop_fold (rs : list EnhancedMigrationEngine.EnhancedMigrationRule) :
  forall text count,
    bind (EnhancedMigrationEngine.migrate_loop rs text count) (fun st => Ok (fst st))
    = foldRules enhancedStep rs text.
Proof.
  induction rs as [|r rs IH]; intros text count;
    cbn [EnhancedMigrationEngine.migrate_loop foldRules]; [reflexivity|].
  unfold enhancedStep at 1. rewrite !hook_code, !bind_assoc.
  apply bind_ext. intros t1. rewrite replace_substitution, !bind_assoc.
  apply bind_ext. intros t2. rewrite !bind_assoc.
  apply bind_ext. intros t3. apply IH.
Qed.

Lemma migrate_fold (rules : list EnhancedMigrationEngine.EnhancedMigrationRule)
      (vbContent : string) :
  EnhancedMigrationEngine.migrateVBtoCSharpWith rules vbContent
  = bind (EnhancedMigrationEngine.preprocessContent vbContent) (fun text =>
    bind (foldRules enhancedStep (appliedOrder EnhancedMigrationEngine.priority rules) text)
         EnhancedMigrationEngine.postProcessContent).
Proof.
  unfold EnhancedMigrationEngine.migrateVBtoCSharpWith.
  apply bind_ext. intros text.
  rewrite <- (sort_appliedOrder EnhancedMigrationEngine.priority).
  rewrite <- migrate_loop_fold with (count := 0), bind_assoc.
  apply bind_ext. now intros [out n].
Qed.

(** The in-place sort of an earlier call does not change a later one. *)
Lemma applyRulesN_sorted (stack : nat) (rules : list MigrationRule) (content : string)
      (context : MigrationContext) :
  applyRulesN stack (sortRules rules) content context
  = applyRulesN stack rules content context.
Proof.
  destruct stack as [|stack]; [reflexivity|].
  cbn [applyRulesN]. now rewrite sortRules_idempotent.
Qed.

(** On a text no applicable rule matches, the loop changes nothing. *)
Lemma loop_converged (this : This) (context : MigrationContext)
      (rs : list MigrationRule) (text : string) :
  (forall r, In r rs -> shouldApplyRule r context = true ->
             matches (pattern r) text = []) ->
  forall applied, applyRules_loop this context rs text applied = Ok (text, applied).
Proof.
  induction rs as [|r rs IH]; intros Hc applied; simpl; [reflexivity|].
  destruct (shouldApplyRule r context) eqn:Hs.
  - rewrite applyRule_replace, replace_no_match by (apply Hc; [now left | exact Hs]).
    simpl. rewrite String.eqb_refl. apply IH. intros r' Hr'. apply Hc. now right.
  - apply IH. intros r' Hr'. apply Hc. now right.
Qed.

Lemma applyRulesN_converged (stack : nat) (rules : list MigrationRule)
      (context : MigrationContext) (text : string) :
  converged rules context text -> applyRulesN (S stack) rules text context = Ok text.
Proof.
  intros Hc. cbn [applyRulesN]. rewrite loop_converged; [reflexivity|].
  intros r Hr. apply Hc. now apply sortRules_in.
Qed.

Lemma initializeRules_global :
  forall r, In r initializeRules -> global (pattern r) = true.
Proof.
  intros r Hr. unfold initializeRules in Hr.
  repeat (destruct Hr as [<-|Hr]; [reflexivity|]). contradiction.
Qed.

End EngineFacts.

(** ** Claims about the rule engine *)

Module RuleEngineClaims.
Import JS RegExp MigrationRulesEngine RuleSpec JSFacts RegExpFacts EngineFacts.
Import OrderFacts ConditionFacts.

Lemma convergedb_spec (rules : list MigrationRule) (context : MigrationContext)
      (text : string) :
  convergedb rules context text = true -> converged rules context text.
Proof.
  unfold convergedb, converged. rewrite forallb_forall. intros H r Hr Hs.
  specialize (H r Hr). rewrite Hs in H. simpl in H. unfold noMatch in H.
  now destruct (matches (pattern r) text).
Qed.

(** C1, as stated, fails on the code: the substitution is global only
    for a pattern that carries the [g] flag.  With a custom rule whose
    pattern [/a/] lacks it, [applyRules] rewrites the first [a] of [aa]
    only, where the global substitution of the claim rewrites both. *)
Lemma global_substitution_claim_fails :
  let once := rule "custom-once" "Syntax" 1 (Make (Char "a") false false) (Literal "b") in
  let engine := addCustomRule new once in
  let context := testContext "aa" in
  fst (applyRules 1 engine "aa" context) = Ok "ba" /\
  foldRules (globalStep (callbackThis 0 (rules engine)) context)
            (appliedOrder priority (rules engine)) "aa" = Ok "bb".
Proof. split; vm_compute; reflexivity. Qed.

(** C1, amended.  For every text and context, [applyRules] is the
    sequential left-to-right fold over the rules in applied order
    (priority descending, declaration order as tie-break): a rule whose
    conditions all hold against the context (a suffix of the file path,
    equality of the project kind, presence or absence of a substring in
    the whole file content) substitutes in the current text every
    non-overlapping match of its pattern if the pattern carries the [g]
    flag, and its leftmost match only if it does not; the replacement of
    a match is the expanded literal template or what the replacement
    function returns for the captured groups; a rule with a failing
    condition leaves the text unchanged; each output is the next input.
    The loop of [applyRules] is this fold whatever the replacement
    functions reach through [this], and in a run they reach the engine
    itself.  Every rule of the shipped table carries the flag, and for a
    table of such rules every step substitutes globally. *)
Theorem applyRules_sequential_fold :
  forall (stack : nat) (engine : Engine) (content : string) (context : MigrationContext),
    let this := callbackThis stack (rules engine) in
    fst (applyRules (S stack) engine content context)
    = foldRules (ruleStep this context) (appliedOrder priority (rules engine)) content /\
    (forall anyThis sortedRules text appliedRules,
        bind (applyRules_loop anyThis context sortedRules text appliedRules)
             (fun st => Ok (fst st))
        = foldRules (ruleStep anyThis context) sortedRules text) /\
    (forall rule,
        conditionsHold rule context = true
        <-> forall condition, In condition (conditionsOf rule) -> holds condition context) /\
    (allGlobal (rules engine) = true ->
     fst (applyRules (S stack) engine content context)
     = foldRules (globalStep this context) (appliedOrder priority (rules engine)) content) /\
    allGlobal (rules new) = true.
Proof.
  intros stack engine content context this. subst this. unfold applyRules. cbn [fst].
  split; [apply applyRulesN_fold|].
  split; [intros anyThis sortedRules; apply loop_is_fold|].
  split; [intros rule; apply conditionsHold_holds|].
  split; [|reflexivity].
  intros Hg. rewrite applyRulesN_fold. unfold applyRulesSpec.
  apply allGlobal_steps. intros r Hr. apply (proj1 (appliedOrder_in _ _)) in Hr.
  unfold allGlobal in Hg. rewrite forallb_forall in Hg. now apply Hg.
Qed.

Lemma applyRules_sequential_fold_witness :
  let text := "Dim nombre As String" in
  let context := testContext text in
  allGlobal (rules new) = true /\
  fst (applyRules 4 new text context)
  = foldRules (globalStep (callbackThis 3 (rules new)) context)
              (appliedOrder priority (rules new)) text /\
  fst (applyRules 4 new text context) = Ok "string nombre".
Proof.
  intros text context.
  destruct (applyRules_sequential_fold 3 new text context)
    as (Hfold & _ & _ & Hglobal & Hnew).
  split; [exact Hnew|]. split; [exact (Hglobal Hnew)|].
  rewrite Hfold. vm_compute. reflexivity.
Defined.

(** C2. [applyRules] and [migrateVBtoCSharp] apply the rules in the
    applied order, from its first rule to its last, each rule to the text
    the rules before it have left; [applyRules] also leaves the rule array
    in that order.  The applied order is the rule list by priority,
    descending, with declaration order as tie-break: it is a rearrangement
    of the list, sorted by descending priority, in which the rules of any
    one priority stand as they were declared; so a rule of higher priority
    stands before every rule of lower priority, and two rules of equal
    priority stand as declared. *)
Theorem applied_order_priority_then_declaration :
  (forall (stack : nat) (engine : Engine) (content : string) (context : MigrationContext),
      fst (applyRules (S stack) engine content context)
      = foldRules (ruleStep (callbackThis stack (rules engine)) context)
                  (appliedOrder priority (rules engine)) content /\
      rules (snd (applyRules (S stack) engine content context))
      = appliedOrder priority (rules engine)) /\
  (forall (rules : list EnhancedMigrationEngine.EnhancedMigrationRule) (vbContent : string),
      EnhancedMigrationEngine.migrateVBtoCSharpWith rules vbContent
      = bind (EnhancedMigrationEngine.preprocessContent vbContent) (fun text =>
        bind (foldRules enhancedStep
                (appliedOrder EnhancedMigrationEngine.priority rules) text)
             EnhancedMigrationEngine.postProcessContent)) /\
  (forall (R : Type) (priority : R -> Z) (rules : list R),
      let order := appliedOrder priority rules in
      Permutation order rules /\
      StronglySorted (fun a b => (priority b <= priority a)%Z) order /\
      (forall p, filter (fun r => (priority r =? p)%Z) order
                 = filter (fun r => (priority r =? p)%Z) rules) /\
      (forall a b, In a rules -> In b rules ->
                   (priority b < priority a)%Z -> before a b order) /\
      (forall a b, before a b rules -> priority a = priority b -> before a b order)).
Proof.
  split; [|split].
  - intros stack engine content context. unfold applyRules. cbn [fst snd rules].
    split; [apply applyRulesN_fold | apply sortRules_appliedOrder].
  - intros rules vbContent. apply migrate_fold.
  - intros R key rules order. subst order. rewrite <- (sort_appliedOrder key).
    split; [apply (SortFacts.sort_perm key)|].
    split; [apply (SortFacts.sort_sorted key)|].
    split; [intros p; apply (SortFacts.sort_filter key)|].
    split; [intros a b; apply (SortFacts.sort_higher_first key)|].
    intros a b. apply (SortFacts.sort_stable key).
Qed.

Lemma applied_order_priority_then_declaration_witness :
  let a := rule "first" "Syntax" 5 (Make (Char "y") true false) (Literal "z") in
  let b := rule "second" "Syntax" 5 (Make (Char "z") true false) (Literal "w") in
  let c := rule "third" "Syntax" 9 (Make (Char "x") true false) (Literal "y") in
  let engine := {| rules := [a; b; c] |} in
  appliedOrder priority (rules engine) = [c; a; b] /\
  fst (applyRules 1 engine "x" (testContext "x")) = Ok "w" /\
  rules (snd (applyRules 1 engine "x" (testContext "x"))) = [c; a; b] /\
  before c a (appliedOrder priority (rules engine)) /\
  before a b (appliedOrder priority (rules engine)).
Proof.
  intros a b c engine.
  destruct applied_order_priority_then_declaration as (Hrun & _ & Horder).
  destruct (Hrun 0 engine "x" (testContext "x")) as [Hfold Harray].
  destruct (Horder MigrationRule priority (rules engine)) as (_ & _ & _ & Hhigh & Hstable).
  assert (Hord : appliedOrder priority (rules engine) = [c; a; b]) by reflexivity.
  split; [exact Hord|].
  split; [rewrite Hfold, Hord; reflexivity|].
  split; [rewrite Harray; exact Hord|].
  split.
  - apply Hhigh; [right; right; now left | now left | cbn; lia].
  - apply Hstable; [now exists [], [], [c] | reflexivity].
Defined.

(** C7. With a fixed rule set, [applyRules] is a function of its
    [(text, context)] input alone: calling it again on the engine the
    first call left behind (its rule array sorted in place) returns the
    same result, and so does calling it after any other call. *)
Theorem applyRules_deterministic :
  forall (stack : nat) (engine : Engine) (content : string) (context : MigrationContext),
    let first := applyRules stack engine content context in
    let second := applyRules stack (snd first) content context in
    fst second = fst first /\ snd second = snd first /\
    forall content' context',
      fst (applyRules stack (snd (applyRules stack engine content' context')) content context)
      = fst first.
Proof.
  intros stack engine content context. unfold applyRules. cbn [fst snd rules].
  rewrite applyRulesN_sorted, sortRules_idempotent. repeat split.
Qed.

(** C8. Applying the rule set a second time to a text the first
    application fully converted (no applicable rule finds a match in it any
    more) changes nothing:
    [applyRules (applyRules t ctx) ctx' = applyRules t ctx]. *)
Theorem applyRules_idempotent_on_converged :
  forall (stack : nat) (engine : Engine) (t u : string) (ctx ctx' : MigrationContext),
    fst (applyRules (S stack) engine t ctx) = Ok u ->
    convergedb (rules engine) ctx' u = true ->
    fst (applyRules (S stack) (snd (applyRules (S stack) engine t ctx)) u ctx')
    = fst (applyRules (S stack) engine t ctx).
Proof.
  intros stack engine t u ctx ctx' Hfirst Hconv.
  rewrite Hfirst. unfold applyRules. cbn [fst snd rules].
  rewrite applyRulesN_sorted. now apply applyRulesN_converged, convergedb_spec.
Qed.

Lemma applyRules_idempotent_on_converged_witness :
  let t := "Dim nombre As String" in
  let u := "string nombre" in
  fst (applyRules 4 new t (testContext t)) = Ok u /\
  convergedb (rules new) (testContext u) u = true /\
  fst (applyRules 4 (snd (applyRules 4 new t (testContext t))) u (testContext u))
  = fst (applyRules 4 new t (testContext t)).
Proof.
  intros t u.
  assert (H1 : fst (applyRules 4 new t (testContext t)) = Ok u) by (vm_compute; reflexivity).
  assert (H2 : convergedb (rules new) (testContext u) u = true) by (vm_compute; reflexivity).
  split; [exact H1|]. split; [exact H2|].
  exact (applyRules_idempotent_on_converged 3 new t u (testContext t) (testContext u) H1 H2).
Defined.

(** The restriction to converged text matters: on other inputs a second
    pass can still change the text. *)
Example second_pass_changes_unconverged :
  let t := "a & & b" in
  applyRulesN 4 initializeRules t (testContext t) = Ok "a + & b" /\
  applyRulesN 4 initializeRules "a + & b" (testContext "a + & b") = Ok "a + + b".
Proof. split; vm_compute; reflexivity. Qed.

(** C9. The rewrite scenarios: [Dim nombre As String] gives a text
    containing [string nombre]; [If x > 5 Then] gives one containing
    [if (x > 5)], and with a matching [End If] in the file that [End If]
    becomes a closing brace in the column of the opening [if];
    [MsgBox("Hello World")] gives [MessageBox.Show("Hello World")]. *)
Theorem rewrite_scenarios :
  forall (stack : nat) (context : MigrationContext),
    let run := fun text => applyRulesN (S stack) initializeRules text context in
    (exists out, run "Dim nombre As String" = Ok out /\ includes out "string nombre" = true) /\
    (exists out, run "If x > 5 Then" = Ok out /\ includes out "if (x > 5)" = true) /\
    run ("If x > 5 Then" ++ nl ++ "..." ++ nl ++ "End If")
      = Ok ("if (x > 5)" ++ nl ++ "..." ++ nl ++ "}") /\
    run ("  If x > 5 Then" ++ nl ++ "    y = 1" ++ nl ++ "  End If")
      = Ok ("  if (x > 5)" ++ nl ++ "    y = 1" ++ nl ++ "  }") /\
    (exists out, run ("MsgBox(" ++ dq ++ "Hello World" ++ dq ++ ")") = Ok out /\
                 includes out ("MessageBox.Show(" ++ dq ++ "Hello World" ++ dq ++ ")") = true).
Proof.
  intros stack context run. subst run. cbv beta.
  split; [|split; [|split; [|split]]].
  - exists "string nombre". split; vm_compute; reflexivity.
  - exists "if (x > 5)". split; vm_compute; reflexivity.
  - vm_compute; reflexivity.
  - vm_compute; reflexivity.
  - exists ("MessageBox.Show(" ++ dq ++ "Hello World" ++ dq ++ ")").
    split; vm_compute; reflexivity.
Qed.

End RuleEngineClaims.

(** ** The generator's use of the engines *)

Module GeneratorFacts.
Import JS RegExp JSFacts CSharpGenerator.

(** Text that neither engine changes. *)
Lemma enhanced_x (filePath : string) :
  EnhancedMigrationEngine.migrateVBtoCSharp "x" filePath = Ok "x".
Proof. vm_compute; reflexivity. Qed.

Lemma baseline_x (stack : nat) (context : MigrationRulesEngine.MigrationContext) :
  MigrationRulesEngine.applyRulesN (S stack) MigrationRulesEngine.initializeRules "x" context
  = Ok "x".
Proof. vm_compute; reflexivity. Qed.

(** On such a text [migrateVBCodeWithEnhancedEngine] and
    [convertVBCodeToCSharp] keep calling each other: whatever the stack
    budget, the call ends in its exhaustion. *)
Lemma migrate_unchanged_text_exhausts_stack (stack : nat) :
  forall filePath, migrateVBCodeWithEnhancedEngineN stack "x" filePath = Throw stackExhausted.
Proof.
  induction stack as [|stack IH]; intros filePath; [reflexivity|].
  cbn [migrateVBCodeWithEnhancedEngineN].
  change (String.eqb "x" "" || String.eqb (trim "x") "") with false. cbv iota.
  rewrite enhanced_x. cbn [bind].
  change (negb (String.eqb "x" "") && Nat.ltb 10 (String.length "x")
          && negb (String.eqb "x" "x")) with false. cbv iota.
  assert (Hconv : convertVBCodeToCSharpWith (migrateVBCodeWithEnhancedEngineN stack) "x"
                  = Throw stackExhausted).
  { unfold convertVBCodeToCSharpWith. change (String.eqb "x" "") with false. cbv iota.
    now rewrite IH. }
  destruct stack as [|stack].
  - cbn [MigrationRulesEngine.applyRulesN bind tryCatch]. exact Hconv.
  - rewrite baseline_x. cbn [bind]. rewrite String.eqb_refl, Hconv. reflexivity.
Qed.

Lemma migrate_blank (stack : nat) (vbCode filePath : string) :
  trim vbCode = "" ->
  migrateVBCodeWithEnhancedEngineN (S stack) vbCode filePath = Ok methodLogicPlaceholder.
Proof.
  intros H. cbn [migrateVBCodeWithEnhancedEngineN]. rewrite H.
  rewrite String.eqb_refl, orb_true_r. reflexivity.
Qed.

Lemma convertMethodBody_blank applyRules (s : string) :
  trim s = "" ->
  MigrationRulesEngine.convertMethodBody applyRules (VString s)
  = Ok MigrationRulesEngine.placeholder.
Proof.
  intros H. unfold MigrationRulesEngine.convertMethodBody.
  destruct (negb (truthy (VString s))); [reflexivity|]. now rewrite H.
Qed.

(** The record built for an event handler, whenever one is built. *)
Lemma event_method_signature (stack : nat) (vbEvent : VBEvent.t) (m : CSharpMethod.t) :
  convertVBEventToCSharpMethod stack vbEvent = Ok m ->
  CSharpMethod.name m = VBEvent.handler vbEvent /\
  CSharpMethod.returnType m = "void" /\
  CSharpMethod.accessModifier m = "private" /\
  CSharpMethod.parameters m = senderParameters.
Proof.
  unfold convertVBEventToCSharpMethod.
  destruct (if hasBody (VBEvent.body vbEvent) then _ else _); simpl; [|discriminate].
  intros H; inversion H; subst; simpl. repeat split.
Qed.

Lemma event_without_body (stack : nat) (vbEvent : VBEvent.t) :
  hasBody (VBEvent.body vbEvent) = false ->
  exists m, convertVBEventToCSharpMethod stack vbEvent = Ok m /\
            CSharpMethod.body m = eventLogicPlaceholder.
Proof.
  intros H. unfold convertVBEventToCSharpMethod. rewrite H. simpl.
  eexists; split; reflexivity.
Qed.

Lemma method_without_body (stack : nat) (vbMethod : VBMethod.t) :
  hasBody (Some (VBMethod.body vbMethod)) = false ->
  exists m, convertVBMethodToCSharp stack vbMethod = Ok m /\
            CSharpMethod.body m = methodBodyPlaceholder.
Proof.
  intros H. unfold convertVBMethodToCSharp. rewrite H. simpl.
  eexists; split; reflexivity.
Qed.

End GeneratorFacts.


(** ** Claims about empty bodies and event handlers *)

Module BodyClaims.
Import JS RegExp MigrationRulesEngine RuleSpec Fixtures GeneratorFacts.

(** A rule whose pattern finds no match is a no-op and raises nothing. *)
Lemma applyRule_no_match (this : This) (rule : MigrationRule) (content : string)
      (context : MigrationContext) :
  matches (pattern rule) content = [] -> applyRule this rule content context = Ok content.
Proof.
  intros H. rewrite EngineFacts.applyRule_replace. now apply RegExpFacts.replace_no_match.
Qed.

(** C3. The engine is meant to emit the placeholder for a method whose
    body is empty and never to raise.  Evaluated on the code: for a [Sub]
    with an empty body line the vb-method-with-body callback hands
    [convertMethodBody] the text of capture 8 ([Sub]) instead of the body,
    so no placeholder is emitted; for an event handler with an empty body
    it hands over the numeric match offset and, the offset not being 0,
    [trim] raises a TypeError; and on a body that no rule changes the
    generator's [migrateVBCodeWithEnhancedEngine] recurses through
    [convertVBCodeToCSharp] until the call stack is exhausted. *)
Theorem empty_body_without_placeholder :
  forall (stack : nat) (context : MigrationContext),
    applyRulesN (S (S stack)) initializeRules emptyMethod context
    = Ok ("private void ()" ++ nl ++ "{" ++ nl ++ "    Sub" ++ nl ++ "}") /\
    applyRulesN (S stack) initializeRules emptyHandler context
    = Throw (TypeError "vbBody.trim is not a function") /\
    forall filePath,
      CSharpGenerator.migrateVBCodeWithEnhancedEngineN stack "x" filePath
      = Throw stackExhausted.
Proof.
  intros stack context. split; [|split].
  - vm_compute; reflexivity.
  - vm_compute; reflexivity.
  - apply migrate_unchanged_text_exhausts_stack.
Qed.

(** What does hold at the entry points: an empty or blank body given to
    [convertMethodBody] or to [migrateVBCodeWithEnhancedEngine] yields the
    placeholder comment, and so does a method record without a body. *)
Lemma placeholder_on_blank_input :
  (forall applyRules s, trim s = "" ->
     convertMethodBody applyRules (VString s) = Ok "    // TODO: Implement method logic") /\
  (forall stack vbCode filePath, trim vbCode = "" ->
     CSharpGenerator.migrateVBCodeWithEnhancedEngineN (S stack) vbCode filePath
     = Ok "// TODO: Implement method logic") /\
  (forall stack vbMethod, CSharpGenerator.hasBody (Some (VBMethod.body vbMethod)) = false ->
     exists m, CSharpGenerator.convertVBMethodToCSharp stack vbMethod = Ok m /\
               CSharpMethod.body m = "// TODO: Implement method body").
Proof.
  split; [|split].
  - intros. now apply convertMethodBody_blank.
  - intros. now apply migrate_blank.
  - intros. now apply method_without_body.
Qed.

(** C10. A generated event handler is meant to be
    [private void Name(object sender, EventArgs e)] with the declared VB
    parameters discarded.  Evaluated on the code: the
    vb-event-handler-complete callback builds the name from captures 3 and
    4, the event name and the declared parameter list, so the declared
    parameters do appear in the signature (and the body, being the match
    offset 0, is replaced by the placeholder). *)
Theorem event_rule_keeps_declared_parameters :
  forall (stack : nat) (context : MigrationContext),
    exists out,
      applyRulesN (S stack) initializeRules clickHandler context = Ok out /\
      out = "private void Click_sender As Object, e As EventArgs(object sender, EventArgs e)"
              ++ nl ++ "{" ++ nl ++ "    // TODO: Implement method logic" ++ nl ++ "}" /\
      includes out "sender As Object, e As EventArgs" = true.
Proof.
  intros stack context. eexists. split; [vm_compute; reflexivity|].
  split; vm_compute; reflexivity.
Qed.

(** The generator's record for an event handler does have the fixed
    signature, whatever parameters the VB event declares, whenever the
    conversion of the body returns; it returns at least for every handler
    without a body. *)
Lemma generator_event_signature :
  (forall stack vbEvent m,
     CSharpGenerator.convertVBEventToCSharpMethod stack vbEvent = Ok m ->
     CSharpMethod.name m = VBEvent.handler vbEvent /\
     CSharpMethod.returnType m = "void" /\
     CSharpMethod.accessModifier m = "private" /\
     map (fun p => (CSharpParameter.type p, CSharpParameter.name p)) (CSharpMethod.parameters m)
     = [("object", "sender"); ("EventArgs", "e")]) /\
  (forall stack name handler parameters parameters' body,
     CSharpGenerator.convertVBEventToCSharpMethod stack
       {| VBEvent.name := name; VBEvent.handler := handler;
          VBEvent.parameters := parameters; VBEvent.body := body |}
     = CSharpGenerator.convertVBEventToCSharpMethod stack
         {| VBEvent.name := name; VBEvent.handler := handler;
            VBEvent.parameters := parameters'; VBEvent.body := body |}) /\
  (forall stack vbEvent, CSharpGenerator.hasBody (VBEvent.body vbEvent) = false ->
     exists m, CSharpGenerator.convertVBEventToCSharpMethod stack vbEvent = Ok m) /\
  (forall vbParams, convertEventParameters vbParams = "object sender, EventArgs e").
Proof.
  split; [|split; [|split]].
  - intros stack vbEvent m H. apply event_method_signature in H as (H1 & H2 & H3 & H4).
    rewrite H4. repeat split; assumption.
  - reflexivity.
  - intros stack vbEvent H. destruct (event_without_body stack vbEvent H) as (m & Hm & _).
    now exists m.
  - reflexivity.
Qed.

End BodyClaims.

(** ** Claims about routing *)

Module RoutingClaims.
Import JS Analysis ModuleMigrator Fixtures.

Section Counts.
Variable baseNameOf : string -> string.

Lemma countType_app (t : FileType) (l1 l2 : list GeneratedFile) :
  countType t (l1 ++ l2) = countType t l1 + countType t l2.
Proof. unfold countType. now rewrite filter_app, length_app. Qed.

Lemma countType_route (t : FileType) (style : Architecture) (e : VBModuleAnalysis)
      (es : list VBModuleAnalysis) :
  countType t (route baseNameOf style (e :: es))
  = countType t (generateFiles baseNameOf style e) + countType t (route baseNameOf style es).
Proof. unfold route. simpl. apply countType_app. Qed.

Lemma repositories_of_entity (style : Architecture) (e : VBModuleAnalysis) :
  countType Repository (generateFiles baseNameOf style e)
  = if hasDatabaseOperations e then repositoriesPerEntity style else 0.
Proof.
  destruct style; unfold generateFiles, generateCleanArchitectureFiles,
    generateLayeredArchitectureFiles, generateMVCFiles, generateMVVMFiles;
    destruct (hasBusinessLogic e), (hasDatabaseOperations e), (isForm e); reflexivity.
Qed.

Lemma services_of_entity (style : Architecture) (e : VBModuleAnalysis) :
  countType Service (generateFiles baseNameOf style e)
  = match style with
    | Clean | Layered => 1
    | MVC => 0
    | MVVM => if hasBusinessLogic e then 1 else 0
    end.
Proof.
  destruct style; unfold generateFiles, generateCleanArchitectureFiles,
    generateLayeredArchitectureFiles, generateMVCFiles, generateMVVMFiles;
    destruct (hasBusinessLogic e), (hasDatabaseOperations e), (isForm e); reflexivity.
Qed.

Lemma repositories_of_route (style : Architecture) (es : list VBModuleAnalysis) :
  countType Repository (route baseNameOf style es)
  = repositoriesPerEntity style * dataAccessBearing es.
Proof.
  induction es as [|e es IH]; [now rewrite Nat.mul_0_r|].
  rewrite countType_route, IH, repositories_of_entity.
  unfold dataAccessBearing. simpl. destruct (hasDatabaseOperations e); simpl; lia.
Qed.

Lemma services_of_route (style : Architecture) (es : list VBModuleAnalysis) :
  countType Service (route baseNameOf style es)
  = match style with
    | Clean | Layered => List.length es
    | MVC => 0
    | MVVM => List.length (filter hasBusinessLogic es)
    end.
Proof.
  induction es as [|e es IH]; [now destruct style|].
  rewrite countType_route, IH, services_of_entity.
  destruct style; simpl; try reflexivity. now destruct (hasBusinessLogic e).
Qed.

(** With a file system that answers, [migrateModule] reports exactly the
    routed files, followed by the test scaffold when tests are requested. *)
Lemma migrateModule_files (e : VBModuleAnalysis) (style : Architecture) (tests : bool) :
  let fs := {| ensureDir := None; readFile := None; writeGeneratedFiles := None |} in
  success (migrateModule baseNameOf fs e style tests) = true /\
  generatedFiles (migrateModule baseNameOf fs e style tests)
  = (generateFiles baseNameOf style e
     ++ (if tests then generateTests baseNameOf e else []))%list /\
  countType Repository (generatedFiles (migrateModule baseNameOf fs e style tests))
  = countType Repository (generateFiles baseNameOf style e).
Proof.
  intros fs. unfold migrateModule. subst fs.
  cbn [ensureDir readFile writeGeneratedFiles success generatedFiles].
  split; [reflexivity|]. split; [reflexivity|].
  rewrite countType_app. unfold when, generateTests, when.
  destruct tests, (hasBusinessLogic e); cbn [countType filter type file fileType_eqb length];
    lia.
Qed.
End Counts.

(** C5, as stated, fails on the code: in the Clean style a data-access
    entity gets two Repository artifacts (interface and implementation),
    and an entity without any business-logic or data-access signal still
    gets a Service artifact. *)
Lemma repository_count_claim_fails :
  hasDatabaseOperations customers = true /\
  dataAccessBearing [customers; constants] = 1 /\
  countType Repository (route stem Clean [customers; constants]) = 2 /\
  hasBusinessLogic constants = false /\
  countType Service (generateFiles stem Clean constants) = 1 /\
  countType Service (generateFiles stem Layered constants) = 1.
Proof. repeat split; reflexivity. Qed.

(** C5, amended.  For every entity set the number of Repository artifacts
    is twice the number of data-access-bearing entities in the Clean style
    (interface and implementation), equal to it in the Layered style, and
    zero in MVC and MVVM; an entity without database operations never
    contributes a Repository artifact; a Service artifact is emitted for
    every entity in Clean and Layered, for the entities with business
    logic in MVVM, and for none in MVC. *)
Theorem repository_and_service_counts :
  forall (baseNameOf : string -> string) (entities : list VBModuleAnalysis),
    countType Repository (route baseNameOf Clean entities) = 2 * dataAccessBearing entities /\
    countType Repository (route baseNameOf Layered entities) = dataAccessBearing entities /\
    countType Repository (route baseNameOf MVC entities) = 0 /\
    countType Repository (route baseNameOf MVVM entities) = 0 /\
    (forall style e,
        countType Repository (generateFiles baseNameOf style e)
        = if hasDatabaseOperations e then repositoriesPerEntity style else 0) /\
    countType Service (route baseNameOf Clean entities) = List.length entities /\
    countType Service (route baseNameOf Layered entities) = List.length entities /\
    countType Service (route baseNameOf MVC entities) = 0 /\
    countType Service (route baseNameOf MVVM entities)
    = List.length (filter hasBusinessLogic entities).
Proof.
  intros baseNameOf entities.
  repeat split;
    try (rewrite repositories_of_route; simpl; lia);
    try (rewrite services_of_route; reflexivity).
  intros style e. apply repositories_of_entity.
Qed.

End RoutingClaims.

(** ** Claims about the project graph *)

Module GraphClaims.
Import JS Analysis Graph ModernArchitectureGenerator JSFacts.

(** Read a position off a graph whose names share the prefix [vbName]. *)
Ltac locate :=
  repeat (cbn [positionOf fst snd option_map graphOf map name dependencies project];
          rewrite ?eqb_append_l;
          cbn [String.eqb Ascii.eqb Bool.eqb]).

Ltac pick_project H :=
  match type of H with
  | nth_error [] ?i = Some _ => destruct i; discriminate H
  | nth_error _ ?i = Some _ =>
      destruct i as [|i]; cbn [nth_error] in H;
      [injection H as H; subst | pick_project H]
  end.

Ltac pick_dependency H :=
  cbn [snd graphOf map name dependencies project In] in H;
  repeat match type of H with
         | _ \/ _ => destruct H as [H|H]
         | False => contradiction
         end; subst.

Lemma clean_graph_names (vbName : string) (moduleAnalyses : list VBModuleAnalysis)
      (options : Options) :
  map fst (graphOf (generateCleanArchitecture vbName moduleAnalyses options))
  = concat
      [ [vbName ++ ".Domain"; vbName ++ ".Application"];
        when (includeDatabase options || hasDataAccess moduleAnalyses)
             [vbName ++ ".Infrastructure"];
        [vbName ++ "." ++ (if webBased options then "Web" else "Desktop")];
        when (webBased options) [vbName ++ ".Api"];
        [vbName ++ ".Tests.Unit"] ].
Proof.
  unfold generateCleanArchitecture.
  destruct (includeDatabase options), (hasDataAccess moduleAnalyses), (webBased options);
    reflexivity.
Qed.

Lemma clean_infrastructure_present (vbName : string) (moduleAnalyses : list VBModuleAnalysis)
      (options : Options) :
  hasProject (vbName ++ ".Infrastructure")
             (graphOf (generateCleanArchitecture vbName moduleAnalyses options))
  = includeDatabase options || hasDataAccess moduleAnalyses.
Proof.
  unfold generateCleanArchitecture, hasProject.
  destruct (includeDatabase options), (hasDataAccess moduleAnalyses), (webBased options);
    cbn [concat when app orb]; locate; reflexivity.
Qed.

Lemma filterBoolean_In (d : string) (l : list string) :
  In d (filterBoolean l) -> In d l /\ d <> "".
Proof.
  unfold filterBoolean. rewrite filter_In. intros [H Hne]. split; [exact H|].
  intros ->. discriminate.
Qed.

Local Opaque filterBoolean.

Lemma clean_refs_earlier (vbName : string) (moduleAnalyses : list VBModuleAnalysis)
      (options : Options) :
  resolvedRefsPointEarlier (graphOf (generateCleanArchitecture vbName moduleAnalyses options)).
Proof.
  unfold resolvedRefsPointEarlier, generateCleanArchitecture.
  intros i j p d Hp Hd Hj.
  destruct (includeDatabase options), (hasDataAccess moduleAnalyses), (webBased options);
    cbn [concat when app orb graphOf map name dependencies project] in Hp, Hj;
    pick_project Hp;
    cbn [snd dependencies project] in Hd; try (apply filterBoolean_In in Hd as [Hd Hne]);
    pick_dependency Hd; try congruence; revert Hj; locate;
    intros Hj; try discriminate; inversion Hj; subst; lia.
Qed.

Ltac pick_member H :=
  cbn [graphOf map name dependencies project In] in H;
  repeat match type of H with
         | _ \/ _ => destruct H as [H|H]
         | False => contradiction
         end; subst.

Ltac rank :=
  repeat (cbn [indexOf fst snd option_map];
          rewrite ?eqb_append_l;
          cbn [String.eqb Ascii.eqb Bool.eqb]).

Ltac build_order :=
  let p := fresh "p" in let d := fresh "d" in
  let Hp := fresh "Hp" in let Hd := fresh "Hd" in
  intros p d Hp Hd _;
  pick_member Hp; cbn [snd] in Hd; pick_dependency Hd;
  rank; do 2 eexists; (split; [reflexivity | split; [reflexivity | lia]]).

Lemma layered_refs_later (vbName : string) (moduleAnalyses : list VBModuleAnalysis)
      (options : Options) :
  resolvedRefsPointLater (graphOf (generateLayeredArchitecture vbName moduleAnalyses options)).
Proof.
  unfold resolvedRefsPointLater, generateLayeredArchitecture.
  intros i j p d Hp Hd Hj.
  cbn [graphOf map name dependencies project] in Hp, Hj.
  pick_project Hp; cbn [snd dependencies project] in Hd; pick_dependency Hd;
    revert Hj; locate; intros Hj; try discriminate; inversion Hj; subst; lia.
Qed.

Lemma layered_build_order (vbName : string) (moduleAnalyses : list VBModuleAnalysis)
      (options : Options) :
  orderedBy [vbName ++ ".Data"; vbName ++ ".Business"; vbName ++ ".Presentation"]
            (graphOf (generateLayeredArchitecture vbName moduleAnalyses options)).
Proof. unfold orderedBy, generateLayeredArchitecture. build_order. Qed.

Lemma mvc_build_order (vbName : string) (moduleAnalyses : list VBModuleAnalysis)
      (options : Options) :
  orderedBy [vbName ++ ".Models"; vbName ++ ".Services"; vbName ++ ".Web"]
            (graphOf (generateMVCArchitecture vbName moduleAnalyses options)).
Proof. unfold orderedBy, generateMVCArchitecture. build_order. Qed.

Lemma mvvm_build_order (vbName : string) (moduleAnalyses : list VBModuleAnalysis)
      (options : Options) :
  orderedBy [vbName ++ ".Models"; vbName ++ ".Services"; vbName ++ ".ViewModels";
             vbName ++ ".Desktop"]
            (graphOf (generateMVVMArchitecture vbName moduleAnalyses options)).
Proof. unfold orderedBy, generateMVVMArchitecture. build_order. Qed.

Lemma solution_build_order (projectName : string) :
  orderedBy (CSharpGenerator.solutionFileProjects projectName)
            (CSharpGenerator.projectFiles projectName).
Proof.
  unfold orderedBy, CSharpGenerator.solutionFileProjects, CSharpGenerator.projectFiles.
  build_order.
Qed.

(** [later p d i j]: project [p], at position [i], references [d], which
    is at position [j]; this refutes the direction that [i] and [j] do
    not have. *)
Ltac later p d i j :=
  let H := fresh "H" in
  intros H; specialize (H i j p d eq_refl);
  cbn [snd In] in H; revert H; locate; intros H;
  specialize (H ltac:(tauto) eq_refl); lia.

Lemma mvc_mixed (vbName : string) (moduleAnalyses : list VBModuleAnalysis)
      (options : Options) :
  ~ resolvedRefsPointEarlier (graphOf (generateMVCArchitecture vbName moduleAnalyses options)) /\
  ~ resolvedRefsPointLater (graphOf (generateMVCArchitecture vbName moduleAnalyses options)).
Proof.
  unfold resolvedRefsPointEarlier, resolvedRefsPointLater, generateMVCArchitecture.
  cbn [graphOf map name dependencies project]. split.
  - later (vbName ++ ".Web", [vbName ++ ".Models"; vbName ++ ".Services"])
          (vbName ++ ".Models") 0 1.
  - later (vbName ++ ".Services", [vbName ++ ".Models"]) (vbName ++ ".Models") 2 1.
Qed.

Lemma mvvm_mixed (vbName : string) (moduleAnalyses : list VBModuleAnalysis)
      (options : Options) :
  ~ resolvedRefsPointEarlier (graphOf (generateMVVMArchitecture vbName moduleAnalyses options)) /\
  ~ resolvedRefsPointLater (graphOf (generateMVVMArchitecture vbName moduleAnalyses options)).
Proof.
  unfold resolvedRefsPointEarlier, resolvedRefsPointLater, generateMVVMArchitecture.
  cbn [graphOf map name dependencies project]. split.
  - later (vbName ++ ".Desktop", [vbName ++ ".ViewModels"; vbName ++ ".Services"])
          (vbName ++ ".ViewModels") 0 1.
  - later (vbName ++ ".Services", [vbName ++ ".Models"]) (vbName ++ ".Models") 3 2.
Qed.

Lemma project_files_mixed (projectName : string) :
  ~ resolvedRefsPointEarlier (CSharpGenerator.projectFiles projectName) /\
  ~ resolvedRefsPointLater (CSharpGenerator.projectFiles projectName).
Proof.
  unfold resolvedRefsPointEarlier, resolvedRefsPointLater, CSharpGenerator.projectFiles. split.
  - later (projectName ++ ".WinForms", [projectName ++ ".Core"; projectName ++ ".Data"])
          (projectName ++ ".Core") 0 1.
  - later (projectName ++ ".Data", [projectName ++ ".Core"]) (projectName ++ ".Core") 2 1.
Qed.

(** A service name never equals the shared library's name. *)
Lemma service_is_not_shared (domain : string) :
  String.eqb ("." ++ domain ++ "Service") ".Shared" = false.
Proof.
  apply String.eqb_neq. intros H.
  apply (f_equal String.length) in H. cbn [append String.length] in H.
  rewrite length_append in H. simpl in H. lia.
Qed.

Lemma positionOf_none (d : string) (g : Graph.t) :
  (forall p, In p g -> String.eqb (fst p) d = false) -> positionOf d g = None.
Proof.
  induction g as [|q g IH]; intros H; [reflexivity|].
  cbn [positionOf]. rewrite (H q (or_introl eq_refl)).
  rewrite IH; [reflexivity|]. intros p Hp. apply H. now right.
Qed.

Lemma microservices_no_ref_resolves (vbName : string)
      (moduleAnalyses : list VBModuleAnalysis) (options : Options) :
  noRefResolves (graphOf (generateMicroservicesArchitecture vbName moduleAnalyses options)).
Proof.
  unfold noRefResolves, generateMicroservicesArchitecture.
  intros p d Hp Hd. cbn [concat] in *. rewrite app_nil_r in *.
  unfold graphOf in *. rewrite map_app, map_map in *.
  assert (Hd' : d = vbName ++ ".Shared").
  { apply in_app_or in Hp as [Hp|Hp].
    - apply in_map_iff in Hp as (dom & <- & _). cbn in Hd. now destruct Hd.
    - cbn in Hp. destruct Hp as [<-|[<-|[]]]; cbn in Hd; contradiction. }
  subst d. clear p Hp Hd.
  apply positionOf_none. intros p Hp.
  apply in_app_or in Hp as [Hp|Hp].
  - apply in_map_iff in Hp as (dom & <- & _). cbn [fst name project].
    rewrite eqb_append_l. apply service_is_not_shared.
  - cbn in Hp. destruct Hp as [<-|[<-|[]]]; cbn [fst]; rewrite eqb_append_l; reflexivity.
Qed.

(** C6, as stated, fails on the code: with the default options the Clean
    graph contains Infrastructure although no entity is data-access-bearing,
    and the Layered graph lists Presentation first with a reference to
    Business, which is placed after it. *)
Lemma project_graph_claim_fails :
  hasDataAccess [] = false /\
  hasProject "Shop.Infrastructure"
    (graphOf (generateStructure "Shop" [] Clean defaultOptions)) = true /\
  ~ refsPointEarlier (graphOf (generateStructure "Shop" [] Layered defaultOptions)).
Proof.
  split; [reflexivity|]. split; [reflexivity|].
  intros H.
  destruct (H 0 ("Shop.Presentation", ["Shop.Business"]) "Shop.Business") as (j & _ & Hlt).
  - reflexivity.
  - now left.
  - lia.
Qed.

(** C6, amended.  The Clean graph is Domain, Application, Infrastructure
    (present exactly when the [includeDatabase] option is set or some
    entity is data-access-bearing), the UI project, Api (for a web-based
    target) and Tests.Unit, in this order, and each of its references that
    names an emitted project names one placed earlier.  In the Layered,
    MVC and MVVM graphs and among the project files of the generator some
    reference names a project placed later.  The Layered graph is
    Presentation, Business, Data and each reference names the project
    placed next, so all point later.  The MVC graph is Web (referencing
    Models and Services), Models, Services (referencing Models); the MVVM
    graph is Desktop (referencing ViewModels and Services), ViewModels
    (referencing Models and Services), Models, Services (referencing
    Models); the generator pushes the project files WinForms (referencing
    Core and Data), Core, Data (referencing Core), Tests (referencing the
    three others): in these three the first project references later ones
    while another references an earlier one.  Each of the four has a build
    order (Data, Business, Presentation; Models, Services, Web; Models,
    Services, ViewModels, Desktop; and Core, Data, WinForms, Tests, which
    is the order of the solution file) and hence no cycle.  In the
    Microservices graph no reference names an emitted project. *)
Theorem project_graph_shape :
  forall (vbName : string) (moduleAnalyses : list VBModuleAnalysis) (options : Options),
    let graph style := graphOf (generateStructure vbName moduleAnalyses style options) in
    (map fst (graph Clean)
     = concat
         [ [vbName ++ ".Domain"; vbName ++ ".Application"];
           when (includeDatabase options || hasDataAccess moduleAnalyses)
                [vbName ++ ".Infrastructure"];
           [vbName ++ "." ++ (if webBased options then "Web" else "Desktop")];
           when (webBased options) [vbName ++ ".Api"];
           [vbName ++ ".Tests.Unit"] ] /\
     hasProject (vbName ++ ".Infrastructure") (graph Clean)
     = (includeDatabase options || hasDataAccess moduleAnalyses) /\
     resolvedRefsPointEarlier (graph Clean)) /\
    (graph Layered
     = [ (vbName ++ ".Presentation", [vbName ++ ".Business"]);
         (vbName ++ ".Business", [vbName ++ ".Data"]);
         (vbName ++ ".Data", []) ] /\
     resolvedRefsPointLater (graph Layered) /\
     orderedBy [vbName ++ ".Data"; vbName ++ ".Business"; vbName ++ ".Presentation"]
               (graph Layered)) /\
    (graph MVC
     = [ (vbName ++ ".Web", [vbName ++ ".Models"; vbName ++ ".Services"]);
         (vbName ++ ".Models", []);
         (vbName ++ ".Services", [vbName ++ ".Models"]) ] /\
     ~ resolvedRefsPointEarlier (graph MVC) /\
     ~ resolvedRefsPointLater (graph MVC) /\
     orderedBy [vbName ++ ".Models"; vbName ++ ".Services"; vbName ++ ".Web"] (graph MVC)) /\
    (graph MVVM
     = [ (vbName ++ ".Desktop", [vbName ++ ".ViewModels"; vbName ++ ".Services"]);
         (vbName ++ ".ViewModels", [vbName ++ ".Models"; vbName ++ ".Services"]);
         (vbName ++ ".Models", []);
         (vbName ++ ".Services", [vbName ++ ".Models"]) ] /\
     ~ resolvedRefsPointEarlier (graph MVVM) /\
     ~ resolvedRefsPointLater (graph MVVM) /\
     orderedBy [vbName ++ ".Models"; vbName ++ ".Services"; vbName ++ ".ViewModels";
                vbName ++ ".Desktop"] (graph MVVM)) /\
    (CSharpGenerator.projectFiles vbName
     = [ (vbName ++ ".WinForms", [vbName ++ ".Core"; vbName ++ ".Data"]);
         (vbName ++ ".Core", []);
         (vbName ++ ".Data", [vbName ++ ".Core"]);
         (vbName ++ ".Tests", [vbName ++ ".Core"; vbName ++ ".Data"; vbName ++ ".WinForms"]) ] /\
     ~ resolvedRefsPointEarlier (CSharpGenerator.projectFiles vbName) /\
     ~ resolvedRefsPointLater (CSharpGenerator.projectFiles vbName) /\
     orderedBy (CSharpGenerator.solutionFileProjects vbName)
               (CSharpGenerator.projectFiles vbName)) /\
    noRefResolves (graph Microservices).
Proof.
  intros vbName moduleAnalyses options graph. subst graph. cbn [generateStructure].
  split; [|split; [|split; [|split; [|split]]]].
  - split; [apply clean_graph_names|].
    split; [apply clean_infrastructure_present | apply clean_refs_earlier].
  - split; [reflexivity|].
    split; [apply layered_refs_later | apply layered_build_order].
  - split; [reflexivity|].
    split; [apply mvc_mixed|]. split; [apply mvc_mixed | apply mvc_build_order].
  - split; [reflexivity|].
    split; [apply mvvm_mixed|]. split; [apply mvvm_mixed | apply mvvm_build_order].
  - split; [reflexivity|]. split; [apply project_files_mixed|].
    split; [apply project_files_mixed | apply solution_build_order].
  - apply microservices_no_ref_resolves.
Qed.

End GraphClaims.

(** ** Claims about the extractor *)

Module ParserClaims.
Import JS VBParser Fixtures JSFacts.

Section Failures.
Variable world : World.
Variable projectPath : string.

Lemma parseUnit_ok kind push unitPath st :
  readable world projectPath unitPath = true \/ pathExists world (join world projectPath unitPath) = false ->
  exists st', parseUnit world projectPath kind push unitPath st = Ok st'.
Proof.
  unfold parseUnit, readable. intros H.
  destruct (pathExists world (join world projectPath unitPath)); cbn [negb].
  - destruct H as [H|H]; [|discriminate].
    destruct (readFile world (join world projectPath unitPath)); [|discriminate].
    eexists; reflexivity.
  - eexists; reflexivity.
Qed.

(** A source file the enumeration found is parsed whenever it can be
    read, and fails the call with the read error otherwise. *)
Lemma parseVBFile_readable filePath st :
  readable world projectPath filePath = true -> exists st', parseVBFile world projectPath filePath st = Ok st'.
Proof.
  intros H. unfold parseVBFile. pose proof H as H'. unfold readable in H'.
  destruct (readFile world (join world projectPath filePath)) as [content|]; [|discriminate].
  cbn [bind].
  destruct (String.eqb _ ".vb").
  { unfold parseVBCodeFile.
    destruct (_ && _); [eexists; reflexivity|].
    destruct (_ || _); [eexists; reflexivity|].
    destruct (includes content "Module "); eexists; reflexivity. }
  destruct (String.eqb _ ".frm"); [apply parseUnit_ok; now left|].
  destruct (String.eqb _ ".bas"); [apply parseUnit_ok; now left|].
  destruct (String.eqb _ ".cls"); [apply parseUnit_ok; now left|].
  eexists; reflexivity.
Qed.

Lemma parseVBFile_unreadable filePath st e :
  readFile world (join world projectPath filePath) = Throw e ->
  parseVBFile world projectPath filePath st = Throw e.
Proof. intros H. unfold parseVBFile. now rewrite H. Qed.

Lemma forEach_all_readable (files : list string) :
  forallb (readable world projectPath) files = true ->
  forall st, exists st', forEach (parseVBFile world projectPath) files st = Ok st'.
Proof.
  induction files as [|f files IH]; intros H st; cbn [forEach].
  - eexists; reflexivity.
  - cbn [forallb] in H. apply andb_true_iff in H as [Hf Hfiles].
    destruct (parseVBFile_readable f st Hf) as (st1 & ->). cbn [bind]. now apply IH.
Qed.

Lemma forEach_first_unreadable (earlier : list string) (f : string) (later : list string) e :
  forallb (readable world projectPath) earlier = true ->
  readFile world (join world projectPath f) = Throw e ->
  forall st, forEach (parseVBFile world projectPath) (earlier ++ f :: later) st = Throw e.
Proof.
  induction earlier as [|g earlier IH]; intros H Hf st; cbn [forEach app].
  - now rewrite (parseVBFile_unreadable f st e Hf).
  - cbn [forallb] in H. apply andb_true_iff in H as [Hg Hearlier].
    destruct (parseVBFile_readable g st Hg) as (st1 & ->). cbn [bind]. now apply IH.
Qed.

Lemma unknown_extension_ignored filePath st content :
  readFile world (join world projectPath filePath) = Ok content ->
  existsb (String.eqb (toLowerCase (extname world filePath))) [".vb"; ".frm"; ".bas"; ".cls"]
  = false ->
  parseVBFile world projectPath filePath st = Ok st.
Proof.
  intros Hr Hext. unfold parseVBFile. rewrite Hr. cbn [bind].
  cbn [existsb] in Hext. rewrite !orb_false_iff in Hext.
  destruct Hext as (H1 & H2 & H3 & H4 & _).
  now rewrite H1, H2, H3, H4.
Qed.

Lemma missing_unit_warned kind push unitPath st :
  pathExists world (join world projectPath unitPath) = false ->
  parseUnit world projectPath kind push unitPath st
  = Ok (warn (kind ++ " file not found: " ++ join world projectPath unitPath) st).
Proof. intros H. unfold parseUnit. now rewrite H. Qed.
End Failures.

(** C4, as stated, fails on the code: a source file that cannot be read
    is not caught and skipped, the whole call fails with its read error
    although a class had already been extracted from the file before it;
    and a project without any source unit is returned as a result, not as
    an error. *)
Lemma extract_claim_fails :
  (exists st,
      parseVBFile worldWithUnreadable "" "Order.vb"
        {| project := {| name := "Shop"; path := "Shop.vbproj"; targetFramework := "net48";
                         forms := []; modules := []; classes := [];
                         projectType := "WinForms" |}; warnings := [] |} = Ok st /\
      sourceUnits (project st) = 1) /\
  parseVBProject worldWithUnreadable ""
  = Throw (Error "EISDIR: illegal operation on a directory, read") /\
  (exists st, parseVBProject worldWithoutSources "" = Ok st /\
              sourceUnits (project st) = 0 /\ warnings st = []).
Proof.
  split; [|split].
  - eexists. split; [vm_compute; reflexivity | reflexivity].
  - vm_compute; reflexivity.
  - eexists. split; [vm_compute; reflexivity|]. split; reflexivity.
Qed.

(** C4, amended.  [parseVBProject] fails with the "no project files" error
    when no descriptor is found.  With a [.vbproj] descriptor that can be
    read and parsed it returns a project exactly when every enumerated
    source file can be read, also when there is no source unit at all, and
    otherwise fails with the error of the first file that cannot be read:
    nothing is caught per file.  What is recovered locally: a file whose
    extension is none of the four known ones is ignored, and a form, module
    or class file that does not exist is skipped with a console warning. *)
Theorem extract_failure_policy :
  forall (world : World) (projectPath : string),
    (globProjectFiles world = Ok [] ->
     parseVBProject world projectPath = Throw noProjectFiles) /\
    (forall projectFile others content manifest sources,
        globProjectFiles world = Ok (projectFile :: others) ->
        endsWith projectFile ".vbproj" = true ->
        readFile world (join world projectPath projectFile) = Ok content ->
        parseStringPromise world content = Ok manifest ->
        globVBFiles world = Ok sources ->
        (forallb (readable world projectPath) sources = true ->
         exists st, parseVBProject world projectPath = Ok st /\
                    (sources = [] -> sourceUnits (project st) = 0)) /\
        (forall earlier f later e,
            sources = (earlier ++ f :: later)%list ->
            forallb (readable world projectPath) earlier = true ->
            readFile world (join world projectPath f) = Throw e ->
            parseVBProject world projectPath = Throw e)) /\
    (forall filePath st content,
        readFile world (join world projectPath filePath) = Ok content ->
        existsb (String.eqb (toLowerCase (extname world filePath)))
                [".vb"; ".frm"; ".bas"; ".cls"] = false ->
        parseVBFile world projectPath filePath st = Ok st) /\
    (forall kind push unitPath st,
        pathExists world (join world projectPath unitPath) = false ->
        parseUnit world projectPath kind push unitPath st
        = Ok (warn (kind ++ " file not found: " ++ join world projectPath unitPath) st)).
Proof.
  intros world projectPath. split; [|split; [|split]].
  - intros H. unfold parseVBProject. now rewrite H.
  - intros projectFile others content manifest sources Hglob Hext Hread Hxml Hsources.
    assert (Hrun : parseVBProject world projectPath
                   = forEach (parseVBFile world projectPath) sources
                       {| project :=
                            {| name := basename world projectFile ".vbproj";
                               path := projectFile;
                               targetFramework := manifest_targetFramework manifest;
                               forms := []; modules := []; classes := [];
                               projectType := manifest_projectType manifest |};
                          warnings := [] |}).
    { unfold parseVBProject, parseProjectFile, parseVBProjFile.
      rewrite Hglob. cbn [bind]. rewrite Hread. cbn [bind]. rewrite Hext, Hxml. cbn [bind].
      now rewrite Hsources. }
    rewrite Hrun. split.
    + intros Hall. destruct (forEach_all_readable world projectPath sources Hall
                               {| project :=
                                    {| name := basename world projectFile ".vbproj";
                                       path := projectFile;
                                       targetFramework := manifest_targetFramework manifest;
                                       forms := []; modules := []; classes := [];
                                       projectType := manifest_projectType manifest |};
                                  warnings := [] |}) as (st & Hst).
      exists st. split; [exact Hst|]. intros ->. cbn [forEach] in Hst.
      inversion Hst; subst. reflexivity.
    + intros earlier f later e -> Hearlier Hf.
      now apply forEach_first_unreadable.
  - intros. now apply (unknown_extension_ignored world projectPath filePath st content).
  - intros. now apply missing_unit_warned.
Qed.

Lemma extract_failure_policy_witness :
  globProjectFiles worldWithUnreadable = Ok ["Shop.vbproj"] /\
  endsWith "Shop.vbproj" ".vbproj" = true /\
  forallb (readable worldWithUnreadable "") ["Order.vb"] = true /\
  parseVBProject worldWithUnreadable ""
  = Throw (Error "EISDIR: illegal operation on a directory, read") /\
  parseVBProject worldWithoutDescriptor "" = Throw noProjectFiles.
Proof.
  destruct (extract_failure_policy worldWithUnreadable "") as (_ & Hproj & _).
  destruct (Hproj "Shop.vbproj" [] (snd descriptor) manifest ["Order.vb"; "Legacy.vb"]
              eq_refl eq_refl eq_refl eq_refl eq_refl) as (_ & Hfail).
  destruct (extract_failure_policy worldWithoutDescriptor "") as (Hnone & _).
  split; [reflexivity|]. split; [reflexivity|]. split; [reflexivity|].
  split.
  - exact (Hfail ["Order.vb"] "Legacy.vb" []
                 (Error "EISDIR: illegal operation on a directory, read")
                 eq_refl eq_refl eq_refl).
  - exact (Hnone eq_refl).
Defined.

End ParserClaims.

(* ===================================================================== *)
(** ** The rule table as a collection: lookup, insertion, removal         *)
(* ===================================================================== *)

Module RuleTableProps.
Import JS MigrationRulesEngine.
Local Open Scope list_scope.

Lemma find_app_id (i : string) (l1 l2 : list MigrationRule) :
  find (fun rule => String.eqb (id rule) i) (l1 ++ l2)
  = match find (fun rule => String.eqb (id rule) i) l1 with
    | Some x => Some x
    | None => find (fun rule => String.eqb (id rule) i) l2
    end.
Proof.
  induction l1 as [|a l1 IH]; [reflexivity|].
  cbn [app find]. now destruct (String.eqb (id a) i).
Qed.

Lemma removeFirst_none (i : string) (l : list MigrationRule) :
  find (fun rule => String.eqb (id rule) i) l = None -> removeFirst i l = None.
Proof.
  induction l as [|a l IH]; [reflexivity|].
  cbn [find removeFirst]. destruct (String.eqb (id a) i); [discriminate|].
  intros H. now rewrite IH.
Qed.

Lemma removeFirst_some (i : string) (l : list MigrationRule) (r : MigrationRule) :
  find (fun rule => String.eqb (id rule) i) l = Some r ->
  exists l1 l2,
    l = l1 ++ r :: l2 /\ (forall x, In x l1 -> id x <> i) /\ id r = i /\
    removeFirst i l = Some (l1 ++ l2).
Proof.
  induction l as [|a l IH]; [discriminate|].
  cbn [find removeFirst]. destruct (String.eqb (id a) i) eqn:Ha.
  - intros H. injection H as <-. apply String.eqb_eq in Ha.
    exists [], l. repeat split; auto.
  - intros H. destruct (IH H) as (l1 & l2 & -> & Hl1 & Hr & Hrem).
    apply String.eqb_neq in Ha.
    exists (a :: l1), l2. rewrite Hrem. repeat split; auto.
    intros x [<-|Hx]; auto.
Qed.

Lemma removeFirst_app_fresh (i : string) (l : list MigrationRule) (r : MigrationRule) :
  find (fun rule => String.eqb (id rule) i) l = None -> id r = i ->
  removeFirst i (l ++ [r]) = Some l.
Proof.
  intros Hnone Hr. induction l as [|a l IH]; cbn [app removeFirst].
  - subst i. now rewrite String.eqb_refl.
  - cbn [find] in Hnone. destruct (String.eqb (id a) i); [discriminate|].
    now rewrite (IH Hnone).
Qed.

Lemma find_perm_unique (i : string) (l l' : list MigrationRule) :
  Permutation l l' -> NoDup (map id l) ->
  find (fun rule => String.eqb (id rule) i) l = find (fun rule => String.eqb (id rule) i) l'.
Proof.
  induction 1 as [|x l l' Hp IH|x y l|l l' l'' Hp1 IH1 Hp2 IH2]; intros Hnd.
  - reflexivity.
  - cbn [find]. destruct (String.eqb (id x) i); [reflexivity|].
    apply IH. now inversion Hnd.
  - cbn [find].
    destruct (String.eqb (id y) i) eqn:Hy, (String.eqb (id x) i) eqn:Hx; try reflexivity.
    apply String.eqb_eq in Hy, Hx. exfalso.
    inversion Hnd as [|? ? Hnot _]; subst. apply Hnot. left. congruence.
  - rewrite IH1 by assumption. apply IH2.
    apply (Permutation_NoDup (l := map id l)); [now apply Permutation_map | assumption].
Qed.

(** [removeRule] answers whether a rule with the identifier exists; if one
    does, exactly the first such rule leaves the table, every other rule
    stays where it was; if none does, the engine is unchanged. *)
Theorem removeRule_removes_first_match :
  forall (engine : Engine) (ruleId : string),
    (getRuleById engine ruleId = None -> removeRule engine ruleId = (false, engine)) /\
    (forall r, getRuleById engine ruleId = Some r ->
       exists l1 l2,
         rules engine = l1 ++ r :: l2 /\
         (forall x, In x l1 -> id x <> ruleId) /\ id r = ruleId /\
         removeRule engine ruleId = (true, {| rules := l1 ++ l2 |})).
Proof.
  intros engine ruleId. unfold getRuleById, removeRule. split.
  - intros H. now rewrite (removeFirst_none _ _ H).
  - intros r H. destruct (removeFirst_some _ _ _ H) as (l1 & l2 & Hl & Hl1 & Hr & Hrem).
    exists l1, l2. rewrite Hrem. repeat split; auto.
Qed.

(** Lookup after insertion: [getRuleById] finds a custom rule only if no
    rule already in the table carries its identifier, otherwise the older
    rule keeps answering.  Running [applyRules], which sorts the table in
    place, changes no lookup as long as identifiers are pairwise distinct. *)
Theorem getRuleById_after_addCustomRule :
  forall (engine : Engine) (rule : MigrationRule) (ruleId : string),
    getRuleById (addCustomRule engine rule) ruleId
    = match getRuleById engine ruleId with
      | Some older => Some older
      | None => if String.eqb (id rule) ruleId then Some rule else None
      end /\
    (NoDup (map id (rules engine)) ->
     forall stack content context,
       getRuleById (snd (applyRules stack engine content context)) ruleId
       = getRuleById engine ruleId).
Proof.
  intros engine rule ruleId. split.
  - unfold getRuleById, addCustomRule. cbn [rules]. now rewrite find_app_id.
  - intros Hnd stack content context. unfold getRuleById, applyRules. cbn [snd rules].
    symmetry. apply find_perm_unique; [|exact Hnd].
    symmetry. apply (SortFacts.sort_perm priority).
Qed.

Lemma removeFirst_app (i : string) (l l' m : list MigrationRule) :
  removeFirst i l = Some l' -> removeFirst i (l ++ m) = Some (l' ++ m).
Proof.
  revert l'. induction l as [|a l IH]; intros l'; [discriminate|].
  cbn [app removeFirst]. destruct (String.eqb (id a) i).
  - intros H. now injection H as <-.
  - destruct (removeFirst i l) as [l''|]; [|discriminate].
    intros H. injection H as <-. now rewrite (IH l'' eq_refl).
Qed.

(** Insertion followed by removal: with a fresh identifier the engine is
    back where it was; with an identifier already in use the call removes
    the older rule, the first one of the table that carries the
    identifier, and the custom rule stays, last in the table: the table
    [l1 ++ older :: l2] becomes [l1 ++ l2 ++ [rule]]. *)
Theorem addCustomRule_then_removeRule :
  forall (engine : Engine) (rule : MigrationRule),
    (getRuleById engine (id rule) = None ->
     removeRule (addCustomRule engine rule) (id rule) = (true, engine)) /\
    (forall older, getRuleById engine (id rule) = Some older ->
       exists l1 l2,
         rules engine = l1 ++ older :: l2 /\
         (forall x, In x l1 -> id x <> id rule) /\
         id older = id rule /\
         removeRule (addCustomRule engine rule) (id rule)
         = (true, {| rules := l1 ++ l2 ++ [rule] |})).
Proof.
  intros [rs] rule. unfold getRuleById, removeRule, addCustomRule. cbn [rules]. split.
  - intros H. now rewrite (removeFirst_app_fresh _ _ _ H eq_refl).
  - intros older H.
    destruct (removeFirst_some _ _ _ H) as (l1 & l2 & -> & Hl1 & Hr & Hrem).
    exists l1, l2. rewrite (removeFirst_app _ _ _ [rule] Hrem), <- app_assoc.
    repeat split; auto.
Qed.

Lemma addCustomRule_then_removeRule_witness :
  let fresh := rule "custom-fresh" "Syntax" 5 re_end_if (Literal "}") in
  let again := rule "vb-end-if" "Syntax" 5 re_end_if (Literal "end") in
  let older := rule "vb-end-if" "Syntax" 8 re_end_if (Literal "}") in
  getRuleById new (id fresh) = None /\
  removeRule (addCustomRule new fresh) (id fresh) = (true, new) /\
  getRuleById new (id again) = Some older /\
  (exists l1 l2,
      rules new = l1 ++ older :: l2 /\
      removeRule (addCustomRule new again) (id again)
      = (true, {| rules := l1 ++ l2 ++ [again] |})).
Proof.
  intros fresh again older.
  destruct (addCustomRule_then_removeRule new fresh) as [Hfresh _].
  destruct (addCustomRule_then_removeRule new again) as [_ Hused].
  assert (Hnone : getRuleById new (id fresh) = None) by reflexivity.
  assert (Hsome : getRuleById new (id again) = Some older) by reflexivity.
  split; [exact Hnone|]. split; [exact (Hfresh Hnone)|]. split; [exact Hsome|].
  destruct (Hused older Hsome) as (l1 & l2 & Hrules & _ & _ & Hrun).
  exists l1, l2. split; [exact Hrules | exact Hrun].
Defined.

End RuleTableProps.

(* ===================================================================== *)
(** ** Where a custom rule lands in the applied order                     *)
(* ===================================================================== *)

Module CustomRuleOrder.
Import JS MigrationRulesEngine RuleSpec JSFacts.
Local Open Scope list_scope.

Lemma insert_last (a r : MigrationRule) (m : list MigrationRule) :
  (priority r <= priority a)%Z ->
  JSArray.insert byPriority a (m ++ [r]) = JSArray.insert byPriority a m ++ [r].
Proof.
  intros Hle. induction m as [|y m IH]; cbn [app JSArray.insert].
  - unfold byPriority. destruct (Z.leb_spec (priority r - priority a) 0); [reflexivity|lia].
  - destruct (byPriority a y <=? 0)%Z; [reflexivity|]. now rewrite IH.
Qed.

Lemma sort_lowest_last (l : list MigrationRule) (r : MigrationRule) :
  Forall (fun a => (priority r <= priority a)%Z) l ->
  sortRules (l ++ [r]) = sortRules l ++ [r].
Proof.
  unfold sortRules. induction 1 as [|a l Ha Hl IH]; [reflexivity|].
  cbn [app JSArray.sort]. rewrite IH. now apply insert_last.
Qed.

Lemma sort_highest_first (l : list MigrationRule) (r : MigrationRule) :
  Forall (fun a => (priority a < priority r)%Z) l ->
  sortRules (l ++ [r]) = r :: sortRules l.
Proof.
  unfold sortRules. induction 1 as [|a l Ha Hl IH]; [reflexivity|].
  cbn [app JSArray.sort]. rewrite IH. cbn [JSArray.insert]. unfold byPriority at 1.
  destruct (Z.leb_spec (priority r - priority a) 0); [lia|reflexivity].
Qed.

Lemma sort_head_highest (l : list MigrationRule) (r : MigrationRule) :
  Forall (fun a => (priority a < priority r)%Z) l ->
  sortRules (r :: l) = r :: sortRules l.
Proof.
  intros H. unfold sortRules. cbn [JSArray.sort].
  assert (Hs : Forall (fun a => (priority a < priority r)%Z) (JSArray.sort byPriority l)).
  { rewrite Forall_forall in *. intros a Ha. apply H.
    now apply (SortFacts.sort_in priority). }
  destruct (JSArray.sort byPriority l) as [|y m]; [reflexivity|].
  cbn [JSArray.insert]. unfold byPriority at 1. inversion Hs; subst.
  destruct (Z.leb_spec (priority y - priority r) 0); [reflexivity|lia].
Qed.

(** A rule added with [addCustomRule] whose priority is above every rule
    in the table is applied first: the run is the step of the custom rule
    on the input followed by the steps of the other rules in their applied
    order, exactly as if the rule had been declared at the head of the
    table, and the rule array is left with the custom rule in front.  One
    whose priority is not above any rule in the table is applied last,
    after the rules of equal priority: the run is the steps of the other
    rules followed by the step of the custom rule on what they leave, and
    the rule array is left with the custom rule at the end. *)
Theorem custom_rule_position :
  forall (engine : Engine) (rule : MigrationRule),
    (Forall (fun a => (priority a < priority rule)%Z) (rules engine) ->
     forall stack content context,
       let this := callbackThis stack (rules (addCustomRule engine rule)) in
       fst (applyRules (S stack) (addCustomRule engine rule) content context)
       = bind (ruleStep this context content rule)
              (foldRules (ruleStep this context) (appliedOrder priority (rules engine))) /\
       fst (applyRules (S stack) (addCustomRule engine rule) content context)
       = applyRulesN (S stack) (rule :: rules engine) content context /\
       rules (snd (applyRules (S stack) (addCustomRule engine rule) content context))
       = rule :: sortRules (rules engine)) /\
    (Forall (fun a => (priority rule <= priority a)%Z) (rules engine) ->
     forall stack content context,
       let this := callbackThis stack (rules (addCustomRule engine rule)) in
       fst (applyRules (S stack) (addCustomRule engine rule) content context)
       = bind (foldRules (ruleStep this context) (appliedOrder priority (rules engine)) content)
              (fun text => ruleStep this context text rule) /\
       rules (snd (applyRules (S stack) (addCustomRule engine rule) content context))
       = sortRules (rules engine) ++ [rule]).
Proof.
  intros engine rule.
  split; intros H stack content context this; subst this;
    unfold applyRules, addCustomRule; cbn [fst snd rules].
  - rewrite EngineFacts.applyRulesN_fold. unfold applyRulesSpec.
    rewrite <- !EngineFacts.sortRules_appliedOrder, (sort_highest_first _ _ H).
    split; [reflexivity|]. split; [|reflexivity].
    rewrite EngineFacts.applyRulesN_fold. unfold applyRulesSpec, callbackThis.
    rewrite <- !EngineFacts.sortRules_appliedOrder.
    now rewrite (sort_highest_first _ _ H),
      (sort_head_highest _ _ H).
  - rewrite EngineFacts.applyRulesN_fold. unfold applyRulesSpec.
    rewrite <- !EngineFacts.sortRules_appliedOrder, (sort_lowest_last _ _ H).
    split; [|reflexivity].
    rewrite EngineFacts.foldRules_app. apply bind_ext. intros text. cbn [foldRules].
    apply bind_ok.
Qed.

Lemma custom_rule_position_witness :
  let urgent := rule "custom-urgent" "Syntax" 11 re_end_if (Literal "Dim x As String") in
  let late := rule "custom-late" "Syntax" 1 (re_keyword "string") (Literal "text") in
  let context := testContext "End If" in
  Forall (fun a => (priority a < priority urgent)%Z) (rules new) /\
  Forall (fun a => (priority late <= priority a)%Z) (rules new) /\
  fst (applyRules 1 (addCustomRule new urgent) "End If" context) = Ok "string x" /\
  fst (applyRules 1 (addCustomRule new late) "Dim x As String" context) = Ok "text x" /\
  rules (snd (applyRules 1 (addCustomRule new urgent) "End If" context))
  = urgent :: sortRules (rules new) /\
  rules (snd (applyRules 1 (addCustomRule new late) "Dim x As String" context))
  = sortRules (rules new) ++ [late].
Proof.
  intros urgent late context.
  assert (Hhigh : Forall (fun a => (priority a < priority urgent)%Z) (rules new))
    by (repeat constructor).
  assert (Hlow : Forall (fun a => (priority late <= priority a)%Z) (rules new))
    by (repeat constructor; cbn; lia).
  destruct (proj1 (custom_rule_position new urgent) Hhigh 0 "End If" context)
    as (Hfirst & _ & Harray1).
  destruct (proj2 (custom_rule_position new late) Hlow 0 "Dim x As String" context)
    as (Hlast & Harray2).
  split; [exact Hhigh|]. split; [exact Hlow|].
  split; [rewrite Hfirst; vm_compute; reflexivity|].
  split; [rewrite Hlast; vm_compute; reflexivity|].
  split; [exact Harray1 | exact Harray2].
Defined.

End CustomRuleOrder.

(* ===================================================================== *)
(** ** Facts about [split], [join] and [trim]                             *)
(* ===================================================================== *)

Module StringFacts.
Import JS JSFacts.

Lemma rev_onto_app (s acc : string) : rev_onto s acc = rev s ++ acc.
Proof.
  unfold rev. revert acc. induction s as [|c s IH]; intros acc; cbn [rev_onto].
  - reflexivity.
  - rewrite IH, (IH (String c "")), append_assoc. reflexivity.
Qed.

Lemma rev_cons (c : ascii) (s : string) : rev (String c s) = rev s ++ String c "".
Proof. unfold rev at 1. cbn [rev_onto]. apply rev_onto_app. Qed.

Lemma rev_app (a b : string) : rev (a ++ b) = rev b ++ rev a.
Proof.
  induction a as [|c a IH]; cbn [append].
  - now rewrite append_empty_r.
  - now rewrite !rev_cons, IH, append_assoc.
Qed.

Lemma rev_involutive (s : string) : rev (rev s) = s.
Proof.
  induction s as [|c s IH]; [reflexivity|].
  now rewrite rev_cons, rev_app, IH.
Qed.

(** *** [split] and [join] *)

Lemma split_aux_spec (sep : ascii) (s cur : string) :
  split_aux sep s cur
  = match split sep s with
    | hd :: tl => (rev cur ++ hd) :: tl
    | [] => []
    end.
Proof.
  unfold split. revert cur. induction s as [|c s IH]; intros cur; cbn [split_aux].
  - change (rev "") with "". now rewrite append_empty_r.
  - destruct (Ascii.eqb c sep).
    + change (rev "") with "". now rewrite append_empty_r.
    + rewrite (IH (String c cur)), (IH (String c "")).
      destruct (split_aux sep s "") as [|hd tl]; [reflexivity|].
      rewrite rev_cons, append_assoc. reflexivity.
Qed.

Lemma split_sep (sep : ascii) (s : string) : split sep (String sep s) = "" :: split sep s.
Proof. unfold split. cbn [split_aux]. now rewrite Ascii.eqb_refl. Qed.

Lemma split_other (sep c : ascii) (s : string) :
  Ascii.eqb c sep = false ->
  split sep (String c s)
  = match split sep s with hd :: tl => String c hd :: tl | [] => [] end.
Proof.
  intros H. unfold split at 1. cbn [split_aux]. rewrite H. apply split_aux_spec.
Qed.

Lemma split_nonempty (sep : ascii) (s : string) : split sep s <> [].
Proof.
  induction s as [|c s IH]; [discriminate|].
  destruct (Ascii.eqb c sep) eqn:H.
  - apply Ascii.eqb_eq in H. subst. rewrite split_sep. discriminate.
  - rewrite (split_other _ _ _ H). destruct (split sep s); [contradiction|discriminate].
Qed.

(** The text contains the character. *)
Lemma includes_char (sep c : ascii) (s : string) :
  includes (String c s) (String sep "")
  = Ascii.eqb c sep || includes s (String sep "").
Proof.
  cbn [includes startsWith]. destruct s; now rewrite andb_true_r.
Qed.

Lemma includes_char_app (sep : ascii) (a b : string) :
  includes (a ++ b) (String sep "")
  = includes a (String sep "") || includes b (String sep "").
Proof.
  induction a as [|c a IH].
  - cbn [append]. change (includes "" (String sep "")) with false. reflexivity.
  - cbn [append]. rewrite !includes_char, IH. now rewrite orb_assoc.
Qed.

Lemma includes_char_rev (sep : ascii) (s : string) :
  includes (rev s) (String sep "") = includes s (String sep "").
Proof.
  induction s as [|c s IH]; [reflexivity|].
  rewrite rev_cons, includes_char_app, IH, !includes_char.
  change (includes "" (String sep "")) with false. rewrite orb_false_r. apply orb_comm.
Qed.

Lemma split_free (sep : ascii) (s : string) :
  includes s (String sep "") = false -> split sep s = [s].
Proof.
  induction s as [|c s IH]; [reflexivity|].
  rewrite includes_char. intros H. apply orb_false_iff in H as [Hc Hs].
  rewrite (split_other _ _ _ Hc), (IH Hs). reflexivity.
Qed.

Lemma split_app_free (sep : ascii) (a b : string) :
  includes a (String sep "") = false ->
  split sep (a ++ String sep b) = a :: split sep b.
Proof.
  induction a as [|c a IH]; cbn [append].
  - intros _. apply split_sep.
  - rewrite includes_char. intros H. apply orb_false_iff in H as [Hc Ha].
    rewrite (split_other _ _ _ Hc), (IH Ha). reflexivity.
Qed.

Lemma split_In_free (sep : ascii) (s x : string) :
  In x (split sep s) -> includes x (String sep "") = false.
Proof.
  revert x. induction s as [|c s IH]; intros x.
  - intros [<-|[]]. reflexivity.
  - destruct (Ascii.eqb c sep) eqn:H.
    + apply Ascii.eqb_eq in H. subst. rewrite split_sep. intros [<-|Hx]; [reflexivity|auto].
    + rewrite (split_other _ _ _ H).
      destruct (split sep s) as [|hd tl] eqn:Hs; [intros []|].
      intros [<-|Hx].
      * rewrite includes_char, H. apply IH. now left.
      * apply IH. now right.
Qed.

Lemma join_cons (sep x : string) (l : list string) :
  l <> [] -> join sep (x :: l) = x ++ sep ++ join sep l.
Proof. destruct l; [contradiction|reflexivity]. Qed.

(** Joining the pieces of a split gives the text back. *)
Lemma join_split (sep : ascii) (s : string) : join (String sep "") (split sep s) = s.
Proof.
  induction s as [|c s IH]; [reflexivity|].
  destruct (Ascii.eqb c sep) eqn:H.
  - apply Ascii.eqb_eq in H. subst.
    rewrite split_sep, join_cons by apply split_nonempty. now rewrite IH.
  - rewrite (split_other _ _ _ H).
    pose proof (split_nonempty sep s) as Hne.
    destruct (split sep s) as [|hd tl]; [contradiction|].
    destruct tl as [|y tl].
    + cbn [join] in *. now rewrite IH.
    + rewrite join_cons in * by discriminate. cbn [append] in *. now rewrite IH.
Qed.

(** Splitting a join gives the pieces back, as long as no piece contains
    the separator. *)
Lemma split_join (sep : ascii) (l : list string) :
  l <> [] ->
  (forall x, In x l -> includes x (String sep "") = false) ->
  split sep (join (String sep "") l) = l.
Proof.
  induction l as [|x l IH]; [contradiction|].
  intros _ Hfree. destruct l as [|y l].
  - cbn [join]. apply split_free. apply Hfree. now left.
  - rewrite join_cons by discriminate. cbn [append].
    rewrite split_app_free by (apply Hfree; now left).
    rewrite IH; [reflexivity|discriminate|]. intros z Hz. apply Hfree. now right.
Qed.

Lemma length_split_join (sep : ascii) (l : list string) :
  l <> [] ->
  (forall x, In x l -> includes x (String sep "") = false) ->
  List.length (split sep (join (String sep "") l)) = List.length l.
Proof. intros H1 H2. now rewrite split_join. Qed.

(** *** [trim] *)

Lemma trimStart_idem (s : string) : trimStart (trimStart s) = trimStart s.
Proof.
  induction s as [|c s IH]; [reflexivity|].
  cbn [trimStart]. destruct (is_space c) eqn:H; [exact IH|].
  cbn [trimStart]. now rewrite H.
Qed.

Lemma trimStart_suffix (s : string) :
  exists w, s = w ++ trimStart s /\ trimStart w = "".
Proof.
  induction s as [|c s (w & Hs & Hw)].
  - exists "". split; reflexivity.
  - cbn [trimStart]. destruct (is_space c) eqn:H.
    + exists (String c w). cbn [append trimStart]. rewrite H, <- Hs. now split.
    + exists "". split; reflexivity.
Qed.

Lemma trimStart_app_blank (w s : string) :
  trimStart w = "" -> trimStart (w ++ s) = trimStart s.
Proof.
  induction w as [|c w IH]; [reflexivity|].
  cbn [trimStart append]. destruct (is_space c); [exact IH|discriminate].
Qed.

Lemma trimStart_app_fixed (a b : string) :
  a <> "" -> trimStart a = a -> trimStart (a ++ b) = a ++ b.
Proof.
  destruct a as [|c a]; [contradiction|]. intros _.
  cbn [trimStart append]. destruct (is_space c); [|reflexivity].
  intros H. exfalso.
  destruct (trimStart_suffix a) as (w & Ha & _).
  apply (f_equal String.length) in H. apply (f_equal String.length) in Ha.
  rewrite length_append in Ha. cbn [String.length] in H. lia.
Qed.

Lemma trimEnd_fixed (s : string) : trimStart (rev s) = rev s -> trimEnd s = s.
Proof. intros H. unfold trimEnd. rewrite H. apply rev_involutive. Qed.

(** The result of [trim] has no white space at either end. *)
Lemma trim_trimmed (s : string) :
  trimStart (trim s) = trim s /\ trimStart (rev (trim s)) = rev (trim s).
Proof.
  unfold trim, trimEnd. set (t := trimStart s). set (u := trimStart (rev t)).
  split.
  - destruct (trimStart_suffix (rev t)) as (w & Hrev & Hw). fold u in Hrev.
    assert (Ht : t = rev u ++ rev w).
    { rewrite <- (rev_involutive t), Hrev. apply rev_app. }
    destruct u as [|c u'] eqn:Hu; [reflexivity|].
    assert (Hfix : trimStart t = t) by apply trimStart_idem.
    assert (Hne : rev (String c u') <> "").
    { rewrite rev_cons. destruct (rev u'); discriminate. }
    (* the first character of [t] is the first character of [rev u] *)
    destruct (rev (String c u')) as [|d r] eqn:Hr; [contradiction|].
    rewrite Ht in Hfix. cbn [append trimStart] in Hfix.
    cbn [trimStart]. destruct (is_space d); [|reflexivity].
    exfalso.
    destruct (trimStart_suffix (r ++ rev w)) as (w' & Hl & _).
    apply (f_equal String.length) in Hfix. apply (f_equal String.length) in Hl.
    cbn [String.length] in Hfix. rewrite !length_append in *. lia.
  - rewrite rev_involutive. apply trimStart_idem.
Qed.

Lemma trim_idem (s : string) : trim (trim s) = trim s.
Proof.
  destruct (trim_trimmed s) as [H1 H2].
  unfold trim at 1. rewrite H1. now apply trimEnd_fixed.
Qed.

(** A trimmed, non-empty text followed by a character that is not white
    space is trimmed. *)
Lemma trim_app_char (s : string) (c : ascii) :
  s <> "" -> trim s = s -> is_space c = false -> trim (s ++ String c "") = s ++ String c "".
Proof.
  intros Hne Hs Hc.
  assert (H1 : trimStart s = s).
  { rewrite <- Hs. apply trim_trimmed. }
  unfold trim. rewrite (trimStart_app_fixed _ _ Hne H1).
  apply trimEnd_fixed. rewrite rev_app. change (rev (String c "")) with (String c "").
  cbn [append trimStart]. now rewrite Hc.
Qed.

Lemma includes_char_trimStart (sep : ascii) (s : string) :
  includes s (String sep "") = false -> includes (trimStart s) (String sep "") = false.
Proof.
  induction s as [|c s IH]; [reflexivity|].
  intros H. cbn [trimStart]. destruct (is_space c); [|exact H].
  rewrite includes_char in H. apply orb_false_iff in H as [_ H]. auto.
Qed.

Lemma includes_char_trim (sep : ascii) (s : string) :
  includes s (String sep "") = false -> includes (trim s) (String sep "") = false.
Proof.
  intros H. unfold trim, trimEnd.
  rewrite includes_char_rev. apply includes_char_trimStart.
  rewrite includes_char_rev. now apply includes_char_trimStart.
Qed.

End StringFacts.

(* ===================================================================== *)
(** ** The shape of a converted method body                               *)
(* ===================================================================== *)

Module MethodBodyProps.
Import JS MigrationRulesEngine StringFacts.

Lemma indentLine_free (line : string) :
  includes line nl = false -> includes (indentLine line) nl = false.
Proof.
  intros H. unfold indentLine. destruct (String.eqb (trim line) ""); [exact H|].
  unfold nl in *. now rewrite includes_char_app, H.
Qed.

Lemma indentLine_shape (line : string) :
  trim (indentLine line) = "" \/ startsWith (indentLine line) "    " = true.
Proof.
  unfold indentLine. destruct (String.eqb (trim line) "") eqn:H.
  - left. now apply String.eqb_eq.
  - right. cbn [append startsWith]. rewrite !Ascii.eqb_refl. now destruct line.
Qed.

(** For a body that is not blank, [convertMethodBody] returns the text the
    engine produced with its line structure intact: the same number of
    lines, each blank line unchanged and every other line indented by four
    spaces. *)
Theorem convertMethodBody_keeps_lines :
  forall (applyRules : string -> MigrationContext -> result string) (vbBody csBody : string),
    trim vbBody <> "" ->
    applyRules vbBody (bodyContext vbBody) = Ok csBody ->
    exists out,
      convertMethodBody applyRules (VString vbBody) = Ok out /\
      split LF out = map indentLine (split LF csBody) /\
      List.length (split LF out) = List.length (split LF csBody) /\
      (forall line, In line (split LF out) ->
         trim line = "" \/ startsWith line "    " = true).
Proof.
  intros applyRules vbBody csBody Hbody Hrules.
  assert (Hne : vbBody <> "") by (intros ->; now apply Hbody).
  unfold convertMethodBody. cbn [truthy].
  apply String.eqb_neq in Hne, Hbody. rewrite Hne, Hbody. cbn [negb].
  rewrite Hrules. cbn [bind]. eexists. split; [reflexivity|].
  assert (Hsplit : split LF (join nl (map indentLine (split LF csBody)))
                   = map indentLine (split LF csBody)).
  { apply split_join.
    - pose proof (split_nonempty LF csBody). destruct (split LF csBody); [contradiction|discriminate].
    - intros x Hx. apply in_map_iff in Hx as (line & <- & Hline).
      apply indentLine_free. now apply (split_In_free LF csBody). }
  rewrite Hsplit. split; [reflexivity|]. split; [apply length_map|].
  intros line Hline. apply in_map_iff in Hline as (l & <- & _). apply indentLine_shape.
Qed.

Lemma convertMethodBody_keeps_lines_witness :
  let body := "Dim total As Integer" ++ nl ++ nl ++ "  total = 1" in
  let engine := applyRulesN 3 (sortRules initializeRules) in
  trim body <> "" /\
  engine body (bodyContext body) = Ok ("int total" ++ nl ++ nl ++ "  total = 1") /\
  convertMethodBody engine (VString body)
  = Ok ("    int total" ++ nl ++ nl ++ "      total = 1").
Proof.
  intros body engine.
  assert (H1 : trim body <> "") by (vm_compute; discriminate).
  assert (H2 : engine body (bodyContext body) = Ok ("int total" ++ nl ++ nl ++ "  total = 1"))
    by (vm_compute; reflexivity).
  split; [exact H1|]. split; [exact H2|].
  destruct (convertMethodBody_keeps_lines engine body _ H1 H2) as (out & Hout & _).
  rewrite Hout. vm_compute in Hout. injection Hout as <-. reflexivity.
Defined.

End MethodBodyProps.

(* ===================================================================== *)
(** ** The final clean-up of the enhanced engine                          *)
(* ===================================================================== *)

Module CleanupProps.
Import JS RegExp EnhancedMigrationEngine StringFacts.

(** A template replacement cannot throw. *)
Lemma assemble_template_ok (tpl str : string) (ms : list match_result) :
  forall pos, exists out, assemble (Template tpl) str ms pos = Ok out.
Proof.
  induction ms as [|m ms IH]; intros pos; cbn [assemble replacement_for bind].
  - eexists; reflexivity.
  - destruct (IH (index m + String.length (matched m))) as (tail & ->).
    cbn [bind]. eexists; reflexivity.
Qed.

Lemma template_ok (pat : RegExp.t) (tpl content : string) :
  exists out, template pat tpl content = Ok out.
Proof. unfold template, replace. apply assemble_template_ok. Qed.

Lemma addSemicolon_cases (line : string) :
  addSemicolon line = line \/ addSemicolon line = line ++ ";".
Proof.
  unfold addSemicolon.
  repeat match goal with |- context [if ?b then _ else _] => destruct b end; auto.
Qed.

Lemma addSemicolon_clean (line : string) :
  line <> "" -> trim line = line -> includes line nl = false ->
  addSemicolon line <> "" /\ trim (addSemicolon line) = addSemicolon line /\
  includes (addSemicolon line) nl = false.
Proof.
  intros Hne Htrim Hfree. destruct (addSemicolon_cases line) as [-> | ->]; [auto|].
  split; [|split].
  - destruct line; discriminate.
  - now apply trim_app_char.
  - unfold nl in *. now rewrite includes_char_app, Hfree.
Qed.

Lemma postProcessContent_ok (content : string) :
  exists out, postProcessContent content = Ok out.
Proof.
  unfold postProcessContent.
  destruct (template_ok (Make (lit "End if") true false) "" content) as (r1 & ->). cbn [bind].
  destruct (template_ok (Make (lit "End If") true false) "" r1) as (r2 & ->). cbn [bind].
  destruct (template_ok (Make (lit "End Sub") true false) "" r2) as (r3 & ->). cbn [bind].
  destruct (template_ok (Make (lit "End Function") true false) "" r3) as (r4 & ->). cbn [bind].
  eexists; reflexivity.
Qed.

(** Whatever the text, [postProcessContent] returns, and what it returns
    is either empty or a text without empty lines in which no line starts
    or ends with white space: indentation and blank lines are gone. *)
Theorem postProcessContent_strips_layout :
  forall content : string,
    exists out,
      postProcessContent content = Ok out /\
      (out = "" \/
       forall line, In line (split LF out) -> line <> "" /\ trim line = line).
Proof.
  intros content. unfold postProcessContent.
  destruct (template_ok (Make (lit "End if") true false) "" content) as (r1 & ->). cbn [bind].
  destruct (template_ok (Make (lit "End If") true false) "" r1) as (r2 & ->). cbn [bind].
  destruct (template_ok (Make (lit "End Sub") true false) "" r2) as (r3 & ->). cbn [bind].
  destruct (template_ok (Make (lit "End Function") true false) "" r3) as (r4 & ->). cbn [bind].
  eexists. split; [reflexivity|].
  remember (filter (fun line => negb (Nat.eqb (String.length line) 0))
                   (map trim (split LF r4))) as kept eqn:Hkeptdef.
  assert (Hkept : forall t, In t kept ->
                    t <> "" /\ trim t = t /\ includes t nl = false).
  { intros t Ht. rewrite Hkeptdef in Ht. apply filter_In in Ht as [Hin Hlen].
    apply in_map_iff in Hin as (l0 & <- & Hl0). split; [|split].
    - intros Heq. rewrite Heq in Hlen. discriminate.
    - apply trim_idem.
    - apply includes_char_trim. now apply (split_In_free LF r4). }
  clear Hkeptdef.
  destruct kept as [|t kept']; [left; reflexivity|]. right.
  assert (Hclean : forall x, In x (map addSemicolon (t :: kept')) ->
                     x <> "" /\ trim x = x /\ includes x nl = false).
  { intros x Hx. apply in_map_iff in Hx as (t0 & <- & Ht0).
    destruct (Hkept t0 Ht0) as (H1 & H2 & H3). now apply addSemicolon_clean. }
  rewrite split_join.
  - intros line Hline. destruct (Hclean line Hline) as (H1 & H2 & _). now split.
  - discriminate.
  - intros x Hx. now apply Hclean.
Qed.

End CleanupProps.

(* ===================================================================== *)
(** ** The matcher as a relation; which captures a match defines          *)
(* ===================================================================== *)

Module RegExpSemantics.
Import JS RegExp JSFacts.
Local Open Scope list_scope.

Lemma length_set_cap (i : nat) (v : option string) (cs : list (option string)) :
  List.length (set_cap i v cs) = List.length cs.
Proof.
  revert i. induction cs as [|c cs IH]; intros i; [now destruct i|].
  destruct i; cbn [set_cap List.length]; [reflexivity|]. now rewrite IH.
Qed.

Lemma nth_set_cap_other (i j : nat) (v : option string) (cs : list (option string)) :
  j <> i -> nth j (set_cap i v cs) None = nth j cs None.
Proof.
  revert i j. induction cs as [|c cs IH]; intros i j H; [now destruct i|].
  destruct i, j; cbn [set_cap nth]; try reflexivity; [contradiction|].
  apply IH. lia.
Qed.

Lemma nth_set_cap_same (i : nat) (v : option string) (cs : list (option string)) :
  i < List.length cs -> nth i (set_cap i v cs) None = v.
Proof.
  revert i. induction cs as [|c cs IH]; intros i H; cbn [List.length] in H; [lia|].
  destruct i; cbn [set_cap nth]; [reflexivity|]. apply IH. lia.
Qed.

Lemma length_clear_caps (count from : nat) (cs : list (option string)) :
  List.length (clear_caps from count cs) = List.length cs.
Proof.
  revert from cs. induction count as [|count IH]; intros from cs; [reflexivity|].
  cbn [clear_caps]. now rewrite IH, length_set_cap.
Qed.

Lemma nth_clear_caps_other (count from j : nat) (cs : list (option string)) :
  j < from \/ from + count <= j ->
  nth j (clear_caps from count cs) None = nth j cs None.
Proof.
  revert from cs. induction count as [|count IH]; intros from cs H; [reflexivity|].
  cbn [clear_caps]. rewrite IH by lia. apply nth_set_cap_other. lia.
Qed.

(** Every result of the matcher goes through the continuation, at a state
    the pattern can reach. *)
Lemma repeatMatcher_rounds (m : mstate -> (mstate -> option mstate) -> option mstate)
      (step : mstate -> mstate -> Prop) clear greedy k :
  (forall x k' z, m x k' = Some z -> exists y, step x y /\ k' y = Some z) ->
  forall budget min max x z,
    repeatMatcher m clear greedy k budget min max x = Some z ->
    exists y, rounds (fun a b => step (clear a) b) x y /\ k y = Some z.
Proof.
  intros Hm. induction budget as [|budget IH]; intros min max x z H.
  - cbn [repeatMatcher] in H. destruct max as [[|n]|]; try discriminate.
    exists x. split; [constructor|exact H].
  - assert (Hround : forall max',
              m (clear x)
                (fun y => if Nat.eqb min 0
                               && Nat.eqb (String.length (rest y)) (String.length (rest x))
                          then None
                          else repeatMatcher m clear greedy k budget (Nat.pred min) max' y)
              = Some z ->
              exists y, rounds (fun a b => step (clear a) b) x y /\ k y = Some z).
    { intros max' Hr. apply Hm in Hr as (y1 & Hstep & Hk).
      destruct (Nat.eqb min 0 && _); [discriminate|].
      apply IH in Hk as (y & Hrounds & Hy).
      exists y. split; [|exact Hy]. now apply (rounds_more _ x y1 y). }
    assert (Hstop : k x = Some z ->
                    exists y, rounds (fun a b => step (clear a) b) x y /\ k y = Some z).
    { intros Hk. exists x. split; [constructor|exact Hk]. }
    cbn [repeatMatcher] in H.
    destruct max as [[|n]|]; [now apply Hstop| |];
      (destruct (negb (Nat.eqb min 0)); [now apply Hround in H|];
       destruct greedy;
       [ match type of H with
         | match ?e with _ => _ end = _ => destruct e eqn:He
         end; [injection H as ->; now apply Hround in He | now apply Hstop]
       | destruct (k x) eqn:Hkx; [injection H as ->; now apply Hstop | now apply Hround in H] ]).
Qed.

Lemma matcher_reaches (ml : bool) (r : regex) :
  forall pi x k z,
    matcher ml r pi x k = Some z -> exists y, reaches ml r pi x y /\ k y = Some z.
Proof.
  induction r as [|c| |negated items|r1 IH1 r2 IH2|r1 IH1 r2 IH2
                 |min max greedy r1 IH1|r1 IH1|r1 IH1| | |];
    intros pi x k z H; cbn [matcher] in H; cbn [reaches].
  - now exists x.
  - unfold step_char in H. destruct (rest x) as [|a s'] eqn:Hx; [discriminate|].
    destruct (Ascii.eqb c a) eqn:Hc; [|discriminate]. apply Ascii.eqb_eq in Hc. subst a.
    eexists. split; [|exact H]. now exists s'.
  - unfold step_char in H. destruct (rest x) as [|a s'] eqn:Hx; [discriminate|].
    destruct (negb (is_line_terminator a)) eqn:Hc; [|discriminate].
    apply negb_true_iff in Hc.
    eexists. split; [|exact H]. now exists a, s'.
  - unfold step_char in H. destruct (rest x) as [|a s'] eqn:Hx; [discriminate|].
    destruct (class_matches negated items a) eqn:Hc; [|discriminate].
    eexists. split; [|exact H]. now exists a, s'.
  - apply IH1 in H as (m & Hm & H). apply IH2 in H as (y & Hy & H).
    exists y. split; [|exact H]. now exists m.
  - destruct (matcher ml r1 pi x k) eqn:H1.
    + injection H as ->. apply IH1 in H1 as (y & Hy & H1). exists y. split; [now left|exact H1].
    + apply IH2 in H as (y & Hy & H). exists y. split; [now right|exact H].
  - now apply (repeatMatcher_rounds _ (reaches ml r1 pi) _ _ _ (IH1 pi)) in H.
  - apply IH1 in H as (m & Hm & H). eexists. split; [|exact H]. now exists m.
  - destruct (matcher ml r1 pi x (fun y => Some y)) as [y0|] eqn:H1; [|discriminate].
    apply IH1 in H1 as (m & Hm & Heq). injection Heq as ->.
    eexists. split; [|exact H]. now exists y0.
  - destruct (xorb _ _); [|discriminate]. now exists x.
  - destruct (prev x) as [c|]; [destruct (ml && _); [|discriminate]|]; now exists x.
  - destruct (next_char x) as [c|]; [destruct (ml && _); [|discriminate]|]; now exists x.
Qed.

(** A match changes no capture outside the groups of the pattern, and
    never the number of captures. *)
Lemma reaches_frame (ml : bool) (r : regex) :
  forall pi x y,
    reaches ml r pi x y ->
    List.length (caps y) = List.length (caps x) /\
    forall i, i < pi \/ pi + count_groups r <= i -> nth i (caps y) None = nth i (caps x) None.
Proof.
  induction r as [|c| |negated items|r1 IH1 r2 IH2|r1 IH1 r2 IH2
                 |min max greedy r1 IH1|r1 IH1|r1 IH1| | |];
    intros pi x y H; cbn [reaches count_groups] in *.
  - subst. now split.
  - destruct H as (s' & _ & ->). now split.
  - destruct H as (a & s' & _ & _ & ->). now split.
  - destruct H as (a & s' & _ & _ & ->). now split.
  - destruct H as (m & H1 & H2).
    apply IH1 in H1 as [L1 F1]. apply IH2 in H2 as [L2 F2]. split; [congruence|].
    intros i Hi. rewrite F2, F1 by lia. reflexivity.
  - destruct H as [H|H].
    + apply IH1 in H as [L F]. split; [exact L|]. intros i Hi. apply F. lia.
    + apply IH2 in H as [L F]. split; [exact L|]. intros i Hi. apply F. lia.
  - induction H as [x|x m y Hstep _ [L F]].
    + now split.
    + apply IH1 in Hstep as [L1 F1]. cbn [clear_body caps] in L1, F1.
      rewrite length_clear_caps in L1. split; [congruence|].
      intros i Hi. rewrite F, F1 by lia. now apply nth_clear_caps_other.
  - destruct H as (m & H & ->). apply IH1 in H as [L F]. cbn [caps].
    rewrite length_set_cap. split; [exact L|].
    intros i Hi. rewrite nth_set_cap_other by lia. apply F. lia.
  - destruct H as (m & H & ->). apply IH1 in H as [L F]. cbn [caps]. now split.
  - subst. now split.
  - subst. now split.
  - subst. now split.
Qed.

Lemma always_sets_range (r : regex) :
  forall pi i, always_sets r pi i = true -> pi <= i < pi + count_groups r.
Proof.
  induction r as [|c| |negated items|r1 IH1 r2 IH2|r1 IH1 r2 IH2
                 |min max greedy r1 IH1|r1 IH1|r1 IH1| | |];
    intros pi i H; cbn [always_sets count_groups] in *; try discriminate.
  - apply orb_true_iff in H as [H|H]; [apply IH1 in H|apply IH2 in H]; lia.
  - apply orb_true_iff in H as [H|H]; [apply Nat.eqb_eq in H|apply IH1 in H]; lia.
  - now apply IH1.
Qed.

Lemma always_sets_sound (ml : bool) (r : regex) :
  forall pi i x y,
    always_sets r pi i = true -> reaches ml r pi x y -> i < List.length (caps x) ->
    exists text, nth i (caps y) None = Some text.
Proof.
  induction r as [|c| |negated items|r1 IH1 r2 IH2|r1 IH1 r2 IH2
                 |min max greedy r1 IH1|r1 IH1|r1 IH1| | |];
    intros pi i x y Hset H Hi; cbn [always_sets reaches] in *; try discriminate.
  - destruct H as (m & H1 & H2).
    destruct (reaches_frame _ _ _ _ _ H1) as [L1 _].
    destruct (reaches_frame _ _ _ _ _ H2) as [_ F2].
    apply orb_true_iff in Hset as [Hset|Hset].
    + destruct (IH1 _ _ _ _ Hset H1 Hi) as (text & Ht).
      apply always_sets_range in Hset. exists text. rewrite F2 by lia. exact Ht.
    + apply (IH2 _ _ _ _ Hset H2). congruence.
  - destruct H as (m & H & ->). cbn [caps].
    destruct (reaches_frame _ _ _ _ _ H) as [L _].
    apply orb_true_iff in Hset as [Hset|Hset].
    + apply Nat.eqb_eq in Hset. subst i. eexists. apply nth_set_cap_same. congruence.
    + destruct (IH1 _ _ _ _ Hset H Hi) as (text & Ht).
      apply always_sets_range in Hset. exists text. rewrite nth_set_cap_other by lia. exact Ht.
  - destruct H as (m & H & ->). cbn [caps]. now apply (IH1 _ _ _ _ Hset H).
Qed.

Lemma exec_at_captures (re : RegExp.t) (b : option ascii) (s : string) n cs :
  exec_at re b s = Some (n, cs) -> well_captured re cs.
Proof.
  unfold exec_at.
  destruct (matcher _ _ _ _ _) as [y|] eqn:H; [|discriminate].
  intros Heq. injection Heq as _ <-.
  apply matcher_reaches in H as (y' & Hreach & Heq). injection Heq as ->.
  destruct (reaches_frame _ _ _ _ _ Hreach) as [L _]. cbn [caps] in L.
  rewrite repeat_length in L. split; [exact L|].
  intros i Hi. apply (always_sets_sound _ _ _ _ _ _ Hi Hreach). cbn [caps].
  rewrite repeat_length. apply always_sets_range in Hi. lia.
Qed.

Lemma search_captures (re : RegExp.t) (s : string) :
  forall b idx m, search re b s idx = Some m -> well_captured re (captures m).
Proof.
  induction s as [|c s IH]; intros b idx m; cbn [search].
  - destruct (exec_at re b "") as [[n cs]|] eqn:He; [|discriminate].
    intros H. injection H as <-. now apply exec_at_captures in He.
  - destruct (exec_at re b (String c s)) as [[n cs]|] eqn:He.
    + intros H. injection H as <-. now apply exec_at_captures in He.
    + apply IH.
Qed.

Lemma execAll_captures (re : RegExp.t) (s : string) :
  forall b idx skip m, In m (execAll re b s idx skip) -> well_captured re (captures m).
Proof.
  induction s as [|c s IH]; intros b idx skip m; cbn [execAll].
  - destruct (if Nat.eqb skip 0 then exec_at re b "" else None) as [[n cs]|] eqn:He.
    + destruct (Nat.eqb skip 0); [|discriminate].
      intros [<-|[]]. now apply exec_at_captures in He.
    + intros [].
  - destruct (if Nat.eqb skip 0 then exec_at re b (String c s) else None) as [[n cs]|] eqn:He.
    + destruct (Nat.eqb skip 0); [|discriminate].
      intros [<-|H]; [now apply exec_at_captures in He | now apply IH in H].
    + apply IH.
Qed.

Lemma matches_captures (re : RegExp.t) (s : string) (m : match_result) :
  In m (matches re s) -> well_captured re (captures m).
Proof.
  unfold matches. destruct (global re).
  - apply execAll_captures.
  - destruct (search re None s 0) as [m0|] eqn:H; [|intros []].
    intros [<-|[]]. now apply search_captures in H.
Qed.

(** What a callback finds at position [i] of its arguments. *)
Lemma callback_argument (re : RegExp.t) (m : match_result) (extra : list value) (i : nat) :
  well_captured re (captures m) -> i < count_groups (source re) ->
  nth_value i (map capture_value (captures m) ++ extra)
  = capture_value (nth i (captures m) None).
Proof.
  intros [L _] Hi. unfold nth_value.
  rewrite app_nth1 by (rewrite length_map; lia).
  change VUndefined with (capture_value None). apply map_nth.
Qed.

(** A replacement whose callback returns on every match returns. *)
Lemma replace_callback_ok (re : RegExp.t) (f : string -> list value -> result string)
      (str : string) :
  (forall m, In m (matches re str) ->
     exists r, f (matched m)
                 (map capture_value (captures m) ++ [VNumber (index m); VString str]) = Ok r) ->
  exists out, replace str re (Callback f) = Ok out.
Proof.
  unfold replace. generalize 0. generalize (matches re str) as ms.
  induction ms as [|m ms IH]; intros pos H; cbn [assemble].
  - eexists; reflexivity.
  - destruct (H m (or_introl eq_refl)) as (r & Hr).
    cbn [replacement_for]. rewrite Hr. cbn [bind].
    destruct (IH (index m + String.length (matched m))) as (tail & ->).
    + intros m' Hm'. apply H. now right.
    + cbn [bind]. eexists; reflexivity.
Qed.

End RegExpSemantics.

(* ===================================================================== *)
(** ** The enhanced engine returns on every text                          *)
(* ===================================================================== *)

Module EnhancedTotality.
Import JS RegExp EnhancedMigrationEngine RegExpSemantics CleanupProps.
Local Open Scope list_scope.

Lemma convertParameters_string (s : string) : exists out, convertParameters (VString s) = Ok out.
Proof.
  unfold convertParameters. destruct (negb (truthy (VString s))); [eexists; reflexivity|].
  destruct (String.eqb (trim s) ""); eexists; reflexivity.
Qed.

(** The groups a match of the method pattern always defines: the kind
    ([Sub] or [Function]), the name and the parameter list. *)
Lemma method_groups (str : string) (m : match_result) (extra : list value) :
  In m (matches re_method str) ->
  exists kind name params,
    nth_value 1 (map capture_value (captures m) ++ extra) = VString kind /\
    nth_value 2 (map capture_value (captures m) ++ extra) = VString name /\
    nth_value 3 (map capture_value (captures m) ++ extra) = VString params.
Proof.
  intros Hm. apply matches_captures in Hm. pose proof Hm as [_ Hset].
  destruct (Hset 1 eq_refl) as (kind & H1).
  destruct (Hset 2 eq_refl) as (name & H2).
  destruct (Hset 3 eq_refl) as (params & H3).
  exists kind, name, params.
  rewrite !(callback_argument re_method) by (assumption || (cbn; lia)).
  now rewrite H1, H2, H3.
Qed.

Lemma form_group (str : string) (m : match_result) (extra : list value) :
  In m (matches re_form str) ->
  exists formName, nth_value 0 (map capture_value (captures m) ++ extra) = VString formName.
Proof.
  intros Hm. apply matches_captures in Hm. pose proof Hm as [_ Hset].
  destruct (Hset 0 eq_refl) as (formName & H0).
  exists formName. rewrite (callback_argument re_form) by (assumption || (cbn; lia)).
  now rewrite H0.
Qed.

Lemma method_rule_ok (str : string) :
  exists out, replace str re_method (Callback method_callback) = Ok out.
Proof.
  apply replace_callback_ok. intros m Hm.
  destruct (method_groups str m [VNumber (index m); VString str] Hm)
    as (kind & name & params & H1 & H2 & H3).
  unfold method_callback. rewrite H2, H3.
  destruct (convertParameters_string params) as (csParameters & ->). cbn [bind].
  destruct (_ && _); eexists; reflexivity.
Qed.

Lemma dim_rule_ok (str : string) :
  exists out, replace str re_dim (Callback dim_callback) = Ok out.
Proof.
  apply replace_callback_ok. intros m Hm. unfold dim_callback.
  destruct (truthy _); [eexists; reflexivity|].
  destruct (getDefaultValue _); eexists; reflexivity.
Qed.

Lemma form_rule_ok (str : string) :
  exists out, replace str re_form (Callback form_callback) = Ok out.
Proof.
  apply replace_callback_ok. intros m Hm.
  destruct (form_group str m [VNumber (index m); VString str] Hm) as (formName & H0).
  unfold form_callback. rewrite H0. eexists; reflexivity.
Qed.

Lemma if_postProcess_ok (content : string) : exists out, if_postProcess content = Ok out.
Proof.
  unfold if_postProcess.
  destruct (template_ok re_elseif
              ("else if ($1)" ++ nl ++ "{" ++ nl ++ "$2" ++ nl ++ "}")%string content)
    as (c1 & ->). cbn [bind].
  destruct (template_ok re_else ("else" ++ nl ++ "{" ++ nl ++ "$1" ++ nl ++ "}")%string c1)
    as (c2 & ->). cbn [bind].
  apply template_ok.
Qed.

Lemma preprocessContent_ok (content : string) : exists out, preprocessContent content = Ok out.
Proof.
  unfold preprocessContent.
  destruct (template_ok re_blank_lines (nl ++ nl)%string content) as (r1 & ->). cbn [bind].
  apply template_ok.
Qed.

(** Every shipped rule returns on every text, hooks included. *)
Lemma shipped_rules_return :
  Forall (fun rule =>
            (forall content, exists out, runHook (preProcess rule) content = Ok out) /\
            (forall content, exists out,
                replace content (pattern rule) (replacement rule) = Ok out) /\
            (forall content, exists out, runHook (postProcess rule) content = Ok out))
         initializeEnhancedRules.
Proof.
  unfold initializeEnhancedRules, rule.
  repeat (apply Forall_cons || apply Forall_nil);
    cbn [preProcess postProcess pattern replacement runHook];
    (split; [intros; eexists; reflexivity|]);
    (split; [|first [intros; eexists; reflexivity | apply if_postProcess_ok]]);
    intros content;
    first [ apply method_rule_ok | apply dim_rule_ok | apply form_rule_ok
          | apply (template_ok _ _ content)
          | apply replace_callback_ok; intros m _; eexists; reflexivity ].
Qed.

Lemma migrate_loop_ok (rules : list EnhancedMigrationRule) :
  Forall (fun rule =>
            (forall content, exists out, runHook (preProcess rule) content = Ok out) /\
            (forall content, exists out,
                replace content (pattern rule) (replacement rule) = Ok out) /\
            (forall content, exists out, runHook (postProcess rule) content = Ok out))
         rules ->
  forall content count, exists st, migrate_loop rules content count = Ok st.
Proof.
  induction 1 as [|rule rules (Hpre & Hrep & Hpost) _ IH]; intros content count;
    cbn [migrate_loop].
  - eexists; reflexivity.
  - destruct (Hpre content) as (r1 & ->). cbn [bind].
    destruct (Hrep r1) as (r2 & ->). cbn [bind].
    destruct (Hpost r2) as (r3 & ->). cbn [bind].
    apply IH.
Qed.

Lemma migrateVBtoCSharp_total (vbContent filePath : string) :
  exists out, migrateVBtoCSharp vbContent filePath = Ok out.
Proof.
  unfold migrateVBtoCSharp, migrateVBtoCSharpWith.
  destruct (preprocessContent_ok vbContent) as (r1 & ->). cbn [bind].
  assert (Hsorted : Forall (fun rule =>
            (forall content, exists out, runHook (preProcess rule) content = Ok out) /\
            (forall content, exists out,
                replace content (pattern rule) (replacement rule) = Ok out) /\
            (forall content, exists out, runHook (postProcess rule) content = Ok out))
            (sortRules initializeEnhancedRules)).
  { rewrite Forall_forall. intros rule Hin.
    apply (SortFacts.sort_in priority) in Hin.
    revert rule Hin. rewrite <- Forall_forall. apply shipped_rules_return. }
  destruct (migrate_loop_ok _ Hsorted r1 0) as (st & ->). cbn [bind].
  apply postProcessContent_ok.
Qed.

(** [migrateVBtoCSharp] returns a text for every input: no callback of the
    enhanced rule table can raise, because each reads only groups that
    every match of its pattern defines.  The same holds for [testRule],
    which reports an unknown rule identifier as not applied and leaves the
    text as it was. *)
Theorem migrateVBtoCSharp_never_raises :
  forall vbContent filePath : string,
    (exists out, migrateVBtoCSharp vbContent filePath = Ok out) /\
    (forall ruleId, exists t,
        testRule initializeEnhancedRules ruleId vbContent = Ok t /\
        test_before t = vbContent /\
        test_applied t = negb (String.eqb (test_after t) vbContent) /\
        (find (fun r => String.eqb (id r) ruleId) initializeEnhancedRules = None ->
         test_after t = vbContent)).
Proof.
  intros vbContent filePath. split.
  - apply migrateVBtoCSharp_total.
  - intros ruleId. unfold testRule.
    destruct (find (fun r => String.eqb (id r) ruleId) initializeEnhancedRules)
      as [rule|] eqn:Hfind.
    + apply find_some in Hfind as [Hin _].
      pose proof shipped_rules_return as Hall. rewrite Forall_forall in Hall.
      destruct (Hall rule Hin) as (_ & Hrep & _).
      destruct (Hrep vbContent) as (out & ->). cbn [bind].
      eexists. split; [reflexivity|]. cbn. repeat split. discriminate.
    + eexists. split; [reflexivity|]. cbn. rewrite String.eqb_refl. repeat split.
Qed.

End EnhancedTotality.

(* ===================================================================== *)
(** ** The outcomes of the generator's body conversion                    *)
(* ===================================================================== *)

Module BodyConversionProps.
Import JS RegExp MigrationRulesEngine.
Local Open Scope list_scope.

Lemma refines_refl {A : Type} (a : result A) : refines a a.
Proof. now intros v. Qed.

Lemma refines_bind {A B : Type} (m1 m2 : result A) (f1 f2 : A -> result B) :
  refines m1 m2 -> (forall a, refines (f1 a) (f2 a)) -> refines (bind m1 f1) (bind m2 f2).
Proof.
  intros Hm Hf v. destruct m1 as [a|e]; cbn [bind]; [|discriminate].
  rewrite (Hm a eq_refl). cbn [bind]. apply Hf.
Qed.

Lemma assemble_refines (f1 f2 : string -> list value -> result string) (str : string)
      (ms : list match_result) :
  (forall w args, refines (f1 w args) (f2 w args)) ->
  forall pos, refines (assemble (Callback f1) str ms pos) (assemble (Callback f2) str ms pos).
Proof.
  intros Hf. induction ms as [|m ms IH]; intros pos; cbn [assemble replacement_for].
  - apply refines_refl.
  - apply refines_bind; [apply Hf|]. intros r.
    apply refines_bind; [apply IH|]. intros tail. apply refines_refl.
Qed.

Lemma convertMethodBody_refines (a1 a2 : string -> MigrationContext -> result string) :
  (forall s c, refines (a1 s c) (a2 s c)) ->
  forall v, refines (convertMethodBody a1 v) (convertMethodBody a2 v).
Proof.
  intros Ha v. unfold convertMethodBody.
  destruct (negb (truthy v)); [apply refines_refl|].
  destruct v as [|s|n]; try apply refines_refl.
  destruct (String.eqb (trim s) ""); [apply refines_refl|].
  apply refines_bind; [apply Ha|]. intros csBody. apply refines_refl.
Qed.

(** A replacement is monotone when a converter that returns more often
    makes it return more often, with the same results. *)
Lemma shipped_callbacks_monotone :
  Forall (fun rule =>
            match replacement rule with
            | Literal _ => True
            | Function f =>
                forall t1 t2,
                  (forall v, refines (this_convertMethodBody t1 v) (this_convertMethodBody t2 v)) ->
                  forall w args, refines (f t1 w args) (f t2 w args)
            end) initializeRules.
Proof.
  unfold initializeRules, rule.
  repeat (apply Forall_cons || apply Forall_nil); cbn [replacement]; try exact I;
    intros t1 t2 Ht w args;
    unfold method_callback, event_callback, for_callback, try_callback, property_callback;
    repeat (apply refines_bind; [first [apply Ht | apply refines_refl]|]; intros ?);
    apply refines_refl.
Qed.

Lemma loop_refines (rules : list MigrationRule) (t1 t2 : This) (context : MigrationContext) :
  Forall (fun rule =>
            match replacement rule with
            | Literal _ => True
            | Function f =>
                forall t1 t2,
                  (forall v, refines (this_convertMethodBody t1 v) (this_convertMethodBody t2 v)) ->
                  forall w args, refines (f t1 w args) (f t2 w args)
            end) rules ->
  (forall v, refines (this_convertMethodBody t1 v) (this_convertMethodBody t2 v)) ->
  forall content applied,
    refines (applyRules_loop t1 context rules content applied)
            (applyRules_loop t2 context rules content applied).
Proof.
  intros Hrules Ht. induction Hrules as [|rule rules Hrule _ IH]; intros content applied;
    cbn [applyRules_loop].
  - apply refines_refl.
  - destruct (shouldApplyRule rule context); [|apply IH].
    apply refines_bind; [|intros r; apply IH].
    unfold applyRule. destruct (replacement rule) as [tpl|f]; [apply refines_refl|].
    unfold replace. apply assemble_refines. now apply Hrule.
Qed.

Lemma applyRulesN_S (stack : nat) (rules : list MigrationRule) (content : string)
      (context : MigrationContext) :
  applyRulesN (S stack) rules content context
  = bind (applyRules_loop
            {| this_convertMethodBody :=
                 convertMethodBody (applyRulesN stack (sortRules rules)) |}
            context (sortRules rules) content [])
         (fun st => Ok (fst st)).
Proof. reflexivity. Qed.

(** More call stack never changes a result the engine has returned. *)
Lemma applyRulesN_more_stack (rules : list MigrationRule) :
  Forall (fun rule =>
            match replacement rule with
            | Literal _ => True
            | Function f =>
                forall t1 t2,
                  (forall v, refines (this_convertMethodBody t1 v) (this_convertMethodBody t2 v)) ->
                  forall w args, refines (f t1 w args) (f t2 w args)
            end) rules ->
  forall stack content context,
    refines (applyRulesN stack rules content context)
            (applyRulesN (S stack) rules content context).
Proof.
  intros Hrules.
  assert (Hsorted : forall l, Forall (fun rule =>
            match replacement rule with
            | Literal _ => True
            | Function f =>
                forall t1 t2,
                  (forall v, refines (this_convertMethodBody t1 v) (this_convertMethodBody t2 v)) ->
                  forall w args, refines (f t1 w args) (f t2 w args)
            end) l -> Forall (fun rule =>
            match replacement rule with
            | Literal _ => True
            | Function f =>
                forall t1 t2,
                  (forall v, refines (this_convertMethodBody t1 v) (this_convertMethodBody t2 v)) ->
                  forall w args, refines (f t1 w args) (f t2 w args)
            end) (sortRules l)).
  { intros l Hl. rewrite Forall_forall in *. intros r Hr. apply Hl.
    now apply EngineFacts.sortRules_in. }
  intros stack. revert rules Hrules.
  induction stack as [|stack IH]; intros rules Hrules content context.
  - intros v H. discriminate.
  - rewrite (applyRulesN_S (S stack)), (applyRulesN_S stack).
    apply refines_bind; [|intros st; apply refines_refl].
    apply loop_refines; [now apply Hsorted|].
    cbn [this_convertMethodBody]. apply convertMethodBody_refines.
    intros s c. apply (IH (sortRules rules)). now apply Hsorted.
Qed.

(** No shipped rule has a condition, so the context plays no part. *)
Lemma loop_context_irrelevant (rules : list MigrationRule) (this : This)
      (c1 c2 : MigrationContext) :
  Forall (fun rule => conditions rule = None) rules ->
  forall content applied,
    applyRules_loop this c1 rules content applied
    = applyRules_loop this c2 rules content applied.
Proof.
  induction 1 as [|rule rules Hrule _ IH]; intros content applied; cbn [applyRules_loop].
  - reflexivity.
  - unfold shouldApplyRule. rewrite Hrule.
    unfold applyRule. destruct (replacement rule);
      (destruct (replace _ _ _); cbn [bind]; [apply IH|reflexivity]).
Qed.

Lemma shipped_rules_unconditional :
  Forall (fun rule => conditions rule = None) initializeRules.
Proof. unfold initializeRules, rule. repeat (apply Forall_cons || apply Forall_nil); reflexivity. Qed.

Lemma applyRulesN_context_irrelevant (stack : nat) (content : string)
      (c1 c2 : MigrationContext) :
  applyRulesN stack initializeRules content c1 = applyRulesN stack initializeRules content c2.
Proof.
  destruct stack as [|stack]; [reflexivity|]. rewrite !applyRulesN_S.
  rewrite (loop_context_irrelevant _ _ c1 c2); [reflexivity|].
  pose proof shipped_rules_unconditional as H. rewrite Forall_forall in *.
  intros r Hr. apply H. now apply EngineFacts.sortRules_in.
Qed.

Import CSharpGenerator.

Lemma migrate_S (stack : nat) (vbCode filePath : string) :
  migrateVBCodeWithEnhancedEngineN (S stack) vbCode filePath
  = if String.eqb vbCode "" || String.eqb (trim vbCode) "" then Ok methodLogicPlaceholder
    else
      tryCatch
        (bind (EnhancedMigrationEngine.migrateVBtoCSharp vbCode filePath)
           (fun enhancedResult =>
              if negb (String.eqb enhancedResult "")
                 && Nat.ltb 10 (String.length enhancedResult)
                 && negb (String.eqb enhancedResult vbCode)
              then Ok enhancedResult
              else
                bind (applyRulesN stack initializeRules vbCode (fallbackContext vbCode filePath))
                  (fun originalResult =>
                     if String.eqb originalResult vbCode
                     then convertVBCodeToCSharpWith (migrateVBCodeWithEnhancedEngineN stack) vbCode
                     else Ok originalResult)))
        (fun _ => convertVBCodeToCSharpWith (migrateVBCodeWithEnhancedEngineN stack) vbCode).
Proof. reflexivity. Qed.

(** Once the fallback [convertVBCodeToCSharp] is entered it calls
    [migrateVBCodeWithEnhancedEngine] with the same text, which falls back
    again: the call does not return. *)
Lemma fallback_never_returns (vbCode : string) (e : string) :
  String.eqb vbCode "" || String.eqb (trim vbCode) "" = false ->
  EnhancedMigrationEngine.migrateVBtoCSharp vbCode "" = Ok e ->
  negb (String.eqb e "") && Nat.ltb 10 (String.length e) && negb (String.eqb e vbCode) = false ->
  forall stack context,
    (applyRulesN stack initializeRules vbCode context = Ok vbCode \/
     exists err, applyRulesN stack initializeRules vbCode context = Throw err) ->
    convertVBCodeToCSharpWith (migrateVBCodeWithEnhancedEngineN stack) vbCode
    = Throw stackExhausted.
Proof.
  intros Hblank He Hsig.
  assert (Hne : String.eqb vbCode "" = false) by (now apply orb_false_iff in Hblank).
  induction stack as [|stack IH]; intros context Hbase;
    unfold convertVBCodeToCSharpWith; rewrite Hne.
  - reflexivity.
  - rewrite migrate_S, Hblank.
    change (EnhancedMigrationEngine.migrateVBtoCSharp vbCode "general.vb")
      with (EnhancedMigrationEngine.migrateVBtoCSharp vbCode "").
    rewrite He. cbn [bind]. rewrite Hsig.
    assert (Hbelow : applyRulesN stack initializeRules vbCode context = Ok vbCode \/
                     exists err, applyRulesN stack initializeRules vbCode context = Throw err).
    { destruct (applyRulesN stack initializeRules vbCode context) as [o|err] eqn:Hlow;
        [|right; now exists err]. left.
      apply (applyRulesN_more_stack _ shipped_callbacks_monotone) in Hlow.
      destruct Hbase as [Hbase|(err & Hbase)]; congruence. }
    specialize (IH context Hbelow).
    rewrite (applyRulesN_context_irrelevant stack vbCode _ context).
    destruct Hbelow as [->|(err & ->)]; cbn [bind tryCatch].
    + rewrite String.eqb_refl, IH. reflexivity.
    + now rewrite IH.
Qed.

(** [migrateVBCodeWithEnhancedEngine], all cases.  It returns the
    placeholder for a blank text; the enhanced engine's text when that is
    longer than ten characters and differs from the input; otherwise the
    base engine's text when that engine returns and changed the input.  In
    every remaining case (the base engine left the text unchanged, or
    raised) the fallback [convertVBCodeToCSharp] is entered and the call
    ends in the exhaustion of the call stack: no text with the
    [// Migrated from VB.NET] banner or from [applyBasicConversions] is
    ever returned, and no other exception escapes. *)
Theorem migrateVBCodeWithEnhancedEngine_outcomes :
  forall (stack : nat) (vbCode filePath : string),
    match migrateVBCodeWithEnhancedEngineN (S stack) vbCode filePath with
    | Ok r =>
        (trim vbCode = "" /\ r = "// TODO: Implement method logic"%string) \/
        (trim vbCode <> "" /\
         EnhancedMigrationEngine.migrateVBtoCSharp vbCode filePath = Ok r /\
         Nat.ltb 10 (String.length r) = true /\ r <> vbCode) \/
        (trim vbCode <> "" /\
         applyRulesN stack initializeRules vbCode (fallbackContext vbCode filePath) = Ok r /\
         r <> vbCode)
    | Throw e =>
        e = stackExhausted /\ trim vbCode <> "" /\
        (exists t, EnhancedMigrationEngine.migrateVBtoCSharp vbCode filePath = Ok t /\
                   (String.length t <= 10 \/ t = vbCode)) /\
        (applyRulesN stack initializeRules vbCode (fallbackContext vbCode filePath) = Ok vbCode \/
         exists err,
           applyRulesN stack initializeRules vbCode (fallbackContext vbCode filePath) = Throw err)
    end.
Proof.
  intros stack vbCode filePath. rewrite migrate_S.
  destruct (String.eqb vbCode "" || String.eqb (trim vbCode) "") eqn:Hblank.
  - left. split; [|reflexivity].
    apply orb_true_iff in Hblank as [H|H]; apply String.eqb_eq in H; [now subst|exact H].
  - assert (Htrim : trim vbCode <> "").
    { apply orb_false_iff in Hblank as [_ H]. now apply String.eqb_neq. }
    destruct (EnhancedTotality.migrateVBtoCSharp_total vbCode filePath) as (e & He).
    rewrite He. cbn [bind].
    destruct (negb (String.eqb e "") && Nat.ltb 10 (String.length e)
              && negb (String.eqb e vbCode)) eqn:Hsig.
    + cbn [tryCatch]. right. left.
      apply andb_true_iff in Hsig as [Hsig Hdiff]. apply andb_true_iff in Hsig as [_ Hlen].
      apply negb_true_iff, String.eqb_neq in Hdiff. auto.
    + assert (Hinsig : String.length e <= 10 \/ e = vbCode).
      { apply andb_false_iff in Hsig as [Hsig|Hsig].
        - apply andb_false_iff in Hsig as [Hsig|Hsig].
          + apply negb_false_iff, String.eqb_eq in Hsig. subst e. left. cbn. lia.
          + apply Nat.ltb_ge in Hsig. now left.
        - apply negb_false_iff, String.eqb_eq in Hsig. now right. }
      pose proof (fallback_never_returns vbCode e Hblank He Hsig stack
                    (fallbackContext vbCode filePath)) as Hfall.
      destruct (applyRulesN stack initializeRules vbCode (fallbackContext vbCode filePath))
        as [o|err] eqn:Hbase; cbn [bind].
      * destruct (String.eqb o vbCode) eqn:Ho.
        -- apply String.eqb_eq in Ho. subst o.
           rewrite (Hfall (or_introl eq_refl)). cbn [tryCatch].
           repeat split; auto. now exists e.
        -- cbn [tryCatch]. right. right. apply String.eqb_neq in Ho. auto.
      * cbn [tryCatch]. rewrite (Hfall (or_intror (ex_intro _ err eq_refl))).
        repeat split; auto; [now exists e | right; now exists err].
Qed.

End BodyConversionProps.

(* ===================================================================== *)
(** ** Artifacts of one entity and of an entity set                       *)
(* ===================================================================== *)

Module RoutingProps.
Import JS Analysis ModuleMigrator.
Local Open Scope list_scope.

Section Files.
Variable baseNameOf : string -> string.

Lemma generated_paths_distinct (e : VBModuleAnalysis) (style : Architecture) (tests : bool) :
  NoDup (map path (generateFiles baseNameOf style e
                   ++ (if tests then generateTests baseNameOf e else []))).
Proof.
  destruct style, tests;
    unfold generateFiles, generateCleanArchitectureFiles, generateLayeredArchitectureFiles,
      generateMVCFiles, generateMVVMFiles, generateTests, when, file;
    destruct (hasBusinessLogic e), (hasDatabaseOperations e), (isForm e);
    cbn [concat app map path];
    repeat (apply NoDup_cons; [cbn [In append]; intuition discriminate|]);
    apply NoDup_nil.
Qed.

Lemma kinds_of_entity (style : Architecture) (e : VBModuleAnalysis) :
  countType Model (generateFiles baseNameOf style e)
  = match style with
    | Clean => if hasBusinessLogic e then 1 else 0
    | Layered => 0
    | MVC | MVVM => 1
    end /\
  countType Controller (generateFiles baseNameOf style e)
  = match style with
    | Clean | Layered => if isForm e then 1 else 0
    | MVC => 1
    | MVVM => 0
    end /\
  countType ViewModel (generateFiles baseNameOf style e)
  = match style with
    | Clean => if isForm e then 1 else 0
    | MVVM => 1
    | Layered | MVC => 0
    end /\
  countType View (generateFiles baseNameOf style e)
  = match style with
    | Clean | Layered => 0
    | MVC | MVVM => if isForm e then 1 else 0
    end /\
  countType Test (generateFiles baseNameOf style e) = 0 /\
  countType Test (generateTests baseNameOf e) = if hasBusinessLogic e then 1 else 0.
Proof.
  destruct style; unfold generateFiles, generateCleanArchitectureFiles,
    generateLayeredArchitectureFiles, generateMVCFiles, generateMVVMFiles, generateTests;
    destruct (hasBusinessLogic e), (hasDatabaseOperations e), (isForm e);
    repeat split; reflexivity.
Qed.

Lemma count_flat_map (t : FileType) (f : VBModuleAnalysis -> list GeneratedFile)
      (k : VBModuleAnalysis -> bool) (es : list VBModuleAnalysis) :
  (forall e, countType t (f e) = if k e then 1 else 0) ->
  countType t (flat_map f es) = List.length (filter k es).
Proof.
  intros H. induction es as [|e es IH]; [reflexivity|].
  cbn [flat_map filter]. rewrite RoutingClaims.countType_app, H, IH.
  destruct (k e); reflexivity.
Qed.

Lemma count_flat_map_all (t : FileType) (f : VBModuleAnalysis -> list GeneratedFile)
      (es : list VBModuleAnalysis) :
  (forall e, countType t (f e) = 1) -> countType t (flat_map f es) = List.length es.
Proof.
  intros H. induction es as [|e es IH]; [reflexivity|].
  cbn [flat_map List.length]. now rewrite RoutingClaims.countType_app, H, IH.
Qed.

Lemma count_flat_map_none (t : FileType) (f : VBModuleAnalysis -> list GeneratedFile)
      (es : list VBModuleAnalysis) :
  (forall e, countType t (f e) = 0) -> countType t (flat_map f es) = 0.
Proof.
  intros H. induction es as [|e es IH]; [reflexivity|].
  cbn [flat_map]. now rewrite RoutingClaims.countType_app, H, IH.
Qed.
End Files.

(** Whatever the file system answers, the files [migrateModule] reports
    for one entity have pairwise distinct paths (so writing them never
    overwrites one with another), and there are at most seven of them. *)
Theorem migrateModule_paths_distinct :
  forall (baseNameOf : string -> string) (fs : FileSystem) (e : VBModuleAnalysis)
         (style : Architecture) (tests : bool),
    NoDup (map path (generatedFiles (migrateModule baseNameOf fs e style tests))) /\
    List.length (generatedFiles (migrateModule baseNameOf fs e style tests)) <= 7.
Proof.
  intros baseNameOf fs e style tests. unfold migrateModule.
  destruct (ensureDir fs); [split; [apply NoDup_nil | cbn; lia]|].
  destruct (readFile fs); [split; [apply NoDup_nil | cbn; lia]|].
  assert (Hfiles : NoDup (map path (generateFiles baseNameOf style e
                                    ++ when tests (generateTests baseNameOf e))) /\
                   List.length (generateFiles baseNameOf style e
                                ++ when tests (generateTests baseNameOf e)) <= 7).
  { split; [apply generated_paths_distinct|].
    destruct style, tests;
      unfold generateFiles, generateCleanArchitectureFiles, generateLayeredArchitectureFiles,
        generateMVCFiles, generateMVVMFiles, generateTests, when;
      destruct (hasBusinessLogic e), (hasDatabaseOperations e), (isForm e); cbn; lia. }
  destruct (writeGeneratedFiles fs); exact Hfiles.
Qed.

(** The other artifact kinds, for every entity set: Views
    are produced for the forms in MVC and MVVM only; Controllers for the
    forms in Clean and Layered, for every entity in MVC and never in MVVM;
    ViewModels for the forms in Clean and for every entity in MVVM; Models
    for the entities with business logic in Clean, for every entity in MVC
    and MVVM and never in Layered. *)
Theorem artifact_kinds_by_style :
  forall (baseNameOf : string -> string) (entities : list VBModuleAnalysis),
    let forms := List.length (filter isForm entities) in
    let logic := List.length (filter hasBusinessLogic entities) in
    let all := List.length entities in
    (countType View (route baseNameOf Clean entities) = 0 /\
     countType View (route baseNameOf Layered entities) = 0 /\
     countType View (route baseNameOf MVC entities) = forms /\
     countType View (route baseNameOf MVVM entities) = forms) /\
    (countType Controller (route baseNameOf Clean entities) = forms /\
     countType Controller (route baseNameOf Layered entities) = forms /\
     countType Controller (route baseNameOf MVC entities) = all /\
     countType Controller (route baseNameOf MVVM entities) = 0) /\
    (countType ViewModel (route baseNameOf Clean entities) = forms /\
     countType ViewModel (route baseNameOf Layered entities) = 0 /\
     countType ViewModel (route baseNameOf MVC entities) = 0 /\
     countType ViewModel (route baseNameOf MVVM entities) = all) /\
    (countType Model (route baseNameOf Clean entities) = logic /\
     countType Model (route baseNameOf Layered entities) = 0 /\
     countType Model (route baseNameOf MVC entities) = all /\
     countType Model (route baseNameOf MVVM entities) = all) /\
    countType Test (flat_map (generateTests baseNameOf) entities) = logic.
Proof.
  intros baseNameOf entities forms logic all. subst forms logic all. unfold route.
  repeat split;
    first
      [ apply count_flat_map; intros e;
        destruct (kinds_of_entity baseNameOf Clean e) as (? & ? & ? & ? & ? & ?);
        destruct (kinds_of_entity baseNameOf Layered e) as (? & ? & ? & ? & ? & ?);
        destruct (kinds_of_entity baseNameOf MVC e) as (? & ? & ? & ? & ? & ?);
        destruct (kinds_of_entity baseNameOf MVVM e) as (? & ? & ? & ? & ? & ?);
        assumption
      | apply count_flat_map_all; intros e;
        destruct (kinds_of_entity baseNameOf MVC e) as (? & ? & ? & ? & ? & ?);
        destruct (kinds_of_entity baseNameOf MVVM e) as (? & ? & ? & ? & ? & ?);
        assumption
      | apply count_flat_map_none; intros e;
        destruct (kinds_of_entity baseNameOf Clean e) as (? & ? & ? & ? & ? & ?);
        destruct (kinds_of_entity baseNameOf Layered e) as (? & ? & ? & ? & ? & ?);
        destruct (kinds_of_entity baseNameOf MVC e) as (? & ? & ? & ? & ? & ?);
        destruct (kinds_of_entity baseNameOf MVVM e) as (? & ? & ? & ? & ? & ?);
        assumption ].
Qed.

End RoutingProps.

(* ===================================================================== *)
(** ** The architecture proposal                                          *)
(* ===================================================================== *)

Module ArchitectureProps.
Import JS Analysis Graph ModernArchitectureGenerator.
Local Open Scope list_scope.

Lemma namesOf_In (keep : VBModuleAnalysis -> bool) (ms : list VBModuleAnalysis)
      (m : VBModuleAnalysis) :
  In m ms -> keep m = true -> In (fileName m) (namesOf keep ms).
Proof.
  intros Hin Hkeep. unfold namesOf. apply in_map. apply filter_In. now split.
Qed.

Lemma form_or_logic (m : VBModuleAnalysis) (ms : list VBModuleAnalysis) :
  In m ms ->
  In (fileName m) (getUIModules ms) \/ In (fileName m) (getBusinessLogicModules ms).
Proof.
  intros Hin. unfold getUIModules, getBusinessLogicModules, isType.
  destruct (moduleType m) eqn:Ht.
  - left. apply namesOf_In; [exact Hin|]. now rewrite Ht.
  - right. apply namesOf_In; [exact Hin|]. now rewrite Ht.
  - right. apply namesOf_In; [exact Hin|]. now rewrite Ht.
Qed.

(** Find, in an explicit list of projects, one that lists the module. *)
Ltac assigned_project :=
  match goal with
  | |- exists p, In p ?projects /\ In _ (sourceModules p) =>
      let rec go l :=
        lazymatch l with
        | ?q :: ?tl =>
            first [ exists q; split;
                    [cbn [In]; intuition reflexivity | cbn [sourceModules]; assumption]
                  | go tl ]
        end in
      go projects
  end.

(** In the Clean, Layered, MVC and MVVM structures no analysed module is
    left out: each one is a source module of the UI project (a form) or
    of the project holding the business logic (a module or a class). *)
Theorem every_module_is_assigned :
  forall (vbName : string) (moduleAnalyses : list VBModuleAnalysis) (options : Options)
         (m : VBModuleAnalysis),
    In m moduleAnalyses ->
    (exists p, In p (generateStructure vbName moduleAnalyses Clean options) /\
               In (fileName m) (sourceModules p)) /\
    (exists p, In p (generateStructure vbName moduleAnalyses Layered options) /\
               In (fileName m) (sourceModules p)) /\
    (exists p, In p (generateStructure vbName moduleAnalyses MVC options) /\
               In (fileName m) (sourceModules p)) /\
    (exists p, In p (generateStructure vbName moduleAnalyses MVVM options) /\
               In (fileName m) (sourceModules p)).
Proof.
  intros vbName ms options m Hin.
  destruct (form_or_logic m ms Hin) as [Hui|Hlogic];
    cbn [generateStructure];
    unfold generateCleanArchitecture, generateLayeredArchitecture, generateMVCArchitecture,
      generateMVVMArchitecture, project, when;
    repeat split;
    destruct (includeDatabase options), (hasDataAccess ms), (webBased options);
    cbn [concat app orb];
    assigned_project.
Qed.

Lemma every_module_is_assigned_witness :
  let ms := [Fixtures.customers; Fixtures.constants] in
  In Fixtures.constants ms /\
  exists p, In p (generateStructure "Shop" ms Layered defaultOptions) /\
            In "Constants.bas" (sourceModules p).
Proof.
  intros ms.
  assert (Hin : In Fixtures.constants ms) by (right; now left).
  split; [exact Hin|].
  exact (proj1 (proj2 (every_module_is_assigned "Shop" ms defaultOptions
                         Fixtures.constants Hin))).
Defined.

(** *** Business domains *)

Lemma list_sum_cons (a : nat) (l : list nat) : list_sum (a :: l) = a + list_sum l.
Proof. reflexivity. Qed.

Lemma pushInto_total (key value : string) (groups : list (string * list string)) :
  list_sum (map (fun g => List.length (snd g)) (pushInto key value groups))
  = S (list_sum (map (fun g => List.length (snd g)) groups)).
Proof.
  induction groups as [|[k vs] more IH]; cbn [pushInto]; [reflexivity|].
  destruct (String.eqb k key); cbn [map snd]; rewrite !list_sum_cons.
  - rewrite length_app. cbn [List.length]. lia.
  - rewrite IH. lia.
Qed.

Lemma pushInto_values (key value f : string) (groups : list (string * list string))
      (g : string * list string) :
  In g (pushInto key value groups) -> In f (snd g) ->
  f = value \/ exists g', In g' groups /\ In f (snd g').
Proof.
  induction groups as [|[k vs] more IH]; cbn [pushInto].
  - intros [<-|[]] [<-|[]]. now left.
  - destruct (String.eqb k key).
    + intros [<-|Hg] Hf.
      * cbn [snd] in Hf. apply in_app_or in Hf as [Hf|[<-|[]]]; [|now left].
        right. exists (k, vs). split; [now left|exact Hf].
      * right. exists g. split; [now right|exact Hf].
    + intros [<-|Hg] Hf.
      * right. exists (k, vs). split; [now left|exact Hf].
      * destruct (IH Hg Hf) as [->|(g' & Hg' & Hf')]; [now left|].
        right. exists g'. split; [now right|exact Hf'].
Qed.

Lemma groups_fold (ms : list VBModuleAnalysis) :
  forall acc,
    let groups :=
      fold_left (fun gs m => pushInto (domainStem (fileName m)) (fileName m) gs) ms acc in
    list_sum (map (fun g => List.length (snd g)) groups)
    = list_sum (map (fun g => List.length (snd g)) acc) + List.length ms /\
    forall g f, In g groups -> In f (snd g) ->
                In f (map fileName ms) \/ exists g', In g' acc /\ In f (snd g').
Proof.
  induction ms as [|m ms IH]; intros acc; cbn [fold_left].
  - split; [cbn; lia|]. intros g f Hg Hf. right. now exists g.
  - destruct (IH (pushInto (domainStem (fileName m)) (fileName m) acc)) as [Hsum Hval].
    split.
    + cbn zeta in Hsum. rewrite Hsum, pushInto_total. cbn [List.length]. lia.
    + intros g f Hg Hf. destruct (Hval g f Hg Hf) as [Hin|(g' & Hg' & Hf')].
      * left. now right.
      * destruct (pushInto_values _ _ _ _ _ Hg' Hf') as [->|Hacc]; [left; now left|now right].
Qed.

Lemma filter_total (keep : string * list string -> bool) (gs : list (string * list string)) :
  list_sum (map (fun g => List.length (snd g)) (filter keep gs))
  <= list_sum (map (fun g => List.length (snd g)) gs).
Proof.
  induction gs as [|g gs IH]; [reflexivity|].
  cbn [filter]. destruct (keep g); cbn [map]; rewrite !list_sum_cons; lia.
Qed.

(** [identifyBusinessDomains] never returns an empty list.  Either it
    returns the single domain [Core] holding every module, or each domain
    it returns groups at least two modules.  Every module it lists is one
    of those analysed, and the domains together list no more modules than
    were analysed.  The Microservices structure therefore consists of at
    least one service, the gateway and the web front end. *)
Theorem identifyBusinessDomains_shape :
  forall (vbName : string) (moduleAnalyses : list VBModuleAnalysis) (options : Options),
    let domains := identifyBusinessDomains moduleAnalyses in
    1 <= List.length domains /\
    (domains = [("Core"%string, map fileName moduleAnalyses)] \/
     forall d, In d domains -> 2 <= List.length (snd d)) /\
    (forall d f, In d domains -> In f (snd d) -> In f (map fileName moduleAnalyses)) /\
    list_sum (map (fun d => List.length (snd d)) domains) <= List.length moduleAnalyses /\
    List.length (generateStructure vbName moduleAnalyses Microservices options)
    = List.length domains + 2.
Proof.
  intros vbName ms options domains.
  assert (Hlen : List.length (generateStructure vbName ms Microservices options)
                 = List.length domains + 2).
  { cbn [generateStructure]. unfold generateMicroservicesArchitecture.
    cbn [concat]. rewrite !length_app, length_map. cbn [List.length]. subst domains. lia. }
  subst domains. unfold identifyBusinessDomains in *.
  destruct (groups_fold ms []) as [Hsum Hval]. cbn zeta in Hsum, Hval.
  set (groups := fold_left (fun gs m => pushInto (domainStem (fileName m)) (fileName m) gs)
                           ms []) in *.
  set (kept := filter (fun g => Nat.ltb 1 (List.length (snd g))) groups) in *.
  assert (Hkept : forall g, In g kept -> 2 <= List.length (snd g) /\ In g groups).
  { intros g Hg. apply filter_In in Hg as [Hin Hl]. apply Nat.ltb_lt in Hl. split; [lia|exact Hin]. }
  assert (Htotal : list_sum (map (fun d => List.length (snd d))
                     (map (fun g => (if String.eqb (fst g) "" then "Core"%string else fst g,
                                     snd g)) kept))
                   <= List.length ms).
  { rewrite map_map. cbn [snd].
    pose proof (filter_total (fun g => Nat.ltb 1 (List.length (snd g))) groups) as Hf.
    unfold kept.
    change (list_sum (map (fun g : string * list string => List.length (snd g)) []))
      with 0 in Hsum.
    lia. }
  destruct (map (fun g => (if String.eqb (fst g) "" then "Core"%string else fst g, snd g)) kept)
    as [|d ds] eqn:Hmap.
  - split; [cbn; lia|]. split; [now left|]. split.
    + intros d f [<-|[]] Hf. exact Hf.
    + split; [cbn; rewrite length_map; lia|exact Hlen].
  - rewrite <- Hmap in *. split; [rewrite Hmap; cbn; lia|]. split; [|split; [|split]].
    + right. intros d0 Hd0. apply in_map_iff in Hd0 as (g & <- & Hg). cbn [snd].
      now apply Hkept.
    + intros d0 f Hd0 Hf. apply in_map_iff in Hd0 as (g & <- & Hg). cbn [snd] in Hf.
      destruct (Hkept g Hg) as [_ Hin].
      destruct (Hval g f Hin Hf) as [H|(g' & [] & _)]. exact H.
    + exact Htotal.
    + exact Hlen.
Qed.

(** *** The migration plan *)

Lemma nonEmpty_length {A : Type} (l : list A) :
  List.length (if nonEmpty l then l else []) = List.length l.
Proof. destruct l; reflexivity. Qed.

(** The phases of [planMigration] are listed in strictly increasing
    order and end with [Integration and Testing], estimated at ten days;
    the estimates add up to two days per business-logic module, three per
    data-access module, four per form, plus those ten.  The last phase
    always depends on [User Interface], a phase that is in the plan only
    if some module is a form. *)
Theorem planMigration_phases :
  forall moduleAnalyses : list VBModuleAnalysis,
    let plan := phases (planMigration moduleAnalyses) in
    StronglySorted lt (map phase_order plan) /\
    (exists earlier final,
        plan = earlier ++ [final] /\ List.length earlier <= 3 /\
        phase_name final = "Integration and Testing"%string /\
        phase_estimatedDays final = 10 /\
        phase_dependencies final = ["User Interface"%string]) /\
    list_sum (map phase_estimatedDays plan)
    = 2 * List.length (getBusinessLogicModules moduleAnalyses)
      + 3 * List.length (getDataAccessModules moduleAnalyses)
      + 4 * List.length (getUIModules moduleAnalyses) + 10 /\
    (In "User Interface"%string (map phase_name plan)
     <-> existsb (isType Form) moduleAnalyses = true).
Proof.
  intros ms plan. subst plan. unfold planMigration. cbn [phases].
  assert (Hui : nonEmpty (getUIModules ms) = existsb (isType Form) ms).
  { unfold getUIModules, namesOf, nonEmpty. rewrite length_map.
    induction ms as [|m ms IH]; [reflexivity|].
    cbn [filter existsb]. destruct (isType Form m); [reflexivity|exact IH]. }
  rewrite <- Hui.
  pose proof (nonEmpty_length (getBusinessLogicModules ms)) as Hb.
  pose proof (nonEmpty_length (getDataAccessModules ms)) as Hd.
  pose proof (nonEmpty_length (getUIModules ms)) as Hu.
  unfold when.
  destruct (nonEmpty (getBusinessLogicModules ms)), (nonEmpty (getDataAccessModules ms)),
    (nonEmpty (getUIModules ms));
    cbn [concat app map phase_order phase_estimatedDays phase_name list_sum] in *;
    (split; [repeat first [ apply SSorted_nil | apply SSorted_cons
                          | apply Forall_nil | apply Forall_cons ]; lia|]);
    (split; [first [ eexists [_; _; _], _; split; [reflexivity|]
                   | eexists [_; _], _; split; [reflexivity|]
                   | eexists [_], _; split; [reflexivity|]
                   | eexists [], _; split; [reflexivity|] ];
             cbn; repeat split; lia|]);
    (split; [unfold list_sum; cbn [List.length fold_right] in *; lia|]);
    cbn [In]; split; intros H; try reflexivity; try discriminate;
      intuition discriminate.
Qed.

(** *** The parts of a proposal *)

Lemma dataAccessModules_nonEmpty (ms : list VBModuleAnalysis) :
  nonEmpty (getDataAccessModules ms) = hasDataAccess ms.
Proof.
  unfold getDataAccessModules, namesOf, hasDataAccess.
  unfold nonEmpty at 1. rewrite length_map.
  induction ms as [|m ms IH]; [reflexivity|].
  cbn [filter existsb].
  destruct (nonEmpty (databaseOperations (businessLogic m))); [reflexivity|exact IH].
Qed.

(** Find, in an explicit list of projects, the one with these modules. *)
Ltac project_of_phase :=
  match goal with
  | |- exists p, In p ?projects /\ sourceModules p = _ =>
      let rec go l :=
        lazymatch l with
        | ?q :: ?tl =>
            first [ exists q; split;
                    [cbn [In]; solve [repeat first [left; reflexivity | right]] | reflexivity]
                  | go tl ]
        end in
      go projects
  end.

(** The parts of one proposal agree on data access: the database
    technology is [SQL Server], the plan has a [Data Access Layer] phase
    and the modernization plan recommends replacing ADO/DAO exactly when
    some module has a database operation.  The data-access patterns follow
    the [includeDatabase] option alone.  In the Clean and Layered
    structures every phase of the plan before the last migrates exactly
    the source modules of one project of the structure. *)
Theorem proposal_parts_agree :
  forall (vbName : string) (moduleAnalyses : list VBModuleAnalysis)
         (style : Architecture) (options : Options),
    let proposal := generateProposal vbName moduleAnalyses style options in
    let plan := phases (migration proposal) in
    (primary (database (technologies proposal)) = "SQL Server"%string
     <-> hasDataAccess moduleAnalyses = true) /\
    (In "Data Access Layer"%string (map phase_name plan)
     <-> hasDataAccess moduleAnalyses = true) /\
    (In "Replace ADO/DAO with Entity Framework Core"%string
        (recommendations (modernization proposal))
     <-> hasDataAccess moduleAnalyses = true) /\
    (dataAccessPatterns (patterns proposal) <> [] <-> includeDatabase options = true) /\
    (style = Clean \/ style = Layered ->
     Forall (fun phase =>
               phase_name phase = "Integration and Testing"%string \/
               exists p, In p (structure proposal) /\
                         sourceModules p = phase_modules phase)
            plan).
Proof.
  intros vbName ms style options proposal plan. subst plan proposal.
  cbn [generateProposal migration technologies modernization patterns structure].
  unfold planMigration. cbn [phases]. rewrite dataAccessModules_nonEmpty.
  unfold recommendTechnologies, generateModernizationPlan, recommendPatterns, when.
  cbn [database primary recommendations dataAccessPatterns].
  split; [|split; [|split; [|split]]].
  - destruct (hasDataAccess ms); split; intros H; try reflexivity; discriminate.
  - destruct (nonEmpty (getBusinessLogicModules ms)), (hasDataAccess ms),
      (nonEmpty (getUIModules ms));
      cbn [concat app map phase_name In]; split; intros H; try reflexivity;
      try discriminate; intuition discriminate.
  - destruct (hasDataAccess ms); cbn [concat app In]; split; intros H; try reflexivity;
      try discriminate; intuition discriminate.
  - destruct (includeDatabase options); split; intros H; try reflexivity;
      try discriminate; congruence.
  - intros [->| ->]; cbn [generateStructure];
      unfold generateCleanArchitecture, generateLayeredArchitecture, project, when;
      destruct (nonEmpty (getBusinessLogicModules ms)), (hasDataAccess ms),
        (nonEmpty (getUIModules ms)), (includeDatabase options), (webBased options);
      cbn [concat app orb];
      repeat (apply Forall_cons;
              [first [left; reflexivity | right; cbn [phase_modules]; project_of_phase]|]);
      apply Forall_nil.
Qed.

End ArchitectureProps.

(* ===================================================================== *)
(** ** What the parser loads                                              *)
(* ===================================================================== *)

Module ParserProps.
Import JS VBParser Fixtures JSFacts StringFacts.
Local Open Scope list_scope.

(** *** The path of a descriptor line *)

Lemma split_head_free (sep : ascii) (a b : string) :
  includes a (String sep "") = false ->
  split sep (a ++ b)%string
  = match split sep b with hd :: tl => (a ++ hd)%string :: tl | [] => [] end.
Proof.
  induction a as [|c a IH]; cbn [append].
  - intros _. now destruct (split sep b).
  - rewrite includes_char. intros H. apply orb_false_iff in H as [Hc Ha].
    rewrite (split_other _ _ _ Hc), (IH Ha). now destruct (split sep b).
Qed.

(** The unit path of a descriptor line is the text between the first [=]
    and the next [;] (or the end of the line): for a line [key=path] or
    [key=path;rest] whose path holds neither character, it is [path],
    whatever follows the [;]. *)
Theorem manifestPath_reads_the_path :
  forall key unitPath rest : string,
    includes key "=" = false ->
    includes unitPath "=" = false ->
    includes unitPath ";" = false ->
    manifestPath (key ++ "=" ++ unitPath)%string = unitPath /\
    manifestPath (key ++ "=" ++ unitPath ++ ";" ++ rest)%string = unitPath.
Proof.
  intros key unitPath rest Hkey Heq Hsemi. unfold manifestPath. split.
  - change (key ++ "=" ++ unitPath)%string with (key ++ String "=" unitPath)%string.
    rewrite (split_app_free "=" key unitPath Hkey). cbn [nth].
    rewrite (split_free "=" unitPath Heq). cbn [nth].
    now rewrite (split_free ";" unitPath Hsemi).
  - change (key ++ "=" ++ unitPath ++ ";" ++ rest)%string
      with (key ++ String "=" (unitPath ++ String ";" rest))%string.
    rewrite (split_app_free "=" key _ Hkey). cbn [nth].
    rewrite (split_head_free "=" unitPath _ Heq).
    pose proof (split_nonempty "=" (String ";" rest)) as Hne.
    destruct (split "=" (String ";" rest)) as [|hd tl] eqn:Hs; [contradiction|].
    cbn [nth].
    assert (Hhd : exists more, hd = String ";" more).
    { rewrite (split_other "=" ";" rest eq_refl) in Hs.
      destruct (split "=" rest) as [|hd' tl']; [discriminate|].
      inversion Hs; subst. now exists hd'. }
    destruct Hhd as (more & ->).
    now rewrite (split_app_free ";" unitPath more Hsemi).
Qed.

Lemma manifestPath_reads_the_path_witness :
  manifestPath "Form=Main.frm" = "Main.frm"%string /\
  manifestPath "Module=Tools; Tools.bas" = "Tools"%string.
Proof.
  split.
  - exact (proj1 (manifestPath_reads_the_path "Form" "Main.frm" ""
                    eq_refl eq_refl eq_refl)).
  - exact (proj2 (manifestPath_reads_the_path "Module" "Tools" " Tools.bas"
                    eq_refl eq_refl eq_refl)).
Defined.

(** *** A [.vbp] descriptor *)

Lemma keys_exclusive (line : string) :
  (startsWith line "Form=" = true ->
   startsWith line "Module=" = false /\ startsWith line "Class=" = false) /\
  (startsWith line "Module=" = true -> startsWith line "Class=" = false).
Proof.
  destruct line as [|c line]; [split; discriminate|].
  cbn [startsWith]. split.
  - intros H. apply andb_true_iff in H as [H _]. apply Ascii.eqb_eq in H. subst c.
    split; reflexivity.
  - intros H. apply andb_true_iff in H as [H _]. apply Ascii.eqb_eq in H. subst c.
    reflexivity.
Qed.

Section Descriptor.
Variable world : World.
Variable projectPath : string.

(** What the loop over the lines of the descriptor adds to a state. *)
Lemma parseVBPLines (lines : list string) :
  forall st,
    match forEach (parseVBPLine world projectPath) lines st with
    | Ok st' =>
        map unit_path (forms (project st'))
        = map unit_path (forms (project st))
          ++ filter (present world projectPath) (listed "Form=" lines) /\
        map unit_path (modules (project st'))
        = map unit_path (modules (project st))
          ++ filter (present world projectPath) (listed "Module=" lines) /\
        map unit_path (classes (project st'))
        = map unit_path (classes (project st))
          ++ filter (present world projectPath) (listed "Class=" lines) /\
        List.length (warnings st')
        = List.length (warnings st)
          + (List.length (filter (fun u => negb (present world projectPath u))
                                 (listed "Form=" lines))
             + List.length (filter (fun u => negb (present world projectPath u))
                                   (listed "Module=" lines))
             + List.length (filter (fun u => negb (present world projectPath u))
                                   (listed "Class=" lines))) /\
        targetFramework (project st') = targetFramework (project st) /\
        projectType (project st') = projectType (project st)
    | Throw e =>
        exists unitPath,
          In unitPath (listed "Form=" lines ++ listed "Module=" lines
                       ++ listed "Class=" lines) /\
          present world projectPath unitPath = true /\
          readFile world (join world projectPath unitPath) = Throw e
    end.
Proof.
  induction lines as [|line lines IH]; intros st; cbn [forEach].
  - unfold listed. cbn [filter map List.length app]. rewrite !app_nil_r. repeat split; lia.
  - destruct (keys_exclusive line) as [HF HM].
    set (run := forEach (parseVBPLine world projectPath) lines) in *.
    unfold listed in *. cbn [filter].
    unfold parseVBPLine, parseVBForm, parseVBModule, parseVBClass, parseUnit.
    change (pathExists world (join world projectPath (manifestPath line)))
      with (present world projectPath (manifestPath line)).
    destruct (startsWith line "Form=") eqn:EF;
      [ destruct (HF eq_refl) as [EM EC]; rewrite EM, EC
      | destruct (startsWith line "Module=") eqn:EM;
        [ rewrite (HM eq_refl)
        | destruct (startsWith line "Class=") eqn:EC; [|apply IH] ] ];
      cbn [map filter];
      (destruct (present world projectPath (manifestPath line)) eqn:Hex; cbn [negb bind];
       [ destruct (readFile world (join world projectPath (manifestPath line)))
           as [text|e] eqn:Hread; cbn [bind];
         [ match goal with
           | |- context [run ?st1] => specialize (IH st1); destruct (run st1) as [st'|e]
           end;
           [ destruct IH as (H1 & H2 & H3 & H4 & H5 & H6);
             cbn [pushForm pushModule pushClass project forms modules classes warnings
                    targetFramework projectType] in H1, H2, H3, H4, H5, H6;
             try rewrite List.map_app in H1; try rewrite List.map_app in H2;
             try rewrite List.map_app in H3;
             cbn [map unitOf unit_path] in H1, H2, H3;
             try rewrite <- app_assoc in H1; try rewrite <- app_assoc in H2;
             try rewrite <- app_assoc in H3; cbn [app] in H1, H2, H3;
             repeat split; assumption
           | destruct IH as (u & Hin & Hp & Hr); exists u;
             split; [rewrite !in_app_iff in *; cbn [In]; tauto | split; assumption] ]
         | exists (manifestPath line);
           split; [rewrite !in_app_iff; cbn [In]; tauto | split; assumption] ]
       | match goal with
         | |- context [run ?st1] => specialize (IH st1); destruct (run st1) as [st'|e]
         end;
         [ destruct IH as (H1 & H2 & H3 & H4 & H5 & H6);
           cbn [warn project warnings] in H1, H2, H3, H4, H5, H6;
           rewrite length_app in H4; cbn [List.length] in *;
           repeat split; try assumption; lia
         | destruct IH as (u & Hin & Hp & Hr); exists u;
           split; [rewrite !in_app_iff in *; cbn [In]; tauto | split; assumption] ] ]).
Qed.
End Descriptor.

(** A [.vbp] descriptor accounts for every unit it lists.  When
    [parseVBPFile] returns, the forms, modules and classes of the project
    are the listed unit files that exist, in the order of the descriptor,
    and there is one warning for each listed file that does not exist;
    the project is a [VB6] [WinForms] project.  When it fails, the error
    is that of reading a listed file that exists. *)
Theorem parseVBPFile_accounts_for_every_entry :
  forall (world : World) (projectPath content projectFile : string),
    let lines := split LF content in
    let entries := listed "Form=" lines ++ listed "Module=" lines ++ listed "Class=" lines in
    match parseVBPFile world projectPath content projectFile with
    | Ok st =>
        map unit_path (forms (project st))
        = filter (present world projectPath) (listed "Form=" lines) /\
        map unit_path (modules (project st))
        = filter (present world projectPath) (listed "Module=" lines) /\
        map unit_path (classes (project st))
        = filter (present world projectPath) (listed "Class=" lines) /\
        List.length (warnings st)
        = List.length (filter (fun unitPath => negb (present world projectPath unitPath))
                              entries) /\
        sourceUnits (project st) + List.length (warnings st) = List.length entries /\
        targetFramework (project st) = "VB6"%string /\
        projectType (project st) = "WinForms"%string
    | Throw e =>
        exists unitPath,
          In unitPath entries /\
          present world projectPath unitPath = true /\
          readFile world (join world projectPath unitPath) = Throw e
    end.
Proof.
  intros world projectPath content projectFile lines entries. unfold parseVBPFile.
  fold lines.
  pose proof (parseVBPLines world projectPath lines
                {| project :=
                     {| name := basename world projectFile ".vbp"; path := projectFile;
                        targetFramework := "VB6"; forms := []; modules := [];
                        classes := []; projectType := "WinForms" |};
                   warnings := [] |}) as H.
  destruct (forEach _ lines _) as [st|e]; [|exact H].
  destruct H as (H1 & H2 & H3 & H4 & H5 & H6).
  cbn [project forms modules classes warnings targetFramework projectType map app
         List.length] in H1, H2, H3, H4, H5, H6.
  assert (Hw : List.length (warnings st)
               = List.length (filter (fun unitPath => negb (present world projectPath unitPath))
                                     entries)).
  { subst entries. rewrite !filter_app, !length_app. lia. }
  repeat split; try assumption.
  unfold sourceUnits. rewrite Hw.
  rewrite <- (length_map unit_path (forms (project st))),
          <- (length_map unit_path (modules (project st))),
          <- (length_map unit_path (classes (project st))), H1, H2, H3.
  subst entries. rewrite !filter_app, !length_app.
  assert (Hsplit : forall l : list string,
             List.length (filter (present world projectPath) l)
             + List.length (filter (fun u => negb (present world projectPath u)) l)
             = List.length l).
  { induction l as [|x l IHl]; [reflexivity|]. cbn [filter].
    destruct (present world projectPath x); cbn [negb List.length]; lia. }
  pose proof (Hsplit (listed "Form=" lines)).
  pose proof (Hsplit (listed "Module=" lines)).
  pose proof (Hsplit (listed "Class=" lines)).
  lia.
Qed.

(** *** A [.vbproj] descriptor *)

Section Sources.
Variable world : World.
Variable projectPath : string.

(** What one enumerated file does to the state. *)
Lemma parseVBFile_step (filePath : string) (st st1 : State) :
  parseVBFile world projectPath filePath st = Ok st1 ->
  let ext := toLowerCase (extname world filePath) in
  st1 = st \/
  (exists line, st1 = warn line st) \/
  (exists text, st1 = pushForm (unitOf world text filePath) st /\
                In ext [".vb"; ".frm"]%string) \/
  (exists text, st1 = pushModule (unitOf world text filePath) st /\
                In ext [".vb"; ".bas"]%string) \/
  (exists text, st1 = pushClass (unitOf world text filePath) st /\
                In ext [".vb"; ".cls"]%string).
Proof.
  unfold parseVBFile.
  destruct (readFile world (join world projectPath filePath)) as [content|e] eqn:Hread;
    [|discriminate].
  cbn [bind].
  destruct (String.eqb (toLowerCase (extname world filePath)) ".vb") eqn:Evb.
  { apply String.eqb_eq in Evb. rewrite Evb. unfold parseVBCodeFile.
    destruct (_ && _).
    { intros [= <-]. right. right. left. exists content. split; [reflexivity|now left]. }
    destruct (_ || _).
    { intros [= <-]. do 4 right. exists content. split; [reflexivity|now left]. }
    destruct (includes content "Module ").
    { intros [= <-]. do 3 right. left. exists content. split; [reflexivity|now left]. }
    intros [= <-]. now left. }
  unfold parseVBForm, parseVBModule, parseVBClass, parseUnit. rewrite Hread. cbn [bind].
  destruct (String.eqb (toLowerCase (extname world filePath)) ".frm") eqn:Efrm.
  { apply String.eqb_eq in Efrm. rewrite Efrm.
    destruct (negb _); intros [= <-].
    - right. left. eexists. reflexivity.
    - right. right. left. exists content. split; [reflexivity|right; now left]. }
  destruct (String.eqb (toLowerCase (extname world filePath)) ".bas") eqn:Ebas.
  { apply String.eqb_eq in Ebas. rewrite Ebas.
    destruct (negb _); intros [= <-].
    - right. left. eexists. reflexivity.
    - do 3 right. left. exists content. split; [reflexivity|right; now left]. }
  destruct (String.eqb (toLowerCase (extname world filePath)) ".cls") eqn:Ecls.
  { apply String.eqb_eq in Ecls. rewrite Ecls.
    destruct (negb _); intros [= <-].
    - right. left. eexists. reflexivity.
    - do 4 right. exists content. split; [reflexivity|right; now left]. }
  intros [= <-]. now left.
Qed.

Lemma parseVBFiles (files : list string) :
  forall st st',
    forEach (parseVBFile world projectPath) files st = Ok st' ->
    (forall u, In u (forms (project st')) ->
               In u (forms (project st)) \/
               (In (unit_path u) files /\
                In (toLowerCase (extname world (unit_path u))) [".vb"; ".frm"]%string)) /\
    (forall u, In u (modules (project st')) ->
               In u (modules (project st)) \/
               (In (unit_path u) files /\
                In (toLowerCase (extname world (unit_path u))) [".vb"; ".bas"]%string)) /\
    (forall u, In u (classes (project st')) ->
               In u (classes (project st)) \/
               (In (unit_path u) files /\
                In (toLowerCase (extname world (unit_path u))) [".vb"; ".cls"]%string)) /\
    sourceUnits (project st') + List.length (warnings st')
    <= sourceUnits (project st) + List.length (warnings st) + List.length files.
Proof.
  induction files as [|f files IH]; intros st st'; cbn [forEach].
  - intros [= <-]. repeat split; auto. cbn [List.length]. lia.
  - destruct (parseVBFile world projectPath f st) as [st1|e] eqn:Hstep; [|discriminate].
    cbn [bind]. intros Hrun. destruct (IH st1 st' Hrun) as (Hf & Hm & Hc & Hn).
    apply parseVBFile_step in Hstep. cbn zeta in Hstep.
    destruct Hstep as [->|[(line & ->)|[(text & -> & Hext)|[(text & -> & Hext)
                                                            |(text & -> & Hext)]]]].
    + repeat split.
      * intros u Hu. destruct (Hf u Hu) as [H|H]; [now left|right; split; [right; apply H | apply H]].
      * intros u Hu. destruct (Hm u Hu) as [H|H]; [now left|right; split; [right; apply H | apply H]].
      * intros u Hu. destruct (Hc u Hu) as [H|H]; [now left|right; split; [right; apply H | apply H]].
      * cbn [List.length]. lia.
    + cbn [warn project warnings] in Hf, Hm, Hc, Hn. rewrite length_app in Hn.
      cbn [List.length] in *. repeat split.
      * intros u Hu. destruct (Hf u Hu) as [H|H]; [now left|right; split; [right; apply H | apply H]].
      * intros u Hu. destruct (Hm u Hu) as [H|H]; [now left|right; split; [right; apply H | apply H]].
      * intros u Hu. destruct (Hc u Hu) as [H|H]; [now left|right; split; [right; apply H | apply H]].
      * lia.
    + unfold sourceUnits in *.
      cbn [pushForm project forms modules classes warnings] in Hf, Hm, Hc, Hn.
      rewrite length_app in Hn. cbn [List.length] in *. repeat split.
      * intros u Hu. destruct (Hf u Hu) as [H|H]; [|right; split; [right; apply H | apply H]].
        apply in_app_or in H as [H|[<-|[]]]; [now left|right].
        cbn [unitOf unit_path]. split; [now left|exact Hext].
      * intros u Hu. destruct (Hm u Hu) as [H|H]; [now left|right; split; [right; apply H | apply H]].
      * intros u Hu. destruct (Hc u Hu) as [H|H]; [now left|right; split; [right; apply H | apply H]].
      * lia.
    + unfold sourceUnits in *.
      cbn [pushModule project forms modules classes warnings] in Hf, Hm, Hc, Hn.
      rewrite length_app in Hn. cbn [List.length] in *. repeat split.
      * intros u Hu. destruct (Hf u Hu) as [H|H]; [now left|right; split; [right; apply H | apply H]].
      * intros u Hu. destruct (Hm u Hu) as [H|H]; [|right; split; [right; apply H | apply H]].
        apply in_app_or in H as [H|[<-|[]]]; [now left|right].
        cbn [unitOf unit_path]. split; [now left|exact Hext].
      * intros u Hu. destruct (Hc u Hu) as [H|H]; [now left|right; split; [right; apply H | apply H]].
      * lia.
    + unfold sourceUnits in *.
      cbn [pushClass project forms modules classes warnings] in Hf, Hm, Hc, Hn.
      rewrite length_app in Hn. cbn [List.length] in *. repeat split.
      * intros u Hu. destruct (Hf u Hu) as [H|H]; [now left|right; split; [right; apply H | apply H]].
      * intros u Hu. destruct (Hm u Hu) as [H|H]; [now left|right; split; [right; apply H | apply H]].
      * intros u Hu. destruct (Hc u Hu) as [H|H]; [|right; split; [right; apply H | apply H]].
        apply in_app_or in H as [H|[<-|[]]]; [now left|right].
        cbn [unitOf unit_path]. split; [now left|exact Hext].
      * lia.
Qed.
End Sources.

(** When [parseVBProjFile] returns a project, every form, module and
    class in it comes from one of the enumerated source files: a form from
    a [.vb] or [.frm] file, a module from a [.vb] or [.bas] file, a class
    from a [.vb] or [.cls] file.  A file gives at most one unit or one
    warning, so units and warnings together never outnumber the files. *)
Theorem parseVBProjFile_units_come_from_sources :
  forall (world : World) (projectPath content projectFile : string) (st : State),
    parseVBProjFile world projectPath content projectFile = Ok st ->
    exists sources,
      globVBFiles world = Ok sources /\
      (forall u, In u (forms (project st)) ->
                 In (unit_path u) sources /\
                 In (toLowerCase (extname world (unit_path u))) [".vb"; ".frm"]%string) /\
      (forall u, In u (modules (project st)) ->
                 In (unit_path u) sources /\
                 In (toLowerCase (extname world (unit_path u))) [".vb"; ".bas"]%string) /\
      (forall u, In u (classes (project st)) ->
                 In (unit_path u) sources /\
                 In (toLowerCase (extname world (unit_path u))) [".vb"; ".cls"]%string) /\
      sourceUnits (project st) + List.length (warnings st) <= List.length sources.
Proof.
  intros world projectPath content projectFile st. unfold parseVBProjFile.
  destruct (parseStringPromise world content) as [manifest|e]; [|discriminate].
  cbn [bind]. destruct (globVBFiles world) as [sources|e]; [|discriminate].
  cbn [bind]. intros Hrun. exists sources. split; [reflexivity|].
  destruct (parseVBFiles world projectPath sources _ st Hrun) as (Hf & Hm & Hc & Hn).
  cbn [project forms modules classes warnings sourceUnits List.length] in Hf, Hm, Hc, Hn.
  repeat split.
  - destruct (Hf u H) as [[]|[H1 _]]. exact H1.
  - destruct (Hf u H) as [[]|[_ H2]]. exact H2.
  - destruct (Hm u H) as [[]|[H1 _]]. exact H1.
  - destruct (Hm u H) as [[]|[_ H2]]. exact H2.
  - destruct (Hc u H) as [[]|[H1 _]]. exact H1.
  - destruct (Hc u H) as [[]|[_ H2]]. exact H2.
  - unfold sourceUnits in *. cbn [project forms modules classes List.length] in Hn. lia.
Qed.

Lemma parseVBProjFile_units_come_from_sources_witness :
  exists st,
    parseVBProjFile worldWithSources "" (snd descriptor) "Shop.vbproj" = Ok st /\
    sourceUnits (project st) = 1 /\
    exists sources,
      globVBFiles worldWithSources = Ok sources /\
      sourceUnits (project st) + List.length (warnings st) <= List.length sources.
Proof.
  eexists. split; [vm_compute; reflexivity|]. split; [reflexivity|].
  destruct (parseVBProjFile_units_come_from_sources worldWithSources "" (snd descriptor)
              "Shop.vbproj" _ eq_refl) as (sources & Hglob & _ & _ & _ & Hn).
  exists sources. split; [exact Hglob|exact Hn].
Defined.

End ParserProps.

(* ===================================================================== *)
(** ** The complexity rating of a module                                  *)
(* ===================================================================== *)

Module ComplexityProps.
Import Analysis VBModuleAnalyzer.

Lemma graded_monotone (n n' low high : nat) :
  n <= n' -> graded n low high <= graded n' low high.
Proof.
  intros H. unfold graded.
  destruct (Nat.ltb_spec high n), (Nat.ltb_spec high n'), (Nat.ltb_spec low n),
    (Nat.ltb_spec low n'); lia.
Qed.

Lemma graded_raised (n low high : nat) :
  low <= high -> graded n low high <= (if Nat.ltb low n then 2 else 0).
Proof.
  intros H. unfold graded.
  destruct (Nat.ltb_spec high n), (Nat.ltb_spec low n); lia.
Qed.

(** A score of three takes two raised measures, a score of six three. *)
Lemma score_raised (m : Measured) :
  (3 <= score m -> 2 <= raised m) /\ (6 <= score m -> 3 <= raised m).
Proof.
  unfold score, raised.
  pose proof (graded_raised (linesOfCode (metrics m)) 200 500 ltac:(lia)).
  pose proof (graded_raised (cyclomaticComplexity (metrics m)) 10 20 ltac:(lia)).
  pose proof (graded_raised (List.length (methods (analysis m))) 10 20 ltac:(lia)).
  pose proof (graded_raised (totalBusinessOps m) 10 20 ltac:(lia)).
  destruct (Nat.ltb 200 (linesOfCode (metrics m))),
    (Nat.ltb 10 (cyclomaticComplexity (metrics m))),
    (Nat.ltb 10 (List.length (methods (analysis m)))),
    (Nat.ltb 10 (totalBusinessOps m)),
    (Nat.ltb 5 (List.length (codeSmells (metrics m))));
    cbn [filter List.length]; lia.
Qed.

(** [assessComplexity] never lowers its rating when a module grows: more
    lines, more branches, more methods, more business operations or more
    code smells give the same rating or a higher one.  A module is rated
    [High] only if at least three of the five measures are above their
    lower threshold, and above [Low] only if at least two are: no single
    measure, however large, lifts a module out of [Low]. *)
Theorem assessComplexity_monotone :
  forall a b : Measured,
    (linesOfCode (metrics a) <= linesOfCode (metrics b) ->
     cyclomaticComplexity (metrics a) <= cyclomaticComplexity (metrics b) ->
     List.length (methods (analysis a)) <= List.length (methods (analysis b)) ->
     totalBusinessOps a <= totalBusinessOps b ->
     List.length (codeSmells (metrics a)) <= List.length (codeSmells (metrics b)) ->
     rank (assessComplexity a) <= rank (assessComplexity b)) /\
    (assessComplexity a = High -> 3 <= raised a) /\
    (assessComplexity a <> Low -> 2 <= raised a).
Proof.
  intros a b. split; [|split].
  - intros Hl Hc Hm Ho Hs.
    assert (Hscore : score a <= score b).
    { unfold score.
      pose proof (graded_monotone _ _ 200 500 Hl).
      pose proof (graded_monotone _ _ 10 20 Hc).
      pose proof (graded_monotone _ _ 10 20 Hm).
      pose proof (graded_monotone _ _ 10 20 Ho).
      destruct (Nat.ltb_spec 5 (List.length (codeSmells (metrics a)))),
        (Nat.ltb_spec 5 (List.length (codeSmells (metrics b)))); lia. }
    unfold assessComplexity.
    destruct (Nat.leb_spec 6 (score a)), (Nat.leb_spec 6 (score b)),
      (Nat.leb_spec 3 (score a)), (Nat.leb_spec 3 (score b)); cbn [rank]; lia.
  - intros Hhigh. pose proof (score_raised a) as Hraised.
    unfold assessComplexity in Hhigh.
    destruct (Nat.leb_spec 6 (score a)); [lia|].
    destruct (Nat.leb 3 (score a)); discriminate.
  - intros Hrated. pose proof (score_raised a) as Hraised.
    unfold assessComplexity in Hrated.
    destruct (Nat.leb_spec 6 (score a)); [lia|].
    destruct (Nat.leb_spec 3 (score a)); [lia|contradiction].
Qed.

End ComplexityProps.

(* ===================================================================== *)
(** ** The four type tables                                               *)
(* ===================================================================== *)

Module TypeMapProps.
Import JS.

(** Decide the type name against every key of the tables; [finish] closes
    the case of a key. *)
Ltac by_key t finish :=
  repeat match goal with
         | |- context [String.eqb ?k t] =>
             let E := fresh "E" in
             destruct (String.eqb k t) eqn:E;
             [ apply String.eqb_eq in E; subst t; finish | ]
         end.

(** What the generator's table gives is a fixed point of the table. *)
Lemma mapVBTypeToCSharp_fixed (vbType : string) :
  CSharpGenerator.mapVBTypeToCSharp (CSharpGenerator.mapVBTypeToCSharp vbType)
  = CSharpGenerator.mapVBTypeToCSharp vbType.
Proof.
  remember (CSharpGenerator.mapVBTypeToCSharp vbType) as csType eqn:Hcs.
  revert Hcs. unfold CSharpGenerator.mapVBTypeToCSharp at 1.
  destruct (String.eqb vbType "") eqn:Eempty; [intros ->; reflexivity|].
  unfold MigrationRulesEngine.lookupOr at 1. cbn [toStr MigrationRulesEngine.own].
  by_key vbType ltac:(intros ->; reflexivity).
  destruct (MigrationRulesEngine.inheritedMember vbType) as [text|] eqn:Hinh.
  - intros ->. unfold MigrationRulesEngine.inheritedMember in Hinh.
    destruct (String.eqb vbType "__proto__").
    { injection Hinh as <-. reflexivity. }
    destruct (String.eqb vbType "constructor").
    { injection Hinh as <-. reflexivity. }
    destruct (existsb (String.eqb vbType) _) eqn:Hkey; [|discriminate].
    injection Hinh as <-. apply existsb_exists in Hkey as (key & Hin & Hkey).
    apply String.eqb_eq in Hkey. subst key.
    cbn [In] in Hin.
    repeat (destruct Hin as [<-|Hin]; [reflexivity|]). contradiction.
  - intros ->. unfold CSharpGenerator.mapVBTypeToCSharp. rewrite Eempty.
    unfold MigrationRulesEngine.lookupOr. cbn [toStr MigrationRulesEngine.own].
    repeat match goal with E : String.eqb _ vbType = false |- _ => rewrite E; clear E end.
    now rewrite Hinh.
Qed.

(** The generator, the two rule engines and the module migrator each have
    their own table of VB types.  The four give the same C# type for a
    type name exactly when the name is not empty and is none of the nine
    names listed; and what the generator gives is a fixed point:
    converting a converted type changes nothing. *)
Theorem type_tables_agree :
  forall vbType : string,
    let csType := CSharpGenerator.mapVBTypeToCSharp vbType in
    ((MigrationRulesEngine.mapDataType (VString vbType) = csType /\
      EnhancedMigrationEngine.mapDataType (VString vbType) = csType /\
      ModuleMigrator.mapVBTypeToCSharp vbType = csType)
     <-> (vbType <> ""%string /\
          ~ In vbType ["Decimal"; "Variant"; "Currency"; "Byte"; "Short"; "Nothing";
                       "System.Windows.Forms.Form"; "System.Data.DataSet";
                       "System.Data.DataTable"]%string)) /\
    CSharpGenerator.mapVBTypeToCSharp csType = csType.
Proof.
  intros t csType. subst csType. split; [|apply mapVBTypeToCSharp_fixed]. split.
  - intros (Hbase & Henhanced & Hmigrator). split.
    + intros ->. vm_compute in Hbase. discriminate.
    + intros Hin. cbn [In] in Hin.
      repeat (destruct Hin as [<-|Hin];
              [ vm_compute in Hbase, Henhanced, Hmigrator;
                first [discriminate Hbase | discriminate Henhanced | discriminate Hmigrator]
              | ]).
      contradiction.
  - intros [Hne Hex].
    split; [|split];
      unfold MigrationRulesEngine.mapDataType, EnhancedMigrationEngine.mapDataType,
        ModuleMigrator.mapVBTypeToCSharp, CSharpGenerator.mapVBTypeToCSharp;
      (destruct (String.eqb t "") eqn:Eempty;
       [apply String.eqb_eq in Eempty; contradiction|]);
      unfold MigrationRulesEngine.lookupOr; cbn [toStr MigrationRulesEngine.own];
      by_key t ltac:(first [ reflexivity
                           | exfalso; apply Hex; cbn [In]; tauto ]);
      reflexivity.
Qed.

End TypeMapProps.

(* ===================================================================== *)
(** ** Parameter lists                                                    *)
(* ===================================================================== *)

Module ParameterProps.
Import JS RegExp JSFacts StringFacts RegExpSemantics.
Local Open Scope list_scope.

(** *** A match captures nothing the text does not hold *)

Lemma free_tail (c a : ascii) (s : string) :
  includes (String a s) (String c "") = false -> includes s (String c "") = false.
Proof. rewrite includes_char. intros H. now apply orb_false_iff in H. Qed.

Lemma free_take (c : ascii) (n : nat) (s : string) :
  includes s (String c "") = false -> includes (take n s) (String c "") = false.
Proof.
  revert s. induction n as [|n IH]; intros s H; [reflexivity|].
  destruct s as [|a s]; [reflexivity|]. cbn [take].
  rewrite includes_char in *. apply orb_false_iff in H as [Ha Hs].
  now rewrite Ha, (IH s Hs).
Qed.

Lemma free_set_cap (c : ascii) (i : nat) (v : option string) (cs : list (option string)) :
  (forall t, v = Some t -> includes t (String c "") = false) ->
  (forall j t, nth j cs None = Some t -> includes t (String c "") = false) ->
  forall j t, nth j (set_cap i v cs) None = Some t -> includes t (String c "") = false.
Proof.
  intros Hv Hcs j t H. destruct (Nat.eq_dec j i) as [->|Hne].
  - destruct (Nat.lt_ge_cases i (List.length cs)) as [Hi|Hi].
    + rewrite nth_set_cap_same in H by exact Hi. now apply Hv.
    + rewrite nth_overflow in H by (rewrite length_set_cap; exact Hi). discriminate.
  - rewrite nth_set_cap_other in H by exact Hne. now apply (Hcs j).
Qed.

Lemma free_clear_caps (c : ascii) (count from : nat) (cs : list (option string)) :
  (forall j t, nth j cs None = Some t -> includes t (String c "") = false) ->
  forall j t, nth j (clear_caps from count cs) None = Some t ->
              includes t (String c "") = false.
Proof.
  revert from cs. induction count as [|count IH]; intros from cs Hcs; [exact Hcs|].
  cbn [clear_caps]. apply IH. apply free_set_cap; [discriminate|exact Hcs].
Qed.

(** If neither the text ahead nor any capture holds the character [c]
    before a match, the same is true after it. *)
Lemma reaches_free (ml : bool) (c : ascii) (r : regex) :
  forall pi x y,
    reaches ml r pi x y ->
    includes (rest x) (String c "") = false ->
    (forall j t, nth j (caps x) None = Some t -> includes t (String c "") = false) ->
    includes (rest y) (String c "") = false /\
    (forall j t, nth j (caps y) None = Some t -> includes t (String c "") = false).
Proof.
  induction r as [|a| |negated items|r1 IH1 r2 IH2|r1 IH1 r2 IH2
                 |min max greedy r1 IH1|r1 IH1|r1 IH1| | |];
    intros pi x y H Hrest Hcaps; cbn [reaches] in H.
  - subst. now split.
  - destruct H as (s' & Hx & ->). cbn [rest caps]. rewrite Hx in Hrest.
    split; [now apply free_tail in Hrest|exact Hcaps].
  - destruct H as (a & s' & Hx & _ & ->). cbn [rest caps]. rewrite Hx in Hrest.
    split; [now apply free_tail in Hrest|exact Hcaps].
  - destruct H as (a & s' & Hx & _ & ->). cbn [rest caps]. rewrite Hx in Hrest.
    split; [now apply free_tail in Hrest|exact Hcaps].
  - destruct H as (m & H1 & H2).
    destruct (IH1 _ _ _ H1 Hrest Hcaps) as [Hm Hcm]. now apply (IH2 _ _ _ H2).
  - destruct H as [H|H]; [now apply (IH1 _ _ _ H)|now apply (IH2 _ _ _ H)].
  - induction H as [x|x m y Hstep _ IH]; [now split|].
    apply IH; apply (IH1 _ _ _ Hstep); cbn [clear_body rest caps]; try exact Hrest;
      now apply free_clear_caps.
  - destruct H as (m & H1 & ->). cbn [rest caps].
    destruct (IH1 _ _ _ H1 Hrest Hcaps) as [Hm Hcm].
    split; [exact Hm|]. apply free_set_cap; [|exact Hcm].
    intros t [= <-]. now apply free_take.
  - destruct H as (m & H1 & ->). cbn [rest caps].
    destruct (IH1 _ _ _ H1 Hrest Hcaps) as [_ Hcm]. now split.
  - subst. now split.
  - subst. now split.
  - subst. now split.
Qed.

Lemma exec_at_free (c : ascii) (re : RegExp.t) (b : option ascii) (s : string) n cs :
  exec_at re b s = Some (n, cs) ->
  includes s (String c "") = false ->
  forall j t, nth j cs None = Some t -> includes t (String c "") = false.
Proof.
  unfold exec_at.
  destruct (matcher _ _ _ _ _) as [y|] eqn:H; [|discriminate].
  intros Heq Hs. injection Heq as _ <-.
  apply matcher_reaches in H as (y' & Hreach & Heq). injection Heq as ->.
  apply (reaches_free _ c _ _ _ _ Hreach); cbn [rest caps]; [exact Hs|].
  intros j t Hj.
  destruct (nth_in_or_default j (repeat (@None string) (count_groups (source re))) None)
    as [Hin|Hd].
  - apply repeat_spec in Hin. congruence.
  - congruence.
Qed.

Lemma search_free (c : ascii) (re : RegExp.t) (s : string) :
  forall b idx m,
    search re b s idx = Some m ->
    includes s (String c "") = false ->
    forall j t, nth j (captures m) None = Some t -> includes t (String c "") = false.
Proof.
  induction s as [|a s IH]; intros b idx m; cbn [search].
  - destruct (exec_at re b "") as [[n cs]|] eqn:He; [|discriminate].
    intros H Hs. injection H as <-. cbn [captures]. now apply (exec_at_free c _ _ _ _ _ He).
  - destruct (exec_at re b (String a s)) as [[n cs]|] eqn:He.
    + intros H Hs. injection H as <-. cbn [captures].
      now apply (exec_at_free c _ _ _ _ _ He).
    + intros H Hs. apply (IH _ _ _ H). now apply free_tail in Hs.
Qed.

(** *** One parameter *)

Lemma lookupOr_free (c : ascii) (table : list (string * string)) (key : value)
      (fallback : string) :
  (forall k v, In (k, v) table -> includes v (String c "") = false) ->
  includes (toStr key) (String c "") = false ->
  includes fallback (String c "") = false ->
  includes "[object Object]" (String c "") = false ->
  includes "function " (String c "") = false ->
  includes "() { [native code] }" (String c "") = false ->
  includes (MigrationRulesEngine.nativeFunction "Object") (String c "") = false ->
  includes (MigrationRulesEngine.lookupOr table key fallback) (String c "") = false.
Proof.
  intros Htable Hkey Hfb Hobj Hfun Hnative Hctor. unfold MigrationRulesEngine.lookupOr.
  destruct (MigrationRulesEngine.own table (toStr key)) as [v|] eqn:Hown.
  - clear -Htable Hown. induction table as [|[k v'] table IH]; [discriminate|].
    cbn [MigrationRulesEngine.own] in Hown.
    destruct (String.eqb k (toStr key)).
    + injection Hown as ->. apply (Htable k v). now left.
    + apply IH; [|exact Hown]. intros k0 v0 H. apply (Htable k0 v0). now right.
  - unfold MigrationRulesEngine.inheritedMember.
    destruct (String.eqb (toStr key) "__proto__"); [exact Hobj|].
    destruct (String.eqb (toStr key) "constructor"); [exact Hctor|].
    destruct (existsb _ _); [|exact Hfb].
    unfold MigrationRulesEngine.nativeFunction.
    rewrite !includes_char_app, Hfun, Hkey, Hnative. reflexivity.
Qed.

Lemma capture_free (c : ascii) (cap : option string) :
  includes "undefined" (String c "") = false ->
  (forall t, cap = Some t -> includes t (String c "") = false) ->
  includes (toStr (capture_value cap)) (String c "") = false.
Proof.
  intros Hu H. destruct cap as [t|]; cbn [capture_value toStr]; [now apply H|exact Hu].
Qed.

Lemma base_convertParameter_free (param : string) :
  includes param "," = false ->
  includes (MigrationRulesEngine.convertParameter param) "," = false.
Proof.
  intros H. apply (includes_char_trim ",") in H. unfold MigrationRulesEngine.convertParameter.
  destruct (search MigrationRulesEngine.paramPattern None (trim param) 0) as [m|] eqn:Hm;
    [|exact H].
  pose proof (search_free "," _ _ _ _ _ Hm H) as Hcaps.
  change (includes ?s ",") with (includes s (String "," "")).
  rewrite !includes_char_app.
  assert (Hname : includes (toStr (capture_value (nth 0 (captures m) None))) "," = false).
  { apply (capture_free ","); [reflexivity|]. intros t Ht. now apply (Hcaps 0). }
  assert (Htype : includes (toStr (capture_value (nth 1 (captures m) None))) "," = false).
  { apply (capture_free ","); [reflexivity|]. intros t Ht. now apply (Hcaps 1). }
  rewrite Hname. unfold MigrationRulesEngine.mapDataType.
  rewrite (lookupOr_free ","); try reflexivity; try assumption.
  intros k v Hin. cbn [In] in Hin.
  repeat (destruct Hin as [[= <- <-]|Hin]; [reflexivity|]). contradiction.
Qed.

Lemma enhanced_convertParameter_free (param : string) :
  includes param "," = false ->
  includes (EnhancedMigrationEngine.convertParameter param) "," = false.
Proof.
  intros H. apply (includes_char_trim ",") in H.
  unfold EnhancedMigrationEngine.convertParameter.
  destruct (search MigrationRulesEngine.paramPattern None (trim param) 0) as [m|] eqn:Hm;
    [|exact H].
  pose proof (search_free "," _ _ _ _ _ Hm H) as Hcaps.
  change (includes ?s ",") with (includes s (String "," "")).
  rewrite !includes_char_app.
  assert (Hname : includes (toStr (capture_value (nth 0 (captures m) None))) "," = false).
  { apply (capture_free ","); [reflexivity|]. intros t Ht. now apply (Hcaps 0). }
  assert (Htype : includes (toStr (capture_value (nth 1 (captures m) None))) "," = false).
  { apply (capture_free ","); [reflexivity|]. intros t Ht. now apply (Hcaps 1). }
  rewrite Hname. unfold EnhancedMigrationEngine.mapDataType.
  rewrite (lookupOr_free ","); try reflexivity; try assumption.
  intros k v Hin. cbn [In] in Hin.
  repeat (destruct Hin as [[= <- <-]|Hin]; [reflexivity|]). contradiction.
Qed.

(** *** The list *)

Lemma split_joined (pieces : list string) :
  (forall x, In x pieces -> includes x "," = false) ->
  split "," (join ", " pieces)
  = match pieces with
    | [] => [""%string]
    | first :: others => first :: map (append " ") others
    end.
Proof.
  induction pieces as [|x pieces IH]; intros Hfree; [reflexivity|].
  destruct pieces as [|y pieces].
  - cbn [join map]. apply split_free. apply Hfree. now left.
  - change (join ", " (x :: y :: pieces))
      with (x ++ String "," (String " " (join ", " (y :: pieces))))%string.
    rewrite split_app_free by (apply Hfree; now left).
    rewrite (split_other "," " " _ eq_refl), IH by (intros z Hz; apply Hfree; now right).
    reflexivity.
Qed.

(** [convertParameters], in both engines, converts a parameter list
    parameter by parameter: the result has as many comma-separated parts
    as the input, the i-th part being the conversion of the i-th input
    parameter (after a space, except for the first).  No parameter is
    dropped, merged or split, whatever its text.  A blank list gives the
    empty text. *)
Theorem convertParameters_keeps_count :
  forall vbParams : string,
    (trim vbParams = ""%string ->
     MigrationRulesEngine.convertParameters (VString vbParams) = Ok ""%string /\
     EnhancedMigrationEngine.convertParameters (VString vbParams) = Ok ""%string) /\
    (trim vbParams <> ""%string ->
     (exists csParameters first others,
         MigrationRulesEngine.convertParameters (VString vbParams) = Ok csParameters /\
         map MigrationRulesEngine.convertParameter (split "," vbParams) = first :: others /\
         split "," csParameters = first :: map (append " ") others /\
         List.length (split "," csParameters) = List.length (split "," vbParams)) /\
     (exists csParameters first others,
         EnhancedMigrationEngine.convertParameters (VString vbParams) = Ok csParameters /\
         map EnhancedMigrationEngine.convertParameter (split "," vbParams) = first :: others /\
         split "," csParameters = first :: map (append " ") others /\
         List.length (split "," csParameters) = List.length (split "," vbParams))).
Proof.
  intros s. split.
  - intros Hblank.
    unfold MigrationRulesEngine.convertParameters, EnhancedMigrationEngine.convertParameters.
    cbn [truthy]. destruct (String.eqb s ""); cbn [negb]; [now split|].
    rewrite Hblank. now split.
  - intros Hne.
    assert (Hs : String.eqb s "" = false).
    { apply String.eqb_neq. intros ->. now apply Hne. }
    apply String.eqb_neq in Hne.
    unfold MigrationRulesEngine.convertParameters, EnhancedMigrationEngine.convertParameters.
    cbn [truthy]. rewrite Hs, Hne. cbn [negb].
    pose proof (split_nonempty "," s) as Hparts.
    split.
    + destruct (map MigrationRulesEngine.convertParameter (split "," s))
        as [|first others] eqn:Hmap.
      { destruct (split "," s); [contradiction|discriminate]. }
      exists (join ", " (first :: others)), first, others.
      assert (Hout : split "," (join ", " (first :: others))
                     = first :: map (append " ") others).
      { apply (split_joined (first :: others)). intros x Hx. rewrite <- Hmap in Hx.
        apply in_map_iff in Hx as (param & <- & Hparam).
        apply base_convertParameter_free. now apply (split_In_free "," s). }
      repeat split; try assumption.
      rewrite Hout. cbn [List.length]. rewrite length_map.
      rewrite <- (length_map MigrationRulesEngine.convertParameter (split "," s)), Hmap.
      reflexivity.
    + destruct (map EnhancedMigrationEngine.convertParameter (split "," s))
        as [|first others] eqn:Hmap.
      { destruct (split "," s); [contradiction|discriminate]. }
      exists (join ", " (first :: others)), first, others.
      assert (Hout : split "," (join ", " (first :: others))
                     = first :: map (append " ") others).
      { apply (split_joined (first :: others)). intros x Hx. rewrite <- Hmap in Hx.
        apply in_map_iff in Hx as (param & <- & Hparam).
        apply enhanced_convertParameter_free. now apply (split_In_free "," s). }
      repeat split; try assumption.
      rewrite Hout. cbn [List.length]. rewrite length_map.
      rewrite <- (length_map EnhancedMigrationEngine.convertParameter (split "," s)), Hmap.
      reflexivity.
Qed.

End ParameterProps.

(* ===================================================================== *)
(** ** The [apply_migration_rules] tool                                   *)
(* ===================================================================== *)

Module ServerProps.
Import JS RegExp MigrationRulesEngine RuleSpec McpServer JSFacts RegExpFacts SortFacts
       EngineFacts.
Local Open Scope list_scope.

Lemma search_none_execAll (re : RegExp.t) (s : string) :
  forall b idx, search re b s idx = None -> execAll re b s idx 0 = [].
Proof.
  induction s as [|c s IH]; intros b idx; cbn [search execAll Nat.eqb].
  - destruct (exec_at re b "") as [[n cs]|]; [discriminate|reflexivity].
  - destruct (exec_at re b (String c s)) as [[n cs]|]; [discriminate|].
    cbn [Nat.pred]. apply IH.
Qed.

(** A pattern that [test] does not find from the start has no match. *)
Lemma testFrom_false (re : RegExp.t) (text : string) :
  fst (testFrom re 0 text) = false -> matches re text = [].
Proof.
  unfold testFrom, matches, test. destruct (global re).
  - cbn [Nat.ltb Nat.leb drop].
    destruct (search re None text 0) as [m|] eqn:H; [discriminate|].
    intros _. now apply search_none_execAll.
  - cbn [fst]. now destruct (search re None text 0).
Qed.

Lemma filter_none {A : Type} (f : A -> bool) (l : list A) :
  List.length (filter f l) = 0 -> forall x, In x l -> f x = false.
Proof.
  induction l as [|a l IH]; intros H x; [intros []|].
  cbn [filter] in H. destruct (f a) eqn:Ha; [discriminate|].
  intros [<-|Hx]; [exact Ha|now apply IH].
Qed.

(** The server never changes the set of rules: sorting only reorders. *)
Lemma serve_rules (stack : nat) (requests : list ApplyArgs) :
  Permutation (rules (serve stack requests)) initializeRules.
Proof.
  unfold serve.
  assert (H : forall engine,
             Permutation (rules engine) initializeRules ->
             Permutation
               (rules (fold_left
                         (fun rulesEngine args =>
                            snd (handleApplyMigrationRules stack rulesEngine args))
                         requests engine))
               initializeRules).
  { induction requests as [|args requests IH]; intros engine He; [exact He|].
    cbn [fold_left]. apply IH. cbn [handleApplyMigrationRules applyRules snd rules].
    etransitivity; [apply sort_perm|exact He]. }
  apply H. reflexivity.
Qed.

(** After any sequence of earlier requests, a request that is answered
    reports [appliedRulesCount], the number of rules whose pattern occurs
    in the original text: at most the twenty rules of the table, and when
    it is zero the converted text is the original text. *)
Theorem appliedRulesCount_zero_means_unchanged :
  forall (stack : nat) (earlier : list ApplyArgs) (args : ApplyArgs),
    let rulesEngine := serve (S stack) earlier in
    match fst (handleApplyMigrationRules (S stack) rulesEngine args) with
    | Ok answer =>
        original answer = vbContent args /\
        appliedRulesCount answer <= 20 /\
        (appliedRulesCount answer = 0 -> converted answer = original answer)
    | Throw _ => True
    end.
Proof.
  intros stack earlier args rulesEngine.
  pose proof (serve_rules (S stack) earlier) as Hperm. fold rulesEngine in Hperm.
  unfold handleApplyMigrationRules. cbn [fst snd applyRules getRules rules].
  destruct (applyRulesN (S stack) (rules rulesEngine) (vbContent args) _)
    as [convertedContent|e] eqn:Hrun; cbn [bind]; [|exact I].
  cbn [original converted appliedRulesCount]. split; [reflexivity|]. split.
  - etransitivity; [apply filter_length_le|].
    assert (Hlen : List.length (sortRules (rules rulesEngine)) = 20).
    { assert (Hsorted : Permutation (sortRules (rules rulesEngine)) (rules rulesEngine))
        by apply (sort_perm priority).
      rewrite (Permutation_length Hsorted), (Permutation_length Hperm). reflexivity. }
    rewrite Hlen. constructor.
  - intros Hzero.
    rewrite applyRulesN_converged in Hrun; [now injection Hrun as <-|].
    intros rule Hrule _. apply testFrom_false.
    apply (filter_none _ _ Hzero). now apply sortRules_in.
Qed.

End ServerProps.
